(** * The file exporter of [export.py]: a shallow embedding and its properties

    The program walks a source directory, selects files by extension, copies
    them into an output directory (flat with collision-free names, or
    mirroring the source layout) and renders two text artefacts: a tree of the
    source directory and the concatenation of the copied files.

    Layout of this development:
    - [Str]: the few operations on Python [str] the program uses;
    - [Exn]: exceptions as an error monad ([try ... except] is [try_except]);
    - [PurePath]: the lexical part of [pathlib.Path];
    - [FS]: the file system as a tree, with [exists], [open], [mkdir],
      [rmtree] and [os.walk];
    - [FileProcessor]: the methods of the class of that name;
    - the notions the properties are stated with, and concrete
      configurations and file systems;
    - the properties, one section per component.

    Conventions of the model.
    - A Python [str] is a [string] of bytes (UTF-8), so [lower] only folds
      ASCII letters; comparing strings byte by byte is comparing them code
      point by code point.
    - Paths are POSIX paths.  The current directory is the root of the file
      system tree, so a relative and an absolute path with the same
      components name the same file; [".."] is an ordinary component that
      names nothing; a path that starts with two slashes is read like one
      that starts with a single slash.  [suffix] and [stem] are those of
      Python up to 3.13.
    - Symbolic links and special files are left out: every entry is a
      regular file or a directory.  A directory carries one permission,
      which covers listing it and creating entries in it; a file can be read
      or not; writing is limited by the shape of the tree and by that
      permission only.
    - The one loop without a bound, the probe loop of
      [generate_unique_filename], takes fuel; the functions that call it
      return [None] when the fuel runs out.  Section [Termination] shows
      that enough fuel always exists.
    - Logging is not modelled. *)

From Stdlib Require Import Ascii String.
From stdpp Require Import gmap strings list pretty sorting.

Open Scope string_scope.
Open Scope list_scope.
Open Scope nat_scope.

(** ** Python strings *)

Module Str.

(** The characters of a string, for reasoning with list lemmas. *)
Definition chars (s : string) : list ascii := list_ascii_of_string s.

(** [s.endswith(suf)] *)
Definition endswith (s suf : string) : bool :=
  bool_decide (chars suf `suffix_of` chars s).

(** [c in s] for a single character [c]. *)
Definition contains (c : ascii) (s : string) : bool :=
  bool_decide (c ∈ chars s).

(** [s.split(sep)] for a single character [sep]: the maximal runs between
    separators, empty runs included. *)
Fixpoint split_go (sep : ascii) (cur : string) (s : string) : list string :=
  match s with
  | EmptyString => [String.rev cur]
  | String c s' =>
      if decide (c = sep) then String.rev cur :: split_go sep "" s'
      else split_go sep (String c cur) s'
  end.

Definition split (sep : ascii) (s : string) : list string := split_go sep "" s.

(** [sep.join(l)] *)
Fixpoint join (sep : string) (l : list string) : string :=
  match l with
  | [] => ""
  | [s] => s
  | s :: l' => s +:+ sep +:+ join sep l'
  end.

(** [''.join(l)] *)
Definition concat (l : list string) : string := foldr String.app "" l.

(** [s.lower()], on ASCII letters. *)
Definition lower_char (c : ascii) : ascii :=
  let n := nat_of_ascii c in
  if (65 <=? n)%nat && (n <=? 90)%nat then ascii_of_nat (n + 32) else c.

Fixpoint lower (s : string) : string :=
  match s with
  | EmptyString => EmptyString
  | String c s' => String (lower_char c) (lower s')
  end.

(** [s.rfind(c)]: the index of the last occurrence of [c], [None] for
    Python's [-1]. *)
Fixpoint rfind (c : ascii) (s : string) : option nat :=
  match s with
  | EmptyString => None
  | String d s' =>
      match rfind c s' with
      | Some i => Some (S i)
      | None => if decide (d = c) then Some 0%nat else None
      end
  end.

(** [str(n)] for a natural number: its decimal digits. *)
Definition of_nat (n : nat) : string := pretty n.

End Str.

(** ** Exceptions *)

Module Exn.

Inductive exn :=
| ValueError
| FileNotFoundError
| FileExistsError
| NotADirectoryError
| IsADirectoryError
| PermissionError
| UnicodeDecodeError
| OSError.

Global Instance exn_eq_dec : EqDecision exn.
Proof. solve_decision. Defined.

(** The outcome of a Python call: a value, or a raised exception. *)
Inductive result (A : Type) :=
| Ok (a : A)
| Raise (e : exn).
Global Arguments Ok {A} a.
Global Arguments Raise {A} e.

Global Instance result_ret : MRet result := λ A a, Ok a.
Global Instance result_bind : MBind result := λ A B f m,
  match m with
  | Ok a => f a
  | Raise e => Raise e
  end.

(** [try: body / except Exception: handler] *)
Definition try_except {A} (body : result A) (handler : exn → result A) : result A :=
  match body with
  | Ok a => Ok a
  | Raise e => handler e
  end.

Definition is_ok {A} (r : result A) : bool :=
  match r with Ok _ => true | Raise _ => false end.

End Exn.
Export Exn.

(** ** Lexical paths ([pathlib.PurePosixPath]) *)

Module PurePath.

(** A path is its anchor (does it start at ["/"]) and its components.
    The components of a parsed path are never empty or ["."], and never
    contain the separator. *)
Record Path := mkPath { anchored : bool; parts : list string }.

Global Instance Path_eq_dec : EqDecision Path.
Proof. solve_decision. Defined.

Definition sep : ascii := "/"%char.

Definition starts_with_sep (s : string) : bool :=
  match s with
  | String c _ => bool_decide (c = sep)
  | EmptyString => false
  end.

Definition keep_component (c : string) : bool :=
  negb (bool_decide (c = "")) && negb (bool_decide (c = ".")).

(** [Path(s)] *)
Definition parse (s : string) : Path :=
  {| anchored := starts_with_sep s;
     parts := List.filter keep_component (Str.split sep s) |}.

(** [str(p)] *)
Definition str (p : Path) : string :=
  if anchored p then "/" +:+ Str.join "/" (parts p)
  else match parts p with
       | [] => "."
       | _ => Str.join "/" (parts p)
       end.

(** [p.name] *)
Definition name (p : Path) : string := List.last (parts p) "".

(** [p.suffix] and [p.stem]: the name is cut at its last dot, unless that
    dot is the first or the last character of the name. *)
Definition cut (nm : string) : option nat :=
  match Str.rfind "."%char nm with
  | Some i => if (0 <? i)%nat && (i <? String.length nm - 1)%nat then Some i else None
  | None => None
  end.

Definition suffix_of_name (nm : string) : string :=
  match cut nm with
  | Some i => substring i (String.length nm - i) nm
  | None => ""
  end.

Definition stem_of_name (nm : string) : string :=
  match cut nm with
  | Some i => substring 0 i nm
  | None => nm
  end.

Definition suffix (p : Path) : string := suffix_of_name (name p).

Definition stem (p : Path) : string := stem_of_name (name p).

(** [p / q] for a path [q] *)
Definition joinpath (p q : Path) : Path :=
  if anchored q then q
  else {| anchored := anchored p; parts := parts p ++ parts q |}.

(** [p / s] for a string [s] *)
Definition div (p : Path) (s : string) : Path := joinpath p (parse s).

(** [p.parent] *)
Definition parent (p : Path) : Path :=
  {| anchored := anchored p; parts := removelast (parts p) |}.

(** [p.absolute()]: the current directory is the root. *)
Definition absolute (p : Path) : Path :=
  {| anchored := true; parts := parts p |}.

(** [p.relative_to(q)]: lexical, [ValueError] unless [q] is an ancestor of
    [p] (or [p] itself) with the same anchor. *)
Definition relative_to (p q : Path) : result Path :=
  if bool_decide (anchored p = anchored q)
     && bool_decide (parts q `prefix_of` parts p)
  then Ok {| anchored := false; parts := drop (length (parts q)) (parts p) |}
  else Raise ValueError.

(** The components a parsed path can have. *)
Definition valid_component (c : string) : Prop :=
  c ≠ "" ∧ c ≠ "." ∧ Str.contains sep c = false.

Definition wf_path (p : Path) : Prop := Forall valid_component (parts p).

End PurePath.
Export PurePath.

Infix "</>" := div (at level 40, left associativity).

(** ** The file system *)

Module FS.

(** A regular file holds its text, or [None] when it cannot be opened and
    decoded as UTF-8.  A directory lists its entries in the order the
    operating system reports them; [perm] is the process's permission to
    list it and to create entries in it. *)
#[warnings="-register-all"]
Inductive node :=
| File (content : option string)
| Dir (perm : bool) (entries : list (string * node)).

Definition is_dir_node (n : node) : bool :=
  match n with Dir _ _ => true | File _ => false end.

Definition is_file_node (n : node) : bool :=
  match n with File _ => true | Dir _ _ => false end.

Fixpoint lookup_entry (nm : string) (es : list (string * node)) : option node :=
  match es with
  | [] => None
  | (k, c) :: es' => if decide (k = nm) then Some c else lookup_entry nm es'
  end.

(** Replace the entry called [nm], or add it after the others. *)
Fixpoint set_entry (nm : string) (c' : node) (es : list (string * node))
  : list (string * node) :=
  match es with
  | [] => [(nm, c')]
  | (k, c) :: es' =>
      if decide (k = nm) then (k, c') :: es' else (k, c) :: set_entry nm c' es'
  end.

Fixpoint del_entry (nm : string) (es : list (string * node)) : list (string * node) :=
  match es with
  | [] => []
  | (k, c) :: es' => if decide (k = nm) then es' else (k, c) :: del_entry nm es'
  end.

(** The node a list of components leads to. *)
Fixpoint resolve (ps : list string) (n : node) : option node :=
  match ps with
  | [] => Some n
  | nm :: ps' =>
      match n with
      | File _ => None
      | Dir _ es =>
          match lookup_entry nm es with
          | Some c => resolve ps' c
          | None => None
          end
      end
  end.

(** [p.exists()], [p.is_file()], [p.is_dir()] *)
Definition exists_ (fs : node) (p : Path) : bool :=
  bool_decide (is_Some (resolve (parts p) fs)).

Definition is_file (fs : node) (p : Path) : bool :=
  match resolve (parts p) fs with Some (File _) => true | _ => false end.

Definition is_dir (fs : node) (p : Path) : bool :=
  match resolve (parts p) fs with Some (Dir _ _) => true | _ => false end.

(** [open(p, 'r', encoding='utf-8').read()] *)
Definition read_text (fs : node) (p : Path) : result string :=
  match resolve (parts p) fs with
  | Some (File (Some c)) => Ok c
  | Some (File None) => Raise UnicodeDecodeError
  | Some (Dir _ _) => Raise IsADirectoryError
  | None => Raise FileNotFoundError
  end.

(** A chain of new, empty directories. *)
Fixpoint fresh_dirs (ps : list string) : node :=
  match ps with
  | [] => Dir true []
  | nm :: ps' => Dir true [(nm, fresh_dirs ps')]
  end.

(** [p.mkdir(parents=True, exist_ok=exist_ok)] at components [ps] *)
Fixpoint mkdir_at (exist_ok : bool) (ps : list string) (n : node) : result node :=
  match n with
  | File _ => Raise (match ps with [] => FileExistsError | _ => NotADirectoryError end)
  | Dir w es =>
      match ps with
      | [] => if exist_ok then Ok n else Raise FileExistsError
      | nm :: ps' =>
          match lookup_entry nm es with
          | Some c => c' ← mkdir_at exist_ok ps' c; Ok (Dir w (set_entry nm c' es))
          | None =>
              if w then Ok (Dir w (set_entry nm (fresh_dirs ps') es))
              else Raise PermissionError
          end
      end
  end.

Definition mkdir (exist_ok : bool) (fs : node) (p : Path) : result node :=
  mkdir_at exist_ok (parts p) fs.

(** [open(p, 'w', encoding='utf-8').write(content)] at components [ps]: the
    file is created in an existing directory, or its content replaced. *)
Fixpoint write_at (ps : list string) (content : string) (n : node) : result node :=
  match ps with
  | [] =>
      match n with
      | File _ => Ok (File (Some content))
      | Dir _ _ => Raise IsADirectoryError
      end
  | nm :: ps' =>
      match n with
      | File _ => Raise NotADirectoryError
      | Dir w es =>
          match lookup_entry nm es with
          | Some c => c' ← write_at ps' content c; Ok (Dir w (set_entry nm c' es))
          | None =>
              match ps' with
              | [] =>
                  if w then Ok (Dir w (set_entry nm (File (Some content)) es))
                  else Raise PermissionError
              | _ => Raise FileNotFoundError
              end
          end
      end
  end.

Definition write_text (fs : node) (p : Path) (content : string) : result node :=
  write_at (parts p) content fs.

(** The tree without the entry at components [ps], whatever it is. *)
Fixpoint del_at (ps : list string) (n : node) : node :=
  match ps, n with
  | [], _ => n
  | _, File _ => n
  | [nm], Dir w es => Dir w (del_entry nm es)
  | nm :: ps', Dir w es =>
      match lookup_entry nm es with
      | Some c => Dir w (set_entry nm (del_at ps' c) es)
      | None => n
      end
  end.

(** [shutil.rmtree(p)]: [p] must be a directory other than the root; it is
    removed with all it contains. *)
Definition rmtree (fs : node) (p : Path) : result node :=
  match parts p with
  | [] => Raise OSError
  | _ =>
      match resolve (parts p) fs with
      | Some (Dir _ _) => Ok (del_at (parts p) fs)
      | Some (File _) => Raise NotADirectoryError
      | None => Raise FileNotFoundError
      end
  end.

(** The path of the entry [nm] of directory [p], as [iterdir] and [os.walk]
    build it. *)
Definition child (p : Path) (nm : string) : Path :=
  {| anchored := anchored p; parts := parts p ++ [nm] |}.

Definition dir_names (es : list (string * node)) : list string :=
  (List.filter (λ e, is_dir_node e.2) es).*1.

Definition file_names (es : list (string * node)) : list string :=
  (List.filter (λ e, is_file_node e.2) es).*1.

(** [os.walk(top)], top-down, where the caller keeps in [dirs] the names
    that satisfy [keep] before the walk goes on ([dirs[:] = ...]).  The walk
    yields [(root, dirs, files)] for every directory it can list, and goes
    down into the directories left in [dirs], in order.  [n] is the node at
    [top]. *)
Fixpoint walk_node (keep : string → bool) (n : node) (top : Path)
  : list (Path * list string * list string) :=
  match n with
  | File _ => []
  | Dir false _ => []
  | Dir true es =>
      (top, List.filter keep (dir_names es), file_names es)
      :: flat_map (λ e, if is_dir_node e.2 && keep e.1
                        then walk_node keep e.2 (child top e.1) else []) es
  end.

Definition walk (keep : string → bool) (fs : node) (top : Path)
  : list (Path * list string * list string) :=
  match resolve (parts top) fs with
  | Some n => walk_node keep n top
  | None => []
  end.

End FS.
Export FS.

(** ** The processor *)

Module FileProcessor.

Record FileProcessorConfig := {
  extensions : gset string;
  ignored_dirs : gset string;
  ignored_files : gset string;
  source_dir : Path;
  output_dir : Path;
  text_output : Path;
  mirror_dir_structure : bool;
  max_workers : nat
}.

Record ProcessingResults := {
  tree_output : string;
  combined_output : string
}.

(** The dictionary [{'path': ..., 'content': ...}] of [process_file]. *)
Record FileData := {
  fd_path : string;
  fd_content : string
}.

(** What the methods change: the file system and [self.processed_files]. *)
Record State := {
  fs : node;
  processed_files : list Path
}.

Definition nl : string := String (ascii_of_nat 10) "".

(** *** [generate_unique_filename]

    The [while True] loop, with [fuel] bounding the number of probes; [None]
    means the bound was reached. *)
Fixpoint probe (fs : node) (base_path : Path) (nm ext : string)
    (fuel counter : nat) : option Path :=
  match fuel with
  | O => None
  | S fuel' =>
      let new_path := base_path </> (nm +:+ "_" +:+ Str.of_nat counter +:+ ext) in
      if negb (exists_ fs new_path) then Some new_path
      else probe fs base_path nm ext fuel' (S counter)
  end.

Definition generate_unique_filename (fuel : nat) (fs : node)
    (base_path : Path) (filename : string) : option Path :=
  let path := base_path </> filename in
  if negb (exists_ fs path) then Some path
  else probe fs base_path (stem path) (suffix path) fuel 1.

(** *** [process_file] *)
Definition process_file (cfg : FileProcessorConfig) (fs : node) (file_path : Path)
  : result (option FileData) :=
  try_except
    (content ← read_text fs file_path;
     rel ← relative_to file_path (source_dir cfg);
     Ok (Some {| fd_path := str rel; fd_content := content |}))
    (λ _, Ok None).

(** *** [write_output_file]

    [None] only when the probe loop of flat mode ran out of fuel. *)
Definition output_path_of (fuel : nat) (cfg : FileProcessorConfig) (fs : node)
    (d : FileData) : option Path :=
  if mirror_dir_structure cfg then
    Some (joinpath (output_dir cfg) (parse (fd_path d)))
  else
    let output_path := output_dir cfg </> name (parse (fd_path d)) in
    generate_unique_filename fuel fs (output_dir cfg) (name output_path).

Definition write_output_file (fuel : nat) (cfg : FileProcessorConfig) (st : State)
    (file_data : option FileData) : option State :=
  match file_data with
  | None => Some st
  | Some d =>
      output_path ← output_path_of fuel cfg (fs st) d;
      Some
        match mkdir true (fs st) (parent output_path) with
        | Raise _ => st
        | Ok fs1 =>
            match write_text fs1 output_path (fd_content d) with
            | Raise _ => {| fs := fs1; processed_files := processed_files st |}
            | Ok fs2 =>
                {| fs := fs2; processed_files := processed_files st ++ [output_path] |}
            end
        end
  end.

(** *** [should_process_file] *)
Definition should_process_file (cfg : FileProcessorConfig) (file_path : Path) : bool :=
  bool_decide (set_Exists (λ ext, Str.endswith (str file_path) ext = true) (extensions cfg))
  && bool_decide (name file_path ∉ ignored_files cfg).

(** *** [_generate_tree] *)

(** The sort key [(p.is_file(), p.name.lower())] and its order. *)
Definition sort_key : Type := bool * string.

Definition key_le (k1 k2 : sort_key) : bool :=
  if bool_decide (k1.1 = k2.1) then String.leb k1.2 k2.2 else negb k1.1.

(** [sorted(l, key=key)]: a stable sort. *)
Fixpoint insert_sorted {A} (key : A → sort_key) (x : A) (l : list A) : list A :=
  match l with
  | [] => [x]
  | y :: l' =>
      if key_le (key x) (key y) then x :: l else y :: insert_sorted key x l'
  end.

Definition sorted {A} (key : A → sort_key) (l : list A) : list A :=
  foldr (insert_sorted key) [] l.

(** A child of the directory being rendered: its path, what it is, and the
    rendering of its own subtree as a function of the prefix. *)
Record tree_child := {
  tc_path : Path;
  tc_is_file : bool;
  tc_is_dir : bool;
  tc_render : string → list string
}.

Definition tree_key (c : tree_child) : sort_key :=
  (tc_is_file c, Str.lower (name (tc_path c))).

(** The [for i, p in enumerate(paths)] loop, from index [i] on; [len] is
    [len(paths)]. *)
Fixpoint tree_loop (ignored : gset string) (prefix : string) (len : nat)
    (i : nat) (paths : list tree_child) : list string :=
  match paths with
  | [] => []
  | p :: paths' =>
      if bool_decide (name (tc_path p) ∈ ignored) then
        tree_loop ignored prefix len (S i) paths'
      else
        let is_last := bool_decide (i = len - 1)%nat in
        let connector := if is_last then "└── " else "├── " in
        let line := prefix +:+ connector +:+ name (tc_path p) in
        let below :=
          if tc_is_dir p then
            let extension := if is_last then "    " else "│   " in
            tc_render p (prefix +:+ extension)
          else [] in
        line :: below ++ tree_loop ignored prefix len (S i) paths'
  end.

(** [_generate_tree(path, prefix)] where [n] is the directory at [path].
    The calls on the children are taken before the sort, each as a function
    of the prefix it is given, so that the recursion follows the tree. *)
Fixpoint tree_node (cfg : FileProcessorConfig) (n : node) (path : Path)
    (prefix : string) {struct n} : list string :=
  if bool_decide (name path ∈ ignored_dirs cfg) then []
  else if negb (is_ok (relative_to path (text_output cfg))) then []
  else
    match n with
    | File _ => []
    | Dir false _ => []
    | Dir true es =>
        let children :=
          map (λ e, {| tc_path := child path e.1;
                       tc_is_file := is_file_node e.2;
                       tc_is_dir := is_dir_node e.2;
                       tc_render := tree_node cfg e.2 (child path e.1) |}) es in
        let paths := sorted tree_key children in
        tree_loop (ignored_dirs cfg) prefix (length paths) 0 paths
    end.

(** [_generate_tree(path, prefix)]: the two guards come first; listing a
    path that is not a directory raises, and only [PermissionError] is
    caught. *)
Definition _generate_tree (cfg : FileProcessorConfig) (fs : node) (path : Path)
    (prefix : string) : result (list string) :=
  if bool_decide (name path ∈ ignored_dirs cfg) then Ok []
  else if negb (is_ok (relative_to path (text_output cfg))) then Ok []
  else
    match resolve (parts path) fs with
    | None => Raise FileNotFoundError
    | Some (File _) => Raise NotADirectoryError
    | Some n => Ok (tree_node cfg n path prefix)
    end.

(** *** [generate_tree_output]: the text returned and the file system left *)
Definition generate_tree_output (cfg : FileProcessorConfig) (fs : node)
  : string * node :=
  match _generate_tree cfg fs (source_dir cfg) "" with
  | Raise _ => ("", fs)
  | Ok tree_content =>
      let tree_text := Str.join nl tree_content in
      match mkdir true fs (text_output cfg) with
      | Raise _ => ("", fs)
      | Ok fs1 =>
          let tree_file := absolute (text_output cfg) </> "combined.tree.txt" in
          match write_text fs1 tree_file tree_text with
          | Raise _ => ("", fs1)
          | Ok fs2 => (tree_text, fs2)
          end
      end
  end.

(** *** [generate_combined_output] *)

(** One pass of the [for file_path in self.processed_files] loop. *)
Definition combined_block (fs : node) (file_path : Path) : result string :=
  content ← read_text fs file_path;
  Ok ("File: " +:+ str file_path +:+ nl +:+ content +:+ nl +:+ nl).

Fixpoint combined_content (fs : node) (files : list Path) : result (list string) :=
  match files with
  | [] => Ok []
  | file_path :: files' =>
      b ← combined_block fs file_path;
      bs ← combined_content fs files';
      Ok (b :: bs)
  end.

Definition generate_combined_output (cfg : FileProcessorConfig) (st : State)
  : string * node :=
  match combined_content (fs st) (processed_files st) with
  | Raise _ => ("", fs st)
  | Ok blocks =>
      let combined_text := Str.concat blocks in
      match mkdir true (fs st) (text_output cfg) with
      | Raise _ => ("", fs st)
      | Ok fs1 =>
          let combined_file := absolute (text_output cfg) </> "combined.txt" in
          match write_text fs1 combined_file combined_text with
          | Raise _ => ("", fs1)
          | Ok fs2 => (combined_text, fs2)
          end
      end
  end.

(** *** [process_directory] *)

(** "Clear output directory" *)
Definition clear_output (cfg : FileProcessorConfig) (fs : node) : result node :=
  fs1 ← (if exists_ fs (output_dir cfg) then rmtree fs (output_dir cfg) else Ok fs);
  mkdir false fs1 (output_dir cfg).

(** "Collect all files to process" *)
Definition collect_files (cfg : FileProcessorConfig) (fs : node) : list Path :=
  flat_map
    (λ '(root, dirs, files),
       List.filter (should_process_file cfg) (map (λ file, root </> file) files))
    (walk (λ d, bool_decide (d ∉ ignored_dirs cfg)) fs (source_dir cfg)).

(** "Process files in parallel": [executor.map] hands the results over in
    the order of [files_to_process]; an exception of a call would be raised
    again when its result is taken.  Every file is read here before the
    first write; the workers may read later, which makes no difference
    (see [process_directory_reads]): the writes only touch the output
    directory, which was empty when the files were collected. *)
Fixpoint write_all (fuel : nat) (cfg : FileProcessorConfig) (st : State)
    (results : list (result (option FileData))) : option (result State) :=
  match results with
  | [] => Some (Ok st)
  | Raise e :: _ => Some (Raise e)
  | Ok file_data :: results' =>
      st' ← write_output_file fuel cfg st file_data;
      write_all fuel cfg st' results'
  end.

(** [ThreadPoolExecutor(max_workers=n)]: the constructor raises
    [ValueError] unless [n > 0]. *)
Definition ThreadPoolExecutor (max_workers : nat) : result unit :=
  if decide (max_workers = 0) then Raise ValueError else Ok tt.

(** The results and the file system left, or the exception raised again by
    the outer handler; [None] when the fuel did not suffice.  The pool is
    made after the output directory is cleared and the files are collected,
    and before the first file is read; an exception of its constructor is
    raised again by the outer handler like any other. *)
Definition process_directory (fuel : nat) (cfg : FileProcessorConfig) (fs0 : node)
  : option (result (ProcessingResults * node)) :=
  match clear_output cfg fs0 with
  | Raise e => Some (Raise e)
  | Ok fs1 =>
      let files_to_process := collect_files cfg fs1 in
      match ThreadPoolExecutor (max_workers cfg) with
      | Raise e => Some (Raise e)
      | Ok _ =>
          r ← write_all fuel cfg {| fs := fs1; processed_files := [] |}
                (map (process_file cfg fs1) files_to_process);
          match r with
          | Raise e => Some (Raise e)
          | Ok st =>
              let '(tree_output, fs2) := generate_tree_output cfg (fs st) in
              let '(combined_output, fs3) :=
                generate_combined_output cfg
                  {| fs := fs2; processed_files := processed_files st |} in
              Some (Ok ({| tree_output := tree_output;
                           combined_output := combined_output |}, fs3))
          end
      end
  end.

End FileProcessor.
Export FileProcessor.

(** ** Notions used to state the properties *)

(** The candidates of the probe loop of [generate_unique_filename]:
    [base_path / f"{name}_{n}{ext}"]. *)
Definition candidate (base_path : Path) (filename : string) (n : nat) : Path :=
  let path := base_path </> filename in
  base_path </> (stem path +:+ "_" +:+ Str.of_nat n +:+ suffix path).

(** The names flat mode gives to files that share the name [nm]: [nm]
    itself, then [nm] with [_1], [_2], ... put before its suffix. *)
Definition flat_name (nm : string) (k : nat) : string :=
  match k with
  | O => nm
  | S _ => stem_of_name nm +:+ "_" +:+ Str.of_nat k +:+ suffix_of_name nm
  end.

(** Every path of [processed_files] is a file that can be read back. *)
Definition all_written (st : State) : Prop :=
  Forall (λ p, ∃ c, read_text (fs st) p = Ok c) (processed_files st).

(** The names of all entries are names a file system can hold, and differ
    within a directory. *)
Definition valid_componentb (c : string) : bool :=
  keep_component c && negb (Str.contains sep c).

Fixpoint wf_names (n : node) : bool :=
  match n with
  | File _ => true
  | Dir _ es =>
      bool_decide (NoDup es.*1)
      && forallb (λ e, valid_componentb e.1 && wf_names e.2) es
  end.

(** The tree in which every directory whose name is not kept is emptied. *)
Fixpoint prune (keep : string → bool) (n : node) : node :=
  match n with
  | File c => File c
  | Dir w es =>
      Dir w (map (λ e, (e.1, if is_dir_node e.2 && negb (keep e.1)
                             then Dir true [] else prune keep e.2)) es)
  end.

(** The names of all entries below a node. *)
Fixpoint entry_names (n : node) : list string :=
  match n with
  | File _ => []
  | Dir _ es => flat_map (λ e, e.1 :: entry_names e.2) es
  end.

(** A line of the tree: some prefix, a connector, and the name of an entry
    that is one of [names] and is not ignored. *)
Definition tree_line (cfg : FileProcessorConfig) (names : list string)
    (line : string) : Prop :=
  ∃ pre conn nm,
    line = pre +:+ conn +:+ nm
    ∧ (conn = "└── " ∨ conn = "├── ")
    ∧ nm ∈ names
    ∧ nm ∉ ignored_dirs cfg.


(** ** Concrete configurations and file systems *)

Definition cfg_makefile : FileProcessorConfig := {|
  extensions := {[ "/Makefile" ]};
  ignored_dirs := ∅;
  ignored_files := ∅;
  source_dir := parse "proj";
  output_dir := parse "out";
  text_output := parse ".";
  mirror_dir_structure := false;
  max_workers := 4 |}.

Definition cfg_py : FileProcessorConfig := {|
  extensions := {[ ".py" ]};
  ignored_dirs := {[ "venv" ]};
  ignored_files := {[ "setup.py" ]};
  source_dir := parse "proj/src";
  output_dir := parse "proj/out";
  text_output := parse "proj";
  mirror_dir_structure := false;
  max_workers := 4 |}.


Definition cfg_flat : FileProcessorConfig := {|
  extensions := {[ ".py" ]};
  ignored_dirs := ∅;
  ignored_files := ∅;
  source_dir := parse "src";
  output_dir := parse "out";
  text_output := parse ".";
  mirror_dir_structure := false;
  max_workers := 4 |}.

(** An output directory that holds [x.py] and [x_1.py]. *)
Definition fs_two_x : node :=
  Dir true [("out", Dir true [("x.py", File (Some "first"));
                              ("x_1.py", File (Some "second"))])].

(** An empty output directory. *)
Definition fs_empty_out : node := Dir true [("out", Dir true [])].

Definition three_x : list FileData :=
  [ {| fd_path := "x.py"; fd_content := "first" |};
    {| fd_path := "a/x.py"; fd_content := "second" |};
    {| fd_path := "b/c/x.py"; fd_content := "third" |} ].

(** The state after two flat writes of [x.py], a third record of that name,
    and the state after writing it. *)
Definition st_two_x : State := {|
  fs := fs_two_x;
  processed_files := [parse "out/x.py"; parse "out/x_1.py"] |}.

Definition d_third_x : FileData := {| fd_path := "b/c/x.py"; fd_content := "third" |}.

Definition st_three_x : State := {|
  fs := Dir true [("out", Dir true [("x.py", File (Some "first"));
                                    ("x_1.py", File (Some "second"));
                                    ("x_2.py", File (Some "third"))])];
  processed_files := [parse "out/x.py"; parse "out/x_1.py"; parse "out/x_2.py"] |}.

(** A file outside the source directory [src] of [cfg_flat]. *)
Definition fs_outside : node :=
  Dir true [("src", Dir true [("a.py", File (Some "inside"))]);
            ("other", Dir true [("x.py", File (Some "outside"))])].

(** A source tree with an ignored directory [venv] (see [cfg_py]). *)
Definition fs_project : node :=
  Dir true [("proj", Dir true [("src", Dir true [
     ("x.py", File (Some "X1"));
     ("b.txt", File (Some "B"));
     ("sub", Dir true [("x.py", File (Some "X2")); ("Zed", Dir true [])]);
     ("venv", Dir true [("lib", Dir true [("x.py", File (Some "X3"))])])])])].

(** A source directory without files whose last directory, [venv], is
    ignored (see [cfg_py]). *)
Definition fs_trailing_ignored : node :=
  Dir true [("proj", Dir true [("src", Dir true [
     ("venv", Dir true [("lib.py", File (Some "L"))]);
     ("pkg", Dir true [("a.py", File (Some "A"))])])])].

(** The same without the ignored directory. *)
Definition fs_without_ignored : node :=
  Dir true [("proj", Dir true [("src", Dir true [
     ("pkg", Dir true [("a.py", File (Some "A"))])])])].


(** ** [load_config]

    The result of [yaml.safe_load] is an input, for documents made of null,
    booleans, integers, strings, sequences and mappings.  A mapping lists
    its entries in order; its keys are distinct, as those of a [dict]
    are. *)

Module Config.

#[warnings="-register-all"]
Inductive yaml :=
| YNull
| YBool (b : bool)
| YInt (z : Z)
| YStr (s : string)
| YList (l : list yaml)
| YMap (m : list (yaml * yaml)).

(** What becomes of a field of the configuration: a value of the declared
    type of the field; an exception; or a value this model does not hold,
    which is a value of another type, taken by the dataclass as it is, or a
    string with characters beyond ASCII where its characters are asked
    for. *)
Inductive field (A : Type) :=
| Typed (a : A)
| Raises
| Outside.
Global Arguments Typed {A} a.
Global Arguments Raises {A}.
Global Arguments Outside {A}.

(** The fields are evaluated in order, so an exception wins over a value
    of another type, wherever it is. *)
Definition ap {A B} (f : field (A → B)) (x : field A) : field B :=
  match f, x with
  | Raises, _ | _, Raises => Raises
  | Outside, _ | _, Outside => Outside
  | Typed f, Typed x => Typed (f x)
  end.

(** [d.get(key, default)] for a dict [d]: a key compares equal to the
    string [key] only if it is that string. *)
Fixpoint get_key (key : string) (d : list (yaml * yaml)) : option yaml :=
  match d with
  | [] => None
  | (YStr k, v) :: d' => if decide (k = key) then Some v else get_key key d'
  | _ :: d' => get_key key d'
  end.

Definition get (d : list (yaml * yaml)) (key : string) (dflt : yaml) : yaml :=
  default dflt (get_key key d).

Definition hashable (v : yaml) : bool :=
  match v with
  | YList _ | YMap _ => false
  | _ => true
  end.

Definition as_str (v : yaml) : option string :=
  match v with
  | YStr s => Some s
  | _ => None
  end.

Definition ascii_only (s : string) : bool :=
  forallb (λ c, nat_of_ascii c <? 128) (Str.chars s).

Definition set_of_strs (l : list yaml) : field (gset string) :=
  match mapM as_str l with
  | Some strs => Typed (list_to_set strs)
  | None => Outside
  end.

(** [set(v)]: the elements of a list, which must be hashable; the
    characters of a string; the keys of a dict; anything else cannot be
    iterated. *)
Definition py_set (v : yaml) : field (gset string) :=
  match v with
  | YList l => if forallb hashable l then set_of_strs l else Raises
  | YStr s =>
      if ascii_only s then Typed (list_to_set (map (λ c, String c "") (Str.chars s)))
      else Outside
  | YMap d => set_of_strs d.*1
  | YNull | YBool _ | YInt _ => Raises
  end.

(** [Path(v)] *)
Definition py_path (v : yaml) : field Path :=
  match v with
  | YStr s => Typed (parse s)
  | _ => Raises
  end.

(** The truth value of [v], which is all that [write_output_file] asks of
    [mirror_dir_structure]. *)
Definition truthy (v : yaml) : bool :=
  match v with
  | YNull => false
  | YBool b => b
  | YInt z => negb (z =? 0)%Z
  | YStr s => negb (bool_decide (s = ""))
  | YList l => negb (bool_decide (l = []))
  | YMap d => negb (bool_decide (d = []))
  end.

(** An integer below zero is refused by the pool like zero. *)
Definition py_workers (v : yaml) : field nat :=
  match v with
  | YInt z => Typed (Z.to_nat z)
  | _ => Outside
  end.

(** [load_config(config_path)], given what opening the file and
    [yaml.safe_load] gave: [None] if they raised.  Every exception is
    raised again as [RuntimeError]. *)
Definition load_config (doc : option yaml) : field FileProcessorConfig :=
  match doc with
  | Some (YMap config_data) =>
      ap (ap (ap (ap (ap (ap (ap (ap (Typed Build_FileProcessorConfig)
        (py_set (get config_data "extensions" (YList []))))
        (py_set (get config_data "ignored_dirs" (YList []))))
        (py_set (get config_data "ignored_files" (YList []))))
        (py_path (get config_data "source_dir" (YStr "."))))
        (py_path (get config_data "output_dir" (YStr "output"))))
        (py_path (get config_data "text_output" (YStr "."))))
        (Typed (truthy (get config_data "mirror_dir_structure" (YBool false)))))
        (py_workers (get config_data "max_workers" (YInt 4)))
  | _ => Raises
  end.

End Config.

(** ** Further notions used to state the properties *)

(** The entries of the directory the walk reaches from [n] through the
    directories [ds]: every directory on the way can be listed, and every
    name of [ds] is kept. *)
Fixpoint walk_to (keep : string → bool) (ds : list string) (n : node)
  : option (list (string * node)) :=
  match n with
  | Dir true es =>
      match ds with
      | [] => Some es
      | d :: ds' =>
          if keep d then
            match lookup_entry d es with
            | Some c => walk_to keep ds' c
            | None => None
            end
          else None
      end
  | _ => None
  end.

(** The files a walk yields, as paths. *)
Definition walk_files (t : Path * list string * list string) : list Path :=
  map (λ file, t.1.1 </> file) t.2.

(** The records the reader handed over, in order. *)
Definition records (results : list (result (option FileData))) : list FileData :=
  omap (λ r, match r with Ok (Some d) => Some d | _ => None end) results.

(** The path mirrored mode writes a record to. *)
Definition mirror_path (cfg : FileProcessorConfig) (d : FileData) : Path :=
  joinpath (output_dir cfg) (parse (fd_path d)).

(** What the record of a file [p] of the source tree [s] is like, when
    there is one. *)
Definition mirrored (cfg : FileProcessorConfig) (fs1 s : node) (p : Path) : Prop :=
  ∀ d, process_file cfg fs1 p = Ok (Some d) →
       ∃ rel x, parse (fd_path d) = {| anchored := false; parts := rel |}
                ∧ rel ≠ [] ∧ resolve rel s = Some (File x)
                ∧ parts p = parts (source_dir cfg) ++ rel
                ∧ anchored p = anchored (source_dir cfg).

(** The tree [o] is a part of the tree [s]: its directories are writable
    and are directories of [s], and its files are files of [s]. *)
Fixpoint embeds (o s : node) : bool :=
  match o with
  | File _ => is_file_node s
  | Dir w es =>
      w && match s with
           | File _ => false
           | Dir _ es' =>
               forallb (λ e, match lookup_entry e.1 es' with
                             | Some c' => embeds e.2 c'
                             | None => false
                             end) es
           end
  end.

(** The number of entries the tree shows below a node: those that are not
    ignored, in the directories that can be listed, without what lies below
    an ignored entry. *)
Fixpoint tree_size (ignored : gset string) (n : node) : nat :=
  match n with
  | Dir true es =>
      sum_list_with
        (λ e, if bool_decide (e.1 ∈ ignored) then 0 else S (tree_size ignored e.2)) es
  | _ => 0
  end.

(** What the child [e] of the directory at [path] adds to the tree, when it
    is the child number [k] of [len]: nothing if its name is ignored, else
    its line and, for a directory, the tree of that directory. *)
Definition tree_block (cfg : FileProcessorConfig) (path : Path) (prefix : string)
    (len k : nat) (e : string * node) : list string :=
  if bool_decide (e.1 ∈ ignored_dirs cfg) then []
  else
    let is_last := bool_decide (k = len - 1) in
    (prefix +:+ (if is_last then "└── " else "├── ") +:+ e.1)
    :: (if is_dir_node e.2
        then tree_node cfg e.2 (child path e.1)
               (prefix +:+ (if is_last then "    " else "│   "))
        else []).

(** Children that are drawn alike: the same name and kind, and, unless the
    name is ignored, the same rendering below. *)
Definition drawn_alike (cfg : FileProcessorConfig) (p p' : tree_child) : Prop :=
  name (tc_path p) = name (tc_path p')
  ∧ tc_is_file p = tc_is_file p'
  ∧ tc_is_dir p = tc_is_dir p'
  ∧ (name (tc_path p) ∉ ignored_dirs cfg → ∀ pre, tc_render p pre = tc_render p' pre).

(** The values for which [set(v)] raises. *)
Definition set_raises (v : Config.yaml) : Prop :=
  match v with
  | Config.YNull | Config.YBool _ | Config.YInt _ => True
  | Config.YList l => Exists (λ x, Config.hashable x = false) l
  | Config.YStr _ | Config.YMap _ => False
  end.

(** ** Further configurations and file systems *)

(** A state whose list names a file that is not there. *)
Definition st_missing : State := {|
  fs := fs_two_x;
  processed_files := [parse "out/x.py"; parse "out/gone.py"] |}.

(** The output path of [cfg_flat] is a regular file. *)
Definition fs_out_is_file : node :=
  Dir true [("src", Dir true [("a.py", File (Some "A"))]);
            ("out", File (Some "not a directory"))].

(** The text artefacts go to a directory beside the source directory. *)
Definition cfg_apart : FileProcessorConfig := {|
  extensions := {[ ".py" ]};
  ignored_dirs := ∅;
  ignored_files := ∅;
  source_dir := parse "src";
  output_dir := parse "out";
  text_output := parse "reports";
  mirror_dir_structure := false;
  max_workers := 4 |}.

(** [cfg_flat] with mirrored output. *)
Definition cfg_mirror : FileProcessorConfig := {|
  extensions := {[ ".py" ]};
  ignored_dirs := ∅;
  ignored_files := ∅;
  source_dir := parse "src";
  output_dir := parse "out";
  text_output := parse ".";
  mirror_dir_structure := true;
  max_workers := 4 |}.

(** The source directory lies inside the output directory. *)
Definition cfg_inside : FileProcessorConfig := {|
  extensions := {[ ".py" ]};
  ignored_dirs := ∅;
  ignored_files := ∅;
  source_dir := parse "out/src";
  output_dir := parse "out";
  text_output := parse ".";
  mirror_dir_structure := false;
  max_workers := 4 |}.

Definition fs_inside : node :=
  Dir true [("out", Dir true [("src", Dir true [("a.py", File (Some "A"))])])].

Definition st_empty_out : State := {| fs := fs_empty_out; processed_files := [] |}.

Definition d_first : FileData := {| fd_path := "a/x.py"; fd_content := "first" |}.

Definition d_second : FileData := {| fd_path := "a/x.py"; fd_content := "second" |}.

(** [st_empty_out] after [d_first] was written in mirrored mode. *)
Definition st_mirror_first : State := {|
  fs := Dir true [("out", Dir true [("a", Dir true [("x.py", File (Some "first"))])])];
  processed_files := [parse "out/a/x.py"] |}.

(** Two files named [x.py] in different directories of the source. *)
Definition fs_same_name : node :=
  Dir true [("src", Dir true [("x.py", File (Some "X1"));
                              ("sub", Dir true [("x.py", File (Some "X2"))])])].

(** [fs_same_name] with its output directory, empty. *)
Definition fs_same_name_cleared : node :=
  Dir true [("src", Dir true [("x.py", File (Some "X1"));
                              ("sub", Dir true [("x.py", File (Some "X2"))])]);
            ("out", Dir true [])].

(** [fs_project] with its ignored directory [venv] emptied. *)
Definition fs_project_pruned : node :=
  Dir true [("proj", Dir true [("src", Dir true [
     ("x.py", File (Some "X1"));
     ("b.txt", File (Some "B"));
     ("sub", Dir true [("x.py", File (Some "X2")); ("Zed", Dir true [])]);
     ("venv", Dir true [])])])].

(** A configuration whose pool cannot be made. *)
Definition cfg_no_workers : FileProcessorConfig := {|
  extensions := {[ ".py" ]};
  ignored_dirs := ∅;
  ignored_files := ∅;
  source_dir := parse "src";
  output_dir := parse "out";
  text_output := parse ".";
  mirror_dir_structure := false;
  max_workers := 0 |}.

(** An output directory inside the source directory. *)
Definition cfg_nested : FileProcessorConfig := {|
  extensions := {[ ".py" ]};
  ignored_dirs := ∅;
  ignored_files := ∅;
  source_dir := parse "src";
  output_dir := parse "src/out";
  text_output := parse ".";
  mirror_dir_structure := false;
  max_workers := 4 |}.

Definition fs_nested : node :=
  Dir true [("src", Dir true [("a.py", File (Some "A"))])].

(** What a run of [cfg_nested] on [fs_nested] returns and leaves. *)
Definition r_nested : ProcessingResults := {|
  tree_output := Str.join nl ["├── out"; "│   └── a.py"; "└── a.py"];
  combined_output := "File: src/out/a.py" +:+ nl +:+ "A" +:+ nl +:+ nl |}.

Definition fs_nested_after : node :=
  Dir true [("src", Dir true [("a.py", File (Some "A"));
                              ("out", Dir true [("a.py", File (Some "A"))])]);
            ("combined.tree.txt", File (Some (tree_output r_nested)));
            ("combined.txt", File (Some (combined_output r_nested)))].

(** A configuration file that gives [extensions] as a string, and what is
    loaded from it. *)
Definition doc_chars : list (Config.yaml * Config.yaml) :=
  [(Config.YStr "extensions", Config.YStr ".py")].

Definition cfg_chars : FileProcessorConfig := {|
  extensions := list_to_set (map (λ c, String c "") (Str.chars ".py"));
  ignored_dirs := list_to_set [];
  ignored_files := list_to_set [];
  source_dir := parse ".";
  output_dir := parse "output";
  text_output := parse ".";
  mirror_dir_structure := false;
  max_workers := Z.to_nat 4 |}.

(** What is loaded from a configuration file that holds the empty
    mapping. *)
Definition cfg_default : FileProcessorConfig := {|
  extensions := list_to_set [];
  ignored_dirs := list_to_set [];
  ignored_files := list_to_set [];
  source_dir := parse ".";
  output_dir := parse "output";
  text_output := parse ".";
  mirror_dir_structure := false;
  max_workers := Z.to_nat 4 |}.

(** What a run of [cfg_default] on [fs_nested] returns and leaves. *)
Definition r_default : ProcessingResults := {|
  tree_output := Str.join nl ["├── output"; "└── src"; "    └── a.py"];
  combined_output := "" |}.

Definition fs_default_after : node :=
  Dir true [("src", Dir true [("a.py", File (Some "A"))]);
            ("output", Dir true []);
            ("combined.tree.txt", File (Some (tree_output r_default)));
            ("combined.txt", File (Some ""))].

(** The text artefacts go to the output directory itself, and the files
    that end in [.txt] are selected. *)
Definition cfg_txt_out : FileProcessorConfig := {|
  extensions := {[ ".txt" ]};
  ignored_dirs := ∅;
  ignored_files := ∅;
  source_dir := parse "src";
  output_dir := parse "out";
  text_output := parse "out";
  mirror_dir_structure := false;
  max_workers := 4 |}.

(** A source file named [combined.txt]. *)
Definition fs_combined_src : node :=
  Dir true [("src", Dir true [("combined.txt", File (Some "OLD"))])].

(** The state of a run of [cfg_txt_out] on [fs_combined_src] when the
    combined text is generated: the file was copied and recorded, and the
    tree, which is empty, was written. *)
Definition st_combined_copied : State := {|
  fs := Dir true [("src", Dir true [("combined.txt", File (Some "OLD"))]);
                  ("out", Dir true [("combined.txt", File (Some "OLD"));
                                    ("combined.tree.txt", File (Some ""))])];
  processed_files := [parse "out/combined.txt"] |}.


(** The directories of the default configuration, with the files selected
    that end in [.txt]: the text artefacts go to the source directory. *)
Definition cfg_in_place : FileProcessorConfig := {|
  extensions := {[ ".txt" ]};
  ignored_dirs := ∅;
  ignored_files := ∅;
  source_dir := parse ".";
  output_dir := parse "output";
  text_output := parse ".";
  mirror_dir_structure := false;
  max_workers := 4 |}.

Definition fs_notes : node := Dir true [("notes.txt", File (Some "N"))].

(** What a first run of [cfg_in_place] on [fs_notes] returns and leaves. *)
Definition r_notes_first : ProcessingResults := {|
  tree_output := Str.join nl ["├── output"; "│   └── notes.txt"; "└── notes.txt"];
  combined_output := "File: output/notes.txt" +:+ nl +:+ "N" +:+ nl +:+ nl |}.

Definition fs_notes_first : node :=
  Dir true [("notes.txt", File (Some "N"));
            ("output", Dir true [("notes.txt", File (Some "N"))]);
            ("combined.tree.txt", File (Some (tree_output r_notes_first)));
            ("combined.txt", File (Some (combined_output r_notes_first)))].

(** What a second run returns, on [fs_notes_first]. *)
Definition r_notes_second : ProcessingResults := {|
  tree_output :=
    Str.join nl ["├── output"; "│   ├── combined.tree.txt"; "│   ├── combined.txt";
                 "│   └── notes.txt"; "├── combined.tree.txt"; "├── combined.txt";
                 "└── notes.txt"];
  combined_output :=
    "File: output/notes.txt" +:+ nl +:+ "N" +:+ nl +:+ nl
    +:+ "File: output/combined.tree.txt" +:+ nl
    +:+ tree_output r_notes_first +:+ nl +:+ nl
    +:+ "File: output/combined.txt" +:+ nl
    +:+ combined_output r_notes_first +:+ nl +:+ nl |}.
(** * Properties *)

(** ** Strings and paths *)

Section StringFacts.

Lemma chars_app (s1 s2 : string) :
  Str.chars (s1 +:+ s2) = Str.chars s1 ++ Str.chars s2.
Proof.
  induction s1 as [|c s1 IH]; simpl; [done|].
  unfold Str.chars in *. simpl. by rewrite IH.
Qed.

Lemma chars_inj (s1 s2 : string) : Str.chars s1 = Str.chars s2 → s1 = s2.
Proof.
  intros H. rewrite <- (string_of_list_ascii_of_string s1),
    <- (string_of_list_ascii_of_string s2).
  unfold Str.chars in H. by rewrite H.
Qed.

Lemma chars_length (s : string) : length (Str.chars s) = String.length s.
Proof. induction s; simpl; [done|]. unfold Str.chars in *. simpl. lia. Qed.

Lemma endswith_true (s suf : string) :
  Str.endswith s suf = true ↔ ∃ pre, s = pre +:+ suf.
Proof.
  unfold Str.endswith. rewrite bool_decide_eq_true. split.
  - intros [k Hk]. exists (string_of_list_ascii k). apply chars_inj.
    rewrite chars_app. unfold Str.chars at 2.
    by rewrite list_ascii_of_string_of_list_ascii.
  - intros [pre ->]. exists (Str.chars pre). apply chars_app.
Qed.

Lemma join_snoc (sp : string) (l : list string) (x : string) :
  l ≠ [] → Str.join sp (l ++ [x]) = Str.join sp l +:+ sp +:+ x.
Proof.
  induction l as [|a l IH]; [done|]. intros _.
  destruct l as [|b l]; [done|].
  change (Str.join sp ((a :: b :: l) ++ [x]))
    with (a +:+ sp +:+ Str.join sp ((b :: l) ++ [x])).
  rewrite IH by done.
  change (Str.join sp (a :: b :: l)) with (a +:+ sp +:+ Str.join sp (b :: l)).
  apply chars_inj. rewrite !chars_app. by rewrite <- !(assoc_L (++)).
Qed.

(** The string form of a path ends with its name, and what comes before the
    name is empty or ends with the separator. *)
Lemma str_name (p : Path) :
  parts p ≠ [] →
  ∃ pre, Str.chars (str p) = pre ++ Str.chars (name p)
         ∧ (pre = [] ∨ ∃ pre', pre = pre' ++ [sep]).
Proof.
  intros Hne. destruct p as [a ps]. simpl in *.
  destruct (exists_last Hne) as (l & x & ->).
  unfold str, name; simpl. rewrite last_last.
  assert (Hj : ∃ q, Str.chars (Str.join "/" (l ++ [x])) = q ++ Str.chars x
                    ∧ (q = [] ∨ ∃ q', q = q' ++ [sep])).
  { destruct l as [|b l].
    - exists []. split; [done|by left].
    - rewrite join_snoc by done. rewrite !chars_app.
      exists (Str.chars (Str.join "/" (b :: l)) ++ [sep]). split.
      + by rewrite <- (assoc_L (++)).
      + right. eauto. }
  destruct Hj as (q & Hq & Hsep).
  destruct a.
  - rewrite chars_app, Hq. exists (Str.chars "/" ++ q). split.
    + by rewrite (assoc_L (++)).
    + right. destruct Hsep as [->|[q' ->]].
      * exists []. by rewrite (right_id_L [] (++)).
      * exists (Str.chars "/" ++ q'). by rewrite (assoc_L (++)).
  - destruct (l ++ [x]) eqn:E; [by destruct l|]. rewrite <- E in *. eauto.
Qed.

(** A suffix without separator lies within the last component. *)
Lemma suffix_of_last_component (e pre nm : list ascii) :
  sep ∉ e → (pre = [] ∨ ∃ pre', pre = pre' ++ [sep]) →
  e `suffix_of` (pre ++ nm) ↔ e `suffix_of` nm.
Proof.
  intros He Hpre. split.
  - intros [k Hk]. apply app_eq_inv in Hk as [(k' & Hk1 & Hk2)|(k' & Hk1 & Hk2)].
    + destruct k' as [|c k' _] using rev_ind.
      * simpl in Hk2. subst e. by exists [].
      * destruct Hpre as [->|[pre' ->]].
        { symmetry in Hk1. apply app_eq_nil in Hk1 as [_ Hk1].
          by destruct k'. }
        rewrite (assoc_L (++)) in Hk1. apply app_inj_tail in Hk1 as [_ <-].
        exfalso. apply He. rewrite Hk2. set_solver.
    + exists k'. done.
  - intros [k ->]. exists (pre ++ k). by rewrite (assoc_L (++)).
Qed.

Lemma endswith_name (p : Path) (e : string) :
  parts p ≠ [] → Str.contains sep e = false →
  Str.endswith (str p) e = Str.endswith (name p) e.
Proof.
  intros Hne He. destruct (str_name p Hne) as (pre & Hstr & Hpre).
  unfold Str.contains in He. apply bool_decide_eq_false in He.
  unfold Str.endswith. rewrite Hstr. apply bool_decide_ext.
  by apply suffix_of_last_component.
Qed.

End StringFacts.

(** ** The selector *)

Section Selector.

Lemma should_process_file_true (cfg : FileProcessorConfig) (p : Path) :
  should_process_file cfg p = true ↔
  (∃ e, e ∈ extensions cfg ∧ Str.endswith (str p) e = true)
  ∧ name p ∉ ignored_files cfg.
Proof.
  unfold should_process_file.
  rewrite andb_true_iff, !bool_decide_eq_true. done.
Qed.

(** C1, as the code has it: with extensions that do not contain the path
    separator, a file path of any depth is selected iff its name ends with
    one of the extensions and is not an ignored file name; with no
    extension configured nothing is selected. *)
Theorem should_process_file_by_name (cfg : FileProcessorConfig)
    (Hsep : ∀ e, e ∈ extensions cfg → Str.contains sep e = false) :
  (∀ p, parts p ≠ [] →
     (should_process_file cfg p = true ↔
      (∃ e, e ∈ extensions cfg ∧ Str.endswith (name p) e = true)
      ∧ name p ∉ ignored_files cfg))
  ∧ (extensions cfg = ∅ → ∀ p, should_process_file cfg p = false).
Proof.
  split.
  - intros p Hp. rewrite should_process_file_true.
    split; intros [(e & He & Hend) Hign]; (split; [|done]); exists e; (split; [done|]).
    + by rewrite <- endswith_name by auto.
    + by rewrite endswith_name by auto.
  - intros Hempty p. apply not_true_is_false.
    rewrite should_process_file_true, Hempty.
    intros [(e & He & _) _]. by apply not_elem_of_empty in He.
Qed.

End Selector.



Lemma should_process_file_by_name_witness :
  should_process_file cfg_py (parse "proj/src/sub/x.py") = true ↔
  (∃ e, e ∈ extensions cfg_py
        ∧ Str.endswith (name (parse "proj/src/sub/x.py")) e = true)
  ∧ name (parse "proj/src/sub/x.py") ∉ ignored_files cfg_py.
Proof.
  apply (should_process_file_by_name cfg_py).
  - intros e He. simpl in He. apply elem_of_singleton in He as ->. reflexivity.
  - vm_compute. discriminate.
Defined.

(** The extension ["/Makefile"] selects [proj/Makefile] through the string
    form of the path, while the name [Makefile] does not end with it. *)
Lemma should_process_file_string_form :
  ¬ (∀ cfg p,
       should_process_file cfg p = true ↔
       (∃ e, e ∈ extensions cfg ∧ Str.endswith (name p) e = true)
       ∧ name p ∉ ignored_files cfg).
Proof.
  intros H.
  destruct (H cfg_makefile (parse "proj/Makefile")) as [H1 _].
  destruct H1 as [(e & He & Hend) _]; [by vm_compute|].
  simpl in He. apply elem_of_singleton in He as ->.
  vm_compute in Hend. discriminate.
Qed.

(** ** Paths built from directory entries *)

Section PathFacts.

Lemma split_go_no_sep (cur s : string) :
  Str.contains sep s = false → Str.split_go sep cur s = [String.rev_app cur s].
Proof.
  unfold Str.contains. rewrite bool_decide_eq_false.
  revert cur. induction s as [|c s IH]; intros cur Hs; simpl; [done|].
  unfold Str.chars in Hs, IH. simpl in Hs.
  apply not_elem_of_cons in Hs as [Hc Hs].
  destruct (decide (c = sep)) as [->|_]; [done|].
  by rewrite IH.
Qed.

Lemma parse_component (x : string) :
  valid_component x → parse x = {| anchored := false; parts := [x] |}.
Proof.
  intros (Hne & Hdot & Hsep). unfold parse, Str.split.
  rewrite split_go_no_sep by done. simpl. f_equal.
  - destruct x as [|c x]; [done|]. simpl.
    apply bool_decide_eq_false. intros ->.
    unfold Str.contains in Hsep. apply bool_decide_eq_false in Hsep.
    apply Hsep. unfold Str.chars. simpl. left.
  - unfold keep_component.
    by rewrite !bool_decide_eq_false_2.
Qed.

(** [p / x] for a directory entry name [x] is the entry [x] of [p]. *)
Lemma div_component (p : Path) (x : string) :
  valid_component x → p </> x = child p x.
Proof. intros Hx. unfold div. by rewrite parse_component. Qed.

Lemma name_child (p : Path) (x : string) : name (child p x) = x.
Proof. unfold name, child. simpl. apply last_last. Qed.

Lemma parent_child (p : Path) (x : string) : parent (child p x) = p.
Proof.
  unfold parent, child. destruct p as [a ps]. simpl.
  by rewrite removelast_last.
Qed.

End PathFacts.

(** ** The file system *)

Section FileSystemFacts.

Lemma lookup_set_entry (k nm : string) (c : node) (es : list (string * node)) :
  lookup_entry k (set_entry nm c es)
  = if decide (k = nm) then Some c else lookup_entry k es.
Proof.
  induction es as [|[k' c'] es IH]; simpl.
  - destruct (decide (nm = k)), (decide (k = nm)); congruence.
  - destruct (decide (k' = nm)) as [->|Hne]; simpl.
    + destruct (decide (nm = k)), (decide (k = nm)); congruence.
    + rewrite IH. destruct (decide (k' = k)), (decide (k = nm)); congruence.
Qed.

Lemma set_entry_fresh (nm : string) (c : node) (es : list (string * node)) :
  lookup_entry nm es = None → set_entry nm c es = es ++ [(nm, c)].
Proof.
  induction es as [|[k' c'] es IH]; simpl; [done|].
  destruct (decide (k' = nm)); [done|]. intros H. by rewrite IH.
Qed.

Lemma set_entry_same (nm : string) (c : node) (es : list (string * node)) :
  lookup_entry nm es = Some c → set_entry nm c es = es.
Proof.
  induction es as [|[k' c'] es IH]; simpl; [done|].
  destruct (decide (k' = nm)); [congruence|]. intros H. by rewrite IH.
Qed.

Lemma lookup_entry_Some (nm : string) (c : node) (es : list (string * node)) :
  lookup_entry nm es = Some c → (nm, c) ∈ es.
Proof.
  induction es as [|[k' c'] es IH]; simpl; [done|].
  destruct (decide (k' = nm)) as [->|_].
  - intros [= ->]. left.
  - intros H. right. auto.
Qed.

Lemma lookup_entry_None (nm : string) (es : list (string * node)) :
  lookup_entry nm es = None ↔ nm ∉ es.*1.
Proof.
  induction es as [|[k' c'] es IH]; simpl.
  - split; [intros _; apply not_elem_of_nil|done].
  - rewrite not_elem_of_cons. destruct (decide (k' = nm)) as [->|Hne].
    + split; [done|]. by intros [? _].
    + rewrite IH. split; [by intros ?|]. by intros [_ ?].
Qed.

Lemma resolve_app (ps qs : list string) (n : node) :
  resolve (ps ++ qs) n = resolve ps n ≫= resolve qs.
Proof.
  revert n. induction ps as [|nm ps IH]; intros n; simpl; [done|].
  destruct n as [c|w es]; [done|].
  destruct (lookup_entry nm es); [apply IH|done].
Qed.

Lemma resolve_in_file (ps : list string) (c : option string) (x : node) :
  resolve ps (File c) = Some x → ps = [] ∧ x = File c.
Proof. destruct ps; simpl; [by intros [= <-]|done]. Qed.

(** Writing succeeds into a directory that can be listed, on a name that
    is free or names a file; the directory then holds the file. *)
Lemma write_at_in_dir (ps : list string) (x content : string) (n : node)
    (es : list (string * node)) :
  resolve ps n = Some (Dir true es) →
  (∀ w' es', lookup_entry x es ≠ Some (Dir w' es')) →
  ∃ n', write_at (ps ++ [x]) content n = Ok n'
        ∧ resolve ps n' = Some (Dir true (set_entry x (File (Some content)) es)).
Proof.
  revert n. induction ps as [|nm ps IH]; intros n Hres Hx; simpl in *.
  - injection Hres as ->. destruct (lookup_entry x es) as [[c|w' es']|] eqn:E.
    + simpl. eauto.
    + by destruct (Hx w' es').
    + eauto.
  - destruct n as [c|w0 es0]; [done|].
    destruct (lookup_entry nm es0) as [ch|] eqn:E; [|done].
    destruct (IH ch Hres Hx) as (ch' & Hw & Hres').
    rewrite Hw. simpl. eexists. split; [done|]. simpl.
    rewrite lookup_set_entry. by rewrite decide_True.
Qed.

(** A successful write leaves the file there with the content written, and
    every other file as it was. *)
Lemma write_at_resolve_file (qs ps : list string) (content : string)
    (n n' : node) (x : option string) :
  write_at qs content n = Ok n' →
  resolve ps n = Some (File x) →
  resolve ps n' = Some (File (if decide (ps = qs) then Some content else x)).
Proof.
  revert ps n n'. induction qs as [|nm qs IH]; intros ps n n' Hw Hres; simpl in Hw.
  - destruct n as [c|w es]; [|done]. injection Hw as <-.
    apply resolve_in_file in Hres as [-> _]. done.
  - destruct n as [c|w es]; [done|].
    destruct ps as [|k ps]; [done|]. simpl in Hres.
    destruct (lookup_entry nm es) as [ch|] eqn:E.
    + destruct (write_at qs content ch) as [ch'|] eqn:Ew; [|done].
      simpl in Hw. injection Hw as <-. simpl. rewrite lookup_set_entry.
      destruct (decide (k = nm)) as [->|Hne].
      * rewrite E in Hres. rewrite (IH ps ch ch' Ew Hres).
        do 2 f_equal. destruct (decide (ps = qs)) as [->|Hn].
        -- by rewrite decide_True.
        -- rewrite decide_False; [done|]. by intros [= ?].
      * rewrite decide_False by (by intros [= ? ?]). done.
    + destruct qs; [|done]. destruct w; [|done]. injection Hw as <-.
      simpl. rewrite lookup_set_entry.
      destruct (decide (k = nm)) as [->|Hne]; [by rewrite E in Hres|].
      rewrite decide_False by (by intros [= ? ?]). done.
Qed.

Lemma write_at_resolve_self (qs : list string) (content : string) (n n' : node) :
  write_at qs content n = Ok n' →
  resolve qs n' = Some (File (Some content)).
Proof.
  revert n n'. induction qs as [|nm qs IH]; intros n n' Hw; simpl in Hw.
  - destruct n; [|done]. by injection Hw as <-.
  - destruct n as [c|w es]; [done|].
    destruct (lookup_entry nm es) as [ch|] eqn:E.
    + destruct (write_at qs content ch) as [ch'|] eqn:Ew; [|done].
      simpl in Hw. injection Hw as <-. simpl. rewrite lookup_set_entry.
      rewrite decide_True by done. eauto.
    + destruct qs; [|done]. destruct w; [|done]. injection Hw as <-.
      simpl. rewrite lookup_set_entry. by rewrite decide_True.
Qed.

(** Creating directories leaves every file as it was. *)
Lemma mkdir_at_resolve_file (b : bool) (qs ps : list string) (n n' : node)
    (x : option string) :
  mkdir_at b qs n = Ok n' →
  resolve ps n = Some (File x) →
  resolve ps n' = Some (File x).
Proof.
  revert ps n n'. induction qs as [|nm qs IH]; intros ps n n' Hm Hres.
  - destruct n as [c|w es]; simpl in Hm; [done|].
    destruct b; [|done]. by injection Hm as <-.
  - destruct n as [c|w es]; simpl in Hm; [done|].
    destruct ps as [|k ps]; [done|]. simpl in Hres.
    destruct (lookup_entry nm es) as [ch|] eqn:E.
    + destruct (mkdir_at b qs ch) as [ch'|] eqn:Em; [|done].
      simpl in Hm. injection Hm as <-. simpl. rewrite lookup_set_entry.
      destruct (decide (k = nm)) as [->|Hne]; [|done].
      rewrite E in Hres. eauto.
    + destruct w; [|done]. injection Hm as <-. simpl.
      rewrite lookup_set_entry.
      destruct (decide (k = nm)) as [->|Hne]; [by rewrite E in Hres|done].
Qed.

(** With [exist_ok], creating a directory that is there changes nothing. *)
Lemma mkdir_at_existing (ps : list string) (n : node) (w : bool)
    (es : list (string * node)) :
  resolve ps n = Some (Dir w es) → mkdir_at true ps n = Ok n.
Proof.
  revert n. induction ps as [|nm ps IH]; intros n Hres; simpl in Hres.
  - injection Hres as ->. done.
  - destruct n as [c|w0 es0]; [done|]. simpl.
    destruct (lookup_entry nm es0) as [ch|] eqn:E; [|done].
    rewrite (IH ch Hres). simpl. by rewrite set_entry_same.
Qed.

End FileSystemFacts.

(** ** The unique-name generator *)

Section UniqueName.

Variables (fs : node) (base_path : Path).

Lemma probe_first (nm ext : string) (fuel c n : nat) :
  let cand k := base_path </> (nm +:+ "_" +:+ Str.of_nat k +:+ ext) in
  c ≤ n → n < c + fuel →
  exists_ fs (cand n) = false →
  (∀ m, c ≤ m → m < n → exists_ fs (cand m) = true) →
  probe fs base_path nm ext fuel c = Some (cand n).
Proof.
  intros cand. revert c. induction fuel as [|fuel IH]; intros c Hc Hn Hfree Hbusy.
  - lia.
  - simpl. destruct (decide (c = n)) as [->|Hne].
    + fold (cand n). by rewrite Hfree.
    + fold (cand c). rewrite Hbusy by lia. simpl.
      apply IH; [lia|lia|done|]. intros m ? ?. apply Hbusy; lia.
Qed.

Lemma probe_Some (nm ext : string) (fuel c : nat) (p : Path) :
  let cand k := base_path </> (nm +:+ "_" +:+ Str.of_nat k +:+ ext) in
  probe fs base_path nm ext fuel c = Some p →
  ∃ n, c ≤ n ∧ n < c + fuel ∧ p = cand n ∧ exists_ fs p = false
       ∧ ∀ m, c ≤ m → m < n → exists_ fs (cand m) = true.
Proof.
  intros cand. revert c. induction fuel as [|fuel IH]; intros c; simpl; [done|].
  fold (cand c). destruct (exists_ fs (cand c)) eqn:E; simpl.
  - intros H. apply IH in H as (n & ? & ? & ? & ? & Hbusy).
    exists n. repeat split; [lia|lia|done|done|].
    intros m ? ?. destruct (decide (m = c)) as [->|]; [done|]. apply Hbusy; lia.
  - intros [= <-]. exists c. repeat split; [lia|lia|done|]. intros; lia.
Qed.

(** Below a free index there is a first free index. *)
Lemma first_free (P : nat → bool) (c n : nat) :
  c ≤ n → P n = false →
  ∃ k, c ≤ k ∧ k ≤ n ∧ P k = false ∧ ∀ m, c ≤ m → m < k → P m = true.
Proof.
  intros Hc. replace n with (c + (n - c)) by lia.
  generalize (n - c). clear n Hc. intros d. revert c.
  induction d as [|d IH]; intros c Hn.
  - exists c. rewrite Nat.add_0_r in Hn. repeat split; [lia|lia|done|]. intros; lia.
  - destruct (P c) eqn:E.
    + destruct (IH (S c)) as (k & ? & ? & ? & Hbusy).
      { by replace (S c + d) with (c + S d) by lia. }
      exists k. repeat split; [lia|lia|done|].
      intros m ? ?. destruct (decide (m = c)) as [->|]; [done|]. apply Hbusy; lia.
    + exists c. repeat split; [lia|lia|done|]. intros; lia.
Qed.

End UniqueName.

(** ** Names with a numeric suffix *)

Section FlatNames.

Lemma substring_all (s : string) : substring 0 (String.length s) s = s.
Proof. induction s as [|c s IH]; simpl; [done|]. by rewrite IH. Qed.

Lemma substring_split (i : nat) (s : string) :
  i ≤ String.length s →
  substring 0 i s +:+ substring i (String.length s - i) s = s.
Proof.
  revert i. induction s as [|c s IH]; intros i Hi; simpl in *.
  - by destruct i.
  - destruct i as [|i].
    + change (String c (substring 0 (String.length s) s) = String c s).
      by rewrite substring_all.
    + change (String c (substring 0 i s +:+ substring i (String.length s - i) s)
              = String c s).
      rewrite IH by lia. done.
Qed.

Lemma stem_suffix (nm : string) : stem_of_name nm +:+ suffix_of_name nm = nm.
Proof.
  unfold stem_of_name, suffix_of_name, cut.
  destruct (Str.rfind "."%char nm) as [i|]; simpl.
  - destruct (0 <? i) eqn:E1; simpl.
    + destruct (i <? String.length nm - 1) eqn:E2.
      * apply Nat.ltb_lt in E2. apply substring_split. lia.
      * apply chars_inj. rewrite chars_app. apply (right_id_L [] (++)).
    + apply chars_inj. rewrite chars_app. apply (right_id_L [] (++)).
  - apply chars_inj. rewrite chars_app. apply (right_id_L [] (++)).
Qed.

Lemma elem_of_chars_substring (c : ascii) (i l : nat) (s : string) :
  c ∈ Str.chars (substring i l s) → c ∈ Str.chars s.
Proof.
  revert i l. induction s as [|d s IH]; intros i l; unfold Str.chars in *; simpl.
  - by destruct i, l.
  - destruct i as [|i].
    + destruct l as [|l]; simpl; [by intros ?%elem_of_nil|].
      rewrite !elem_of_cons. intros [->|H]; [by left|right; eauto].
    + intros H. right. eauto.
Qed.

Lemma sep_not_in_stem (nm : string) :
  Str.contains sep nm = false → sep ∉ Str.chars (stem_of_name nm).
Proof.
  unfold Str.contains. rewrite bool_decide_eq_false. intros Hnm.
  unfold stem_of_name. destruct (cut nm); [|done].
  intros H. by apply elem_of_chars_substring in H.
Qed.

Lemma sep_not_in_suffix (nm : string) :
  Str.contains sep nm = false → sep ∉ Str.chars (suffix_of_name nm).
Proof.
  unfold Str.contains. rewrite bool_decide_eq_false. intros Hnm.
  unfold suffix_of_name. destruct (cut nm).
  - intros H. by apply elem_of_chars_substring in H.
  - apply not_elem_of_nil.
Qed.

(** Decimal digits are not separators. *)
Lemma sep_not_in_pretty_N_go (x : N) (s : string) :
  sep ∉ Str.chars s → sep ∉ Str.chars (pretty_N_go x s).
Proof.
  revert s. induction (N.lt_wf_0 x) as [x _ IH]; intros s Hs.
  assert (x = 0 ∨ 0 < x)%N as [->|Hx] by lia.
  - by rewrite pretty_N_go_0.
  - rewrite pretty_N_go_step by done. apply IH.
    { by apply N.div_lt. }
    unfold Str.chars in *. simpl. apply not_elem_of_cons. split; [|done].
    unfold pretty_N_char, sep. by repeat case_match.
Qed.

Lemma sep_not_in_of_nat (n : nat) : sep ∉ Str.chars (Str.of_nat n).
Proof.
  unfold Str.of_nat, pretty, pretty_nat, pretty, pretty_N.
  case_decide.
  - unfold Str.chars. simpl. rewrite !not_elem_of_cons. split; [done|].
    apply not_elem_of_nil.
  - apply sep_not_in_pretty_N_go. apply not_elem_of_nil.
Qed.

Lemma flat_name_S_valid (nm : string) (k : nat) :
  Str.contains sep nm = false → valid_component (flat_name nm (S k)).
Proof.
  intros Hsep. unfold flat_name.
  set (x := stem_of_name nm +:+ "_" +:+ Str.of_nat (S k) +:+ suffix_of_name nm).
  assert (Hx : Str.chars x = Str.chars (stem_of_name nm) ++ "_"%char ::
                 Str.chars (Str.of_nat (S k)) ++ Str.chars (suffix_of_name nm)).
  { unfold x. by rewrite !chars_app. }
  assert (Hin : "_"%char ∈ Str.chars x).
  { rewrite Hx. apply elem_of_app. right. left. }
  repeat split.
  - intros E. rewrite E in Hin. by apply elem_of_nil in Hin.
  - intros E. rewrite E in Hin. unfold Str.chars in Hin. simpl in Hin.
    apply elem_of_cons in Hin as [?|Hin]; [discriminate|].
    by apply elem_of_nil in Hin.
  - unfold Str.contains. apply bool_decide_eq_false. rewrite Hx.
    rewrite elem_of_app, elem_of_cons, elem_of_app.
    pose proof (sep_not_in_stem nm Hsep). pose proof (sep_not_in_suffix nm Hsep).
    pose proof (sep_not_in_of_nat (S k)).
    intros [?|[?|[?|?]]]; try done.
Qed.

Lemma flat_name_valid (nm : string) (k : nat) :
  valid_component nm → valid_component (flat_name nm k).
Proof.
  intros Hnm. destruct k as [|k]; [done|].
  apply flat_name_S_valid, Hnm.
Qed.

Lemma flat_name_length (nm : string) (k : nat) :
  String.length (flat_name nm (S k))
  = String.length nm + 1 + String.length (Str.of_nat (S k)).
Proof.
  unfold flat_name. rewrite <- (stem_suffix nm) at 3.
  rewrite <- !chars_length, !chars_app, !length_app, !chars_length. simpl. lia.
Qed.

Lemma flat_name_inj (nm : string) (j k : nat) :
  flat_name nm j = flat_name nm k → j = k.
Proof.
  destruct j as [|j], k as [|k]; [done|..].
  - intros H. apply (f_equal String.length) in H.
    rewrite flat_name_length in H. simpl in H. lia.
  - intros H. apply (f_equal String.length) in H.
    rewrite flat_name_length in H. simpl in H. lia.
  - unfold flat_name. intros H. apply (f_equal Str.chars) in H.
    rewrite !chars_app in H. apply app_inv_head in H. apply app_inv_head in H.
    apply app_inv_tail in H. apply chars_inj in H.
    by apply (inj pretty) in H.
Qed.

(** The candidates are entries of the base directory, named after the name
    of [base_path / filename]. *)
Lemma candidate_flat_name (base_path : Path) (filename : string) (k : nat) :
  Str.contains sep (name (base_path </> filename)) = false →
  candidate base_path filename (S k)
  = child base_path (flat_name (name (base_path </> filename)) (S k)).
Proof.
  intros Hsep. unfold candidate, stem, suffix.
  apply (div_component base_path (flat_name _ (S k))).
  by apply flat_name_S_valid.
Qed.

Lemma candidate_child (base_path : Path) (nm : string) (k : nat) :
  valid_component nm →
  candidate base_path nm (S k) = child base_path (flat_name nm (S k)).
Proof.
  intros Hnm. rewrite candidate_flat_name.
  - by rewrite (div_component base_path nm Hnm), name_child.
  - rewrite (div_component base_path nm Hnm), name_child. apply Hnm.
Qed.

Lemma exists_child (fs : node) (base_path : Path) (x : string) (w : bool)
    (es : list (string * node)) :
  resolve (parts base_path) fs = Some (Dir w es) →
  exists_ fs (child base_path x) = bool_decide (x ∈ es.*1).
Proof.
  intros Hres. unfold exists_, child. simpl. rewrite resolve_app, Hres. simpl.
  apply bool_decide_ext.
  destruct (lookup_entry x es) as [c|] eqn:E.
  - split; [intros _|by eauto].
    apply lookup_entry_Some in E. apply list_elem_of_fmap. by exists (x, c).
  - apply lookup_entry_None in E. split; [by intros [? ?]|done].
Qed.

End FlatNames.

(** ** The unique-name generator: results *)

Section UniqueNameResults.

Lemma generate_unique_filename_free (fuel : nat) (fs : node) (base_path : Path)
    (filename : string) :
  exists_ fs (base_path </> filename) = false →
  generate_unique_filename fuel fs base_path filename = Some (base_path </> filename).
Proof. intros H. unfold generate_unique_filename. by rewrite H. Qed.

Lemma generate_unique_filename_probe (fuel : nat) (fs : node) (base_path : Path)
    (filename : string) (n : nat) :
  exists_ fs (base_path </> filename) = true →
  1 ≤ n → n ≤ fuel →
  exists_ fs (candidate base_path filename n) = false →
  (∀ m, 1 ≤ m → m < n → exists_ fs (candidate base_path filename m) = true) →
  generate_unique_filename fuel fs base_path filename
  = Some (candidate base_path filename n).
Proof.
  intros H Hn Hfuel Hfree Hbusy. unfold generate_unique_filename. rewrite H. simpl.
  apply (probe_first fs base_path); [done|lia|done|done].
Qed.

Lemma generate_unique_filename_Some (fuel : nat) (fs : node) (base_path : Path)
    (filename : string) (p : Path) :
  generate_unique_filename fuel fs base_path filename = Some p →
  exists_ fs p = false
  ∧ (p = base_path </> filename
     ∨ exists_ fs (base_path </> filename) = true
       ∧ ∃ n, 1 ≤ n ∧ n ≤ fuel ∧ p = candidate base_path filename n
              ∧ ∀ m, 1 ≤ m → m < n →
                     exists_ fs (candidate base_path filename m) = true).
Proof.
  unfold generate_unique_filename.
  destruct (exists_ fs (base_path </> filename)) eqn:E; simpl.
  - intros H. apply probe_Some in H as (n & ? & ? & -> & ? & Hbusy).
    split; [done|]. right. split; [done|]. exists n. repeat split; [lia|lia|done].
  - intros [= <-]. split; [done|]. by left.
Qed.

Lemma generate_unique_filename_first_free (fs : node) (base_path : Path)
    (filename : string) (n : nat) :
  1 ≤ n → exists_ fs (candidate base_path filename n) = false →
  ∃ fuel0 p,
    (∀ fuel, fuel0 ≤ fuel →
       generate_unique_filename fuel fs base_path filename = Some p)
    ∧ exists_ fs p = false.
Proof.
  intros Hn Hfree.
  destruct (exists_ fs (base_path </> filename)) eqn:E.
  - destruct (first_free (λ n, exists_ fs (candidate base_path filename n))
                1 n Hn Hfree) as (k & Hk1 & Hk2 & Hkfree & Hbusy).
    exists k, (candidate base_path filename k). split; [|done].
    intros fuel Hfuel. by apply generate_unique_filename_probe.
  - exists 0, (base_path </> filename). split; [|done].
    intros fuel _. by apply generate_unique_filename_free.
Qed.

(** C10: when all candidates from some index on are free, the probe loop
    ends: from some fuel on the function returns one and the same path, and
    that path does not exist. *)
Theorem generate_unique_filename_terminates (fs : node) (base_path : Path)
    (filename : string)
    (Hfin : ∃ N, ∀ n, N ≤ n → exists_ fs (candidate base_path filename n) = false) :
  ∃ fuel0 p,
    (∀ fuel, fuel0 ≤ fuel →
       generate_unique_filename fuel fs base_path filename = Some p)
    ∧ exists_ fs p = false.
Proof.
  destruct Hfin as [N HN].
  apply (generate_unique_filename_first_free fs base_path filename (S N)); [lia|].
  apply HN. lia.
Qed.

Lemma valid_x_py : valid_component "x.py".
Proof. repeat split; done. Qed.

Lemma generate_unique_filename_terminates_witness :
  ∃ fuel0 p,
    (∀ fuel, fuel0 ≤ fuel →
       generate_unique_filename fuel fs_two_x (parse "out") "x.py" = Some p)
    ∧ exists_ fs_two_x p = false.
Proof.
  apply generate_unique_filename_terminates.
  exists 2. intros n Hn. destruct n as [|n]; [lia|].
  rewrite candidate_child by apply valid_x_py.
  rewrite (exists_child fs_two_x (parse "out") _ true
             [("x.py", File (Some "first")); ("x_1.py", File (Some "second"))])
    by reflexivity.
  apply bool_decide_eq_false.
  change ([("x.py", File (Some "first")); ("x_1.py", File (Some "second"))].*1)
    with [flat_name "x.py" 0; flat_name "x.py" 1].
  rewrite !elem_of_cons. intros [H|[H|H]].
  - apply flat_name_inj in H. lia.
  - apply flat_name_inj in H. lia.
  - by apply elem_of_nil in H.
Defined.

(** One write in flat mode into a directory that holds the first [k] names. *)
Lemma write_flat_step (fuel : nat) (cfg : FileProcessorConfig) (fs0 : node)
    (processed : list Path) (d : FileData) (nm : string)
    (es : list (string * node)) (k : nat) :
  mirror_dir_structure cfg = false →
  valid_component nm →
  name (parse (fd_path d)) = nm →
  resolve (parts (output_dir cfg)) fs0 = Some (Dir true es) →
  es.*1 = map (flat_name nm) (seq 0 k) →
  k ≤ fuel →
  ∃ fs',
    write_output_file fuel cfg {| fs := fs0; processed_files := processed |} (Some d)
    = Some {| fs := fs';
              processed_files := processed ++ [child (output_dir cfg) (flat_name nm k)] |}
    ∧ resolve (parts (output_dir cfg)) fs'
      = Some (Dir true (es ++ [(flat_name nm k, File (Some (fd_content d)))])).
Proof.
  intros Hflat Hnm Hd Hres Hes Hfuel.
  assert (Hex : ∀ j, exists_ fs0 (child (output_dir cfg) (flat_name nm j))
                     = bool_decide (j < k)).
  { intros j. rewrite (exists_child _ _ _ _ _ Hres), Hes.
    apply bool_decide_ext. rewrite list_elem_of_fmap. split.
    - intros (i & Hi & Hin). apply flat_name_inj in Hi as ->.
      apply elem_of_seq in Hin. lia.
    - intros Hj. exists j. split; [done|]. apply elem_of_seq. lia. }
  assert (Hgen : generate_unique_filename fuel fs0 (output_dir cfg) nm
                 = Some (child (output_dir cfg) (flat_name nm k))).
  { assert (H0 : exists_ fs0 (child (output_dir cfg) nm) = bool_decide (0 < k))
      by apply (Hex 0).
    destruct k as [|k].
    - rewrite generate_unique_filename_free; rewrite div_component by done.
      + done.
      + rewrite H0. apply bool_decide_eq_false. lia.
    - rewrite <- candidate_child by done.
      apply generate_unique_filename_probe; [|lia|lia|..].
      + rewrite div_component by done. rewrite H0.
        apply bool_decide_eq_true. lia.
      + rewrite candidate_child by done. rewrite Hex.
        apply bool_decide_eq_false. lia.
      + intros [|m] ? ?; [lia|]. rewrite candidate_child by done. rewrite Hex.
        apply bool_decide_eq_true. lia. }
  unfold write_output_file, output_path_of. rewrite Hflat, Hd. simpl.
  rewrite (div_component _ nm Hnm), name_child, Hgen. simpl.
  rewrite parent_child. unfold mkdir. rewrite (mkdir_at_existing _ _ _ _ Hres).
  destruct (write_at_in_dir (parts (output_dir cfg)) (flat_name nm k)
              (fd_content d) fs0 es Hres) as (fs' & Hw & Hres').
  { intros w' es' E. apply lookup_entry_Some in E.
    assert (Hin : flat_name nm k ∈ es.*1).
    { apply list_elem_of_fmap. by eexists (_, _). }
    rewrite Hes in Hin. apply list_elem_of_fmap in Hin as (i & Hi & Hin).
    apply flat_name_inj in Hi as <-. apply elem_of_seq in Hin. lia. }
  unfold write_text, child at 1. simpl. rewrite Hw.
  exists fs'. split; [done|]. rewrite Hres'. do 2 f_equal.
  apply set_entry_fresh, lookup_entry_None. rewrite Hes.
  intros Hin. apply list_elem_of_fmap in Hin as (i & Hi & Hin).
  apply flat_name_inj in Hi as <-. apply elem_of_seq in Hin. lia.
Qed.

Lemma write_all_flat (fuel : nat) (cfg : FileProcessorConfig) (nm : string)
    (ds : list FileData) :
  mirror_dir_structure cfg = false →
  valid_component nm →
  Forall (λ d, name (parse (fd_path d)) = nm) ds →
  ∀ (fs0 : node) (processed : list Path) (es : list (string * node)) (k : nat),
    resolve (parts (output_dir cfg)) fs0 = Some (Dir true es) →
    es.*1 = map (flat_name nm) (seq 0 k) →
    k + length ds ≤ S fuel →
    ∃ st,
      write_all fuel cfg {| fs := fs0; processed_files := processed |}
        (map (λ d, Ok (Some d)) ds) = Some (Ok st)
      ∧ processed_files st
        = processed
          ++ map (λ j, child (output_dir cfg) (flat_name nm j)) (seq k (length ds))
      ∧ resolve (parts (output_dir cfg)) (fs st)
        = Some (Dir true
                  (es ++ zip_with (λ j d, (flat_name nm j, File (Some (fd_content d))))
                           (seq k (length ds)) ds)).
Proof.
  intros Hflat Hnm Hds. induction Hds as [|d ds Hd Hds IH];
    intros fs0 processed es k Hres Hes Hfuel.
  - eexists. split; [done|]. simpl. by rewrite !(right_id_L [] (++)).
  - destruct (write_flat_step fuel cfg fs0 processed d nm es k)
      as (fs' & Hw & Hres'); [done..|simpl in Hfuel; lia|].
    cbn [map write_all length seq zip_with]. simpl in Hfuel.
    rewrite Hw. cbn [mbind option_bind].
    destruct (IH fs' (processed ++ [child (output_dir cfg) (flat_name nm k)])
                (es ++ [(flat_name nm k, File (Some (fd_content d)))]) (S k))
      as (st & Hall & Hproc & Hdir); [done| |lia|].
    { by rewrite fmap_app, Hes, seq_S, map_app. }
    exists st. split; [done|]. split.
    + rewrite Hproc. by rewrite <- (assoc_L (++)).
    + rewrite Hdir. by rewrite <- (assoc_L (++)).
Qed.

End UniqueNameResults.

(** C3: the name returned is [dir/filename] when that is free, and else
    the first free candidate [dir/{stem}_{n}{ext}], [n >= 1]; whatever is
    returned is one of these and does not exist.  Hence [N]
    writes of files named [nm] in flat mode into an empty output directory
    leave exactly the files [nm], [nm] with [_1], ..., [nm] with [_(N-1)], in
    the order of the writes. *)
Theorem generate_unique_filename_spec :
  (∀ fuel fs base_path filename,
     exists_ fs (base_path </> filename) = false →
     generate_unique_filename fuel fs base_path filename
     = Some (base_path </> filename))
  ∧ (∀ fuel fs base_path filename p,
       generate_unique_filename fuel fs base_path filename = Some p →
       exists_ fs p = false
       ∧ (p = base_path </> filename
          ∨ exists_ fs (base_path </> filename) = true
            ∧ ∃ n, 1 ≤ n ∧ n ≤ fuel ∧ p = candidate base_path filename n
                   ∧ ∀ m, 1 ≤ m → m < n →
                          exists_ fs (candidate base_path filename m) = true))
  ∧ (∀ fuel fs base_path filename n,
       exists_ fs (base_path </> filename) = true →
       1 ≤ n → n ≤ fuel →
       exists_ fs (candidate base_path filename n) = false →
       (∀ m, 1 ≤ m → m < n → exists_ fs (candidate base_path filename m) = true) →
       generate_unique_filename fuel fs base_path filename
       = Some (candidate base_path filename n))
  ∧ (∀ fuel cfg fs0 nm ds,
       mirror_dir_structure cfg = false →
       valid_component nm →
       resolve (parts (output_dir cfg)) fs0 = Some (Dir true []) →
       Forall (λ d, name (parse (fd_path d)) = nm) ds →
       length ds ≤ S fuel →
       ∃ st,
         write_all fuel cfg {| fs := fs0; processed_files := [] |}
           (map (λ d, Ok (Some d)) ds) = Some (Ok st)
         ∧ processed_files st
           = map (λ k, child (output_dir cfg) (flat_name nm k)) (seq 0 (length ds))
         ∧ resolve (parts (output_dir cfg)) (fs st)
           = Some (Dir true
                     (zip_with (λ k d, (flat_name nm k, File (Some (fd_content d))))
                        (seq 0 (length ds)) ds))
         ∧ NoDup (map (flat_name nm) (seq 0 (length ds)))).
Proof.
  split; [|split; [|split]].
  - intros. by apply generate_unique_filename_free.
  - intros. by apply generate_unique_filename_Some.
  - intros. by apply generate_unique_filename_probe.
  - intros fuel cfg fs0 nm ds Hflat Hnm Hres Hds Hfuel.
    destruct (write_all_flat fuel cfg nm ds Hflat Hnm Hds fs0 [] [] 0)
      as (st & Hall & Hproc & Hdir); [done|done|lia|].
    exists st. repeat split; [done|done|done|].
    apply NoDup_fmap_2; [|apply NoDup_seq].
    intros j k. apply flat_name_inj.
Qed.

Lemma generate_unique_filename_spec_witness :
  (mirror_dir_structure cfg_flat = false
   ∧ resolve (parts (output_dir cfg_flat)) fs_empty_out = Some (Dir true [])
   ∧ length three_x ≤ 3)
  ∧ ∃ st,
      write_all 2 cfg_flat {| fs := fs_empty_out; processed_files := [] |}
        (map (λ d, Ok (Some d)) three_x) = Some (Ok st)
      ∧ processed_files st
        = map (λ k, child (output_dir cfg_flat) (flat_name "x.py" k))
            (seq 0 (length three_x))
      ∧ resolve (parts (output_dir cfg_flat)) (fs st)
        = Some (Dir true
                  (zip_with (λ k d, (flat_name "x.py" k, File (Some (fd_content d))))
                     (seq 0 (length three_x)) three_x))
      ∧ NoDup (map (flat_name "x.py") (seq 0 (length three_x))).
Proof.
  split; [repeat split; simpl; lia|].
  apply (proj2 (proj2 (proj2 generate_unique_filename_spec)) 2 cfg_flat fs_empty_out
           "x.py" three_x).
  - reflexivity.
  - apply valid_x_py.
  - reflexivity.
  - repeat constructor.
  - simpl. lia.
Defined.

(** ** Enough fuel *)

Section Termination.

Lemma sep_not_in_rev_app (s1 s2 : string) :
  sep ∉ Str.chars s1 → sep ∉ Str.chars s2 → sep ∉ Str.chars (String.rev_app s1 s2).
Proof.
  revert s2. induction s1 as [|c s1 IH]; intros s2 H1 H2; simpl; [done|].
  unfold Str.chars in *. simpl in H1. apply not_elem_of_cons in H1 as [? ?].
  apply IH; [done|]. simpl. by apply not_elem_of_cons.
Qed.

Lemma split_go_components (cur s : string) :
  sep ∉ Str.chars cur →
  Forall (λ x, Str.contains sep x = false) (Str.split_go sep cur s).
Proof.
  assert (Hnil : sep ∉ Str.chars "") by apply not_elem_of_nil.
  revert cur. induction s as [|c s IH]; intros cur Hcur; simpl.
  - apply Forall_singleton. apply bool_decide_eq_false.
    by apply sep_not_in_rev_app.
  - destruct (decide (c = sep)) as [->|Hc].
    + constructor; [|by apply IH]. apply bool_decide_eq_false.
      by apply sep_not_in_rev_app.
    + apply IH. unfold Str.chars in *. simpl. by apply not_elem_of_cons.
Qed.

Lemma parse_wf (s : string) : wf_path (parse s).
Proof.
  unfold wf_path, parse. simpl.
  pose proof (split_go_components "" s (not_elem_of_nil _)) as H.
  fold (Str.split sep s) in H.
  induction H as [|x l Hx _ IH]; simpl; [constructor|].
  destruct (keep_component x) eqn:E; [|done].
  constructor; [|done]. unfold keep_component in E.
  apply andb_true_iff in E as [E1 E2].
  apply negb_true_iff, bool_decide_eq_false in E1, E2. done.
Qed.

Lemma joinpath_wf (p q : Path) : wf_path p → wf_path q → wf_path (joinpath p q).
Proof.
  unfold wf_path, joinpath. intros Hp Hq.
  destruct (anchored q); [done|]. simpl. by apply Forall_app.
Qed.

Lemma name_no_sep (p : Path) : wf_path p → Str.contains sep (name p) = false.
Proof.
  unfold wf_path, name. intros Hp.
  destruct (parts p) as [|x l] using rev_ind; [done|].
  rewrite last_last. apply Forall_app in Hp as [_ Hx].
  by apply Forall_singleton in Hx as (_ & _ & ?).
Qed.

(** A directory has fewer entries than there are candidates. *)
Lemma some_candidate_free (fs0 : node) (base_path : Path) (filename : string) :
  wf_path base_path →
  ∃ n, 1 ≤ n ∧ exists_ fs0 (candidate base_path filename n) = false.
Proof.
  intros Hbase.
  assert (Hsep : Str.contains sep (name (base_path </> filename)) = false).
  { apply name_no_sep, joinpath_wf; [done|apply parse_wf]. }
  set (nm := name (base_path </> filename)) in *.
  destruct (resolve (parts base_path) fs0) as [[c|w es]|] eqn:Hres.
  - exists 1. split; [done|]. rewrite candidate_flat_name by done.
    unfold exists_, child. simpl. rewrite resolve_app, Hres.
    apply bool_decide_eq_false. by intros [? ?].
  - set (l := map (flat_name nm) (seq 1 (S (length es)))).
    destruct (decide (Forall (λ x, x ∈ es.*1) l)) as [Hall|Hnot].
    + exfalso. assert (Hl : l ⊆+ es.*1).
      { apply NoDup_submseteq; [|by apply Forall_forall].
        apply NoDup_fmap_2; [|apply NoDup_seq]. intros j k. apply flat_name_inj. }
      apply submseteq_length in Hl. unfold l in Hl.
      rewrite length_map, length_seq, length_fmap in Hl. lia.
    + apply not_Forall_Exists in Hnot; [|apply _].
      apply Exists_exists in Hnot as (x & Hx & Hfree).
      apply list_elem_of_fmap in Hx as (k & -> & Hk). apply elem_of_seq in Hk.
      exists k. split; [lia|]. destruct k as [|k]; [lia|].
      rewrite candidate_flat_name by done. fold nm.
      rewrite (exists_child _ _ _ _ _ Hres). by apply bool_decide_eq_false.
  - exists 1. split; [done|]. rewrite candidate_flat_name by done.
    unfold exists_, child. simpl. rewrite resolve_app, Hres.
    apply bool_decide_eq_false. by intros [? ?].
Qed.

(** In this model the probe loop always ends. *)
Lemma generate_unique_filename_total (fs0 : node) (base_path : Path)
    (filename : string) :
  wf_path base_path →
  ∃ fuel0 p,
    (∀ fuel, fuel0 ≤ fuel →
       generate_unique_filename fuel fs0 base_path filename = Some p)
    ∧ exists_ fs0 p = false.
Proof.
  intros Hbase.
  destruct (some_candidate_free fs0 base_path filename Hbase) as (n & Hn & Hfree).
  by apply (generate_unique_filename_first_free fs0 base_path filename n).
Qed.

Lemma write_output_file_total (cfg : FileProcessorConfig) (st : State)
    (file_data : option FileData) :
  wf_path (output_dir cfg) →
  ∃ fuel0 st', ∀ fuel, fuel0 ≤ fuel →
    write_output_file fuel cfg st file_data = Some st'.
Proof.
  intros Hout. destruct file_data as [d|]; [|by exists 0, st].
  assert (Hp : ∃ fuel0 p, ∀ fuel, fuel0 ≤ fuel →
                 output_path_of fuel cfg (fs st) d = Some p).
  { unfold output_path_of. destruct (mirror_dir_structure cfg).
    - by exists 0, (joinpath (output_dir cfg) (parse (fd_path d))).
    - destruct (generate_unique_filename_total (fs st) (output_dir cfg)
                  (name (output_dir cfg </> name (parse (fd_path d)))) Hout)
        as (fuel0 & p & Hgen & _).
      by exists fuel0, p. }
  destruct Hp as (fuel0 & p & Hp). exists fuel0. eexists. intros fuel Hfuel.
  unfold write_output_file. rewrite (Hp fuel Hfuel). simpl. reflexivity.
Qed.

Lemma write_all_total (cfg : FileProcessorConfig)
    (results : list (result (option FileData))) :
  wf_path (output_dir cfg) →
  ∀ st, ∃ fuel0 r, ∀ fuel, fuel0 ≤ fuel → write_all fuel cfg st results = Some r.
Proof.
  intros Hout. induction results as [|[file_data|e] results IH]; intros st.
  - by exists 0, (Ok st).
  - destruct (write_output_file_total cfg st file_data Hout) as (f1 & st' & H1).
    destruct (IH st') as (f2 & r & H2).
    exists (f1 `max` f2), r. intros fuel Hfuel. simpl.
    rewrite H1 by lia. simpl. apply H2. lia.
  - by exists 0, (Raise e).
Qed.

Lemma ThreadPoolExecutor_Ok (n : nat) : 0 < n → ThreadPoolExecutor n = Ok tt.
Proof. intros Hn. unfold ThreadPoolExecutor. destruct (decide (n = 0)); [lia|done]. Qed.

(** A run whose pool can be made. *)
Lemma process_directory_pool (fuel : nat) (cfg : FileProcessorConfig) (fs0 : node) :
  0 < max_workers cfg →
  process_directory fuel cfg fs0
  = match clear_output cfg fs0 with
    | Raise e => Some (Raise e)
    | Ok fs1 =>
        r ← write_all fuel cfg {| fs := fs1; processed_files := [] |}
              (map (process_file cfg fs1) (collect_files cfg fs1));
        match r with
        | Raise e => Some (Raise e)
        | Ok st =>
            let '(tree_output, fs2) := generate_tree_output cfg (fs st) in
            let '(combined_output, fs3) :=
              generate_combined_output cfg
                {| fs := fs2; processed_files := processed_files st |} in
            Some (Ok ({| tree_output := tree_output;
                         combined_output := combined_output |}, fs3))
        end
    end.
Proof.
  intros Hw. unfold process_directory. by rewrite (ThreadPoolExecutor_Ok _ Hw).
Qed.

(** A run that returns has made its pool. *)
Lemma process_directory_Ok_pool (fuel : nat) (cfg : FileProcessorConfig) (fs0 : node)
    (x : ProcessingResults * node) :
  process_directory fuel cfg fs0 = Some (Ok x) → 0 < max_workers cfg.
Proof.
  unfold process_directory, ThreadPoolExecutor.
  destruct (clear_output cfg fs0); [|done].
  destruct (decide (max_workers cfg = 0)); [done|lia].
Qed.

(** With enough fuel a run comes to its end. *)
Lemma process_directory_total (cfg : FileProcessorConfig) (fs0 : node) :
  wf_path (output_dir cfg) →
  ∃ fuel0 r, ∀ fuel, fuel0 ≤ fuel → process_directory fuel cfg fs0 = Some r.
Proof.
  intros Hout. unfold process_directory.
  destruct (clear_output cfg fs0) as [fs1|e]; [|by exists 0, (Raise e)].
  destruct (ThreadPoolExecutor (max_workers cfg)) as [?|e]; [|by exists 0, (Raise e)].
  destruct (write_all_total cfg
              (map (process_file cfg fs1) (collect_files cfg fs1)) Hout
              {| fs := fs1; processed_files := [] |}) as (fuel0 & r & Hr).
  destruct r as [st|e].
  - destruct (generate_tree_output cfg (fs st)) as [t fs2] eqn:Et.
    destruct (generate_combined_output cfg
                {| fs := fs2; processed_files := processed_files st |})
      as [c fs3] eqn:Ec.
    exists fuel0, (Ok ({| tree_output := t; combined_output := c |}, fs3)).
    intros fuel Hfuel. rewrite (Hr fuel Hfuel). simpl. by rewrite Et, Ec.
  - exists fuel0, (Raise e). intros fuel Hfuel. by rewrite (Hr fuel Hfuel).
Qed.

End Termination.

(** ** The writer *)

Section Writer.

Lemma read_text_Ok (fs0 : node) (p : Path) (c : string) :
  read_text fs0 p = Ok c ↔ resolve (parts p) fs0 = Some (File (Some c)).
Proof.
  unfold read_text.
  destruct (resolve (parts p) fs0) as [[[x|]|w es]|]; split; intros; simplify_eq; done.
Qed.

Lemma mkdir_keeps_written (b : bool) (fs0 fs1 : node) (q p : Path) :
  mkdir b fs0 q = Ok fs1 →
  (∃ c, read_text fs0 p = Ok c) → ∃ c, read_text fs1 p = Ok c.
Proof.
  intros Hm [c Hc]. exists c. apply read_text_Ok. apply read_text_Ok in Hc.
  by apply (mkdir_at_resolve_file b (parts q) (parts p) fs0 fs1).
Qed.

Lemma write_keeps_written (fs1 fs2 : node) (q p : Path) (content : string) :
  write_text fs1 q content = Ok fs2 →
  (∃ c, read_text fs1 p = Ok c) → ∃ c, read_text fs2 p = Ok c.
Proof.
  intros Hw [c Hc]. apply read_text_Ok in Hc.
  pose proof (write_at_resolve_file _ _ _ _ _ _ Hw Hc) as H.
  destruct (decide (parts p = parts q)); eexists; apply read_text_Ok, H.
Qed.

Lemma write_output_file_keeps_written (fuel : nat) (cfg : FileProcessorConfig)
    (st st' : State) (file_data : option FileData) :
  write_output_file fuel cfg st file_data = Some st' →
  all_written st → all_written st'.
Proof.
  unfold write_output_file, all_written.
  destruct file_data as [d|]; [|by intros [= <-]].
  destruct (output_path_of fuel cfg (fs st) d) as [p|]; [|done]. simpl.
  destruct (mkdir true (fs st) (parent p)) as [fs1|] eqn:Em; [|by intros [= <-]].
  destruct (write_text fs1 p (fd_content d)) as [fs2|] eqn:Ew;
    intros [= <-] Hall; simpl.
  - apply Forall_app. split.
    + eapply Forall_impl; [done|]. intros q Hq. simpl in Hq.
      eapply write_keeps_written; [done|]. by eapply mkdir_keeps_written.
    + apply Forall_singleton. exists (fd_content d).
      apply read_text_Ok. by eapply write_at_resolve_self.
  - eapply Forall_impl; [done|]. intros q Hq. by eapply mkdir_keeps_written.
Qed.

Lemma write_all_keeps_written (fuel : nat) (cfg : FileProcessorConfig)
    (results : list (result (option FileData))) :
  ∀ st st', write_all fuel cfg st results = Some (Ok st') →
            all_written st → all_written st'.
Proof.
  induction results as [|[file_data|e] results IH]; intros st st'; simpl.
  - by intros [= <-].
  - destruct (write_output_file fuel cfg st file_data) as [st1|] eqn:E; [|done].
    simpl. intros Hall Hst. apply (IH st1 st' Hall).
    by eapply write_output_file_keeps_written.
  - done.
Qed.

(** C6: the writer does nothing on an absent record.  On a record it
    returns a state (given enough fuel for the probe loop of flat mode) and
    raises nothing: after a successful write the resolved output path, and
    nothing else, is appended, and the file there holds the content; after
    a failed one nothing is appended.  The recorded paths stay files that
    were written, through one write and through a whole batch. *)
Theorem write_output_file_spec (cfg : FileProcessorConfig) (st : State) :
  (∀ fuel, write_output_file fuel cfg st None = Some st)
  ∧ (wf_path (output_dir cfg) →
     ∀ d, ∃ fuel0 st', ∀ fuel, fuel0 ≤ fuel →
       write_output_file fuel cfg st (Some d) = Some st')
  ∧ (∀ fuel d st', write_output_file fuel cfg st (Some d) = Some st' →
       ∃ p, output_path_of fuel cfg (fs st) d = Some p
            ∧ ((∃ fs1, mkdir true (fs st) (parent p) = Ok fs1
                       ∧ write_text fs1 p (fd_content d) = Ok (fs st')
                       ∧ processed_files st' = processed_files st ++ [p]
                       ∧ read_text (fs st') p = Ok (fd_content d))
               ∨ (processed_files st' = processed_files st
                  ∧ (is_ok (mkdir true (fs st) (parent p)) = false
                     ∨ ∃ fs1, mkdir true (fs st) (parent p) = Ok fs1
                              ∧ is_ok (write_text fs1 p (fd_content d)) = false))))
  ∧ (∀ fuel file_data st', write_output_file fuel cfg st file_data = Some st' →
       all_written st → all_written st')
  ∧ (∀ fuel results st', write_all fuel cfg st results = Some (Ok st') →
       all_written st → all_written st').
Proof.
  split; [done|]. split; [|split; [|split]].
  - intros Hout d. by apply write_output_file_total.
  - intros fuel d st'. unfold write_output_file.
    destruct (output_path_of fuel cfg (fs st) d) as [p|]; [|done]. simpl.
    intros [= <-]. exists p. split; [done|].
    destruct (mkdir true (fs st) (parent p)) as [fs1|] eqn:Em; [|right; by auto].
    destruct (write_text fs1 p (fd_content d)) as [fs2|] eqn:Ew.
    + left. exists fs1. simpl. repeat split; [done..|].
      apply read_text_Ok. by eapply write_at_resolve_self.
    + right. simpl. split; [done|]. right. exists fs1. by rewrite Ew.
  - intros fuel file_data st'. apply write_output_file_keeps_written.
  - intros fuel results st'. apply write_all_keeps_written.
Qed.

End Writer.

Lemma write_output_file_spec_witness :
  write_output_file 2 cfg_flat st_two_x (Some d_third_x) = Some st_three_x
  ∧ ∃ p, output_path_of 2 cfg_flat (fs st_two_x) d_third_x = Some p
         ∧ ((∃ fs1, mkdir true (fs st_two_x) (parent p) = Ok fs1
                    ∧ write_text fs1 p (fd_content d_third_x) = Ok (fs st_three_x)
                    ∧ processed_files st_three_x = processed_files st_two_x ++ [p]
                    ∧ read_text (fs st_three_x) p = Ok (fd_content d_third_x))
            ∨ (processed_files st_three_x = processed_files st_two_x
               ∧ (is_ok (mkdir true (fs st_two_x) (parent p)) = false
                  ∨ ∃ fs1, mkdir true (fs st_two_x) (parent p) = Ok fs1
                           ∧ is_ok (write_text fs1 p (fd_content d_third_x)) = false))).
Proof.
  split; [by vm_compute|].
  apply (proj1 (proj2 (proj2 (write_output_file_spec cfg_flat st_two_x))) 2).
  by vm_compute.
Defined.

(** ** The reader *)

Section Reader.

(** C5, as the code has it: the reader raises nothing.  It returns the
    record when the file can be read and lies under the source root; a file
    that cannot be read, and likewise a path that is not relative to the
    source root, gives no record, and the batch goes on as if the path had
    not been in it. *)
Theorem process_file_soft_failure (cfg : FileProcessorConfig) (fs0 : node) (p : Path) :
  (∀ c rel, read_text fs0 p = Ok c → relative_to p (source_dir cfg) = Ok rel →
     process_file cfg fs0 p = Ok (Some {| fd_path := str rel; fd_content := c |}))
  ∧ (is_ok (read_text fs0 p) = false → process_file cfg fs0 p = Ok None)
  ∧ (is_ok (relative_to p (source_dir cfg)) = false → process_file cfg fs0 p = Ok None)
  ∧ (process_file cfg fs0 p = Ok None →
     ∀ fuel st l1 l2,
       write_all fuel cfg st (map (process_file cfg fs0) (l1 ++ p :: l2))
       = write_all fuel cfg st (map (process_file cfg fs0) (l1 ++ l2))).
Proof.
  repeat split.
  - unfold process_file. intros c rel -> ->. done.
  - unfold process_file. destruct (read_text fs0 p); [done|]. done.
  - unfold process_file. destruct (read_text fs0 p); [|done]. simpl.
    destruct (relative_to p (source_dir cfg)); done.
  - intros Hp fuel st l1 l2. revert st.
    induction l1 as [|q l1 IH]; intros st; cbn [app map write_all].
    + by rewrite Hp.
    + destruct (process_file cfg fs0 q) as [d|e]; [|done].
      destruct (write_output_file fuel cfg st d) as [st'|]; [|done].
      apply IH.
Qed.

Lemma process_file_soft_failure_witness :
  is_ok (relative_to (parse "other/x.py") (source_dir cfg_flat)) = false
  ∧ process_file cfg_flat fs_outside (parse "other/x.py") = Ok None.
Proof.
  split; [reflexivity|].
  apply (proj1 (proj2 (proj2
           (process_file_soft_failure cfg_flat fs_outside (parse "other/x.py"))))).
  reflexivity.
Defined.

(** A readable file outside the source root: the reader does not raise. *)
Lemma process_file_does_not_abort :
  ¬ (∀ cfg fs0 p,
       is_ok (relative_to p (source_dir cfg)) = false →
       ∃ e, process_file cfg fs0 p = Raise e).
Proof.
  intros H.
  destruct (H cfg_flat fs_outside (parse "other/x.py")) as [e He]; [reflexivity|].
  vm_compute in He. discriminate.
Qed.

End Reader.

(** ** The combined text *)

Section Combined.

Lemma combined_content_Ok (fs0 : node) (files : list Path) (contents : list string) :
  Forall2 (λ p c, read_text fs0 p = Ok c) files contents →
  combined_content fs0 files
  = Ok (zip_with (λ p c, "File: " +:+ str p +:+ nl +:+ c +:+ nl +:+ nl) files contents).
Proof.
  induction 1 as [|p c files contents Hp _ IH]; simpl; [done|].
  unfold combined_block. rewrite Hp. simpl. by rewrite IH.
Qed.

Lemma all_written_contents (st : State) :
  all_written st →
  ∃ contents, Forall2 (λ p c, read_text (fs st) p = Ok c) (processed_files st) contents.
Proof.
  unfold all_written. induction 1 as [|p ps [c Hc] _ [cs Hcs]].
  - exists []. constructor.
  - exists (c :: cs). by constructor.
Qed.

(** Writing the tree artefact keeps the recorded files readable, so in a
    run the combined text is generated from files that can all be read. *)
Lemma generate_tree_output_keeps_written (cfg : FileProcessorConfig) (st : State) :
  all_written st →
  all_written {| fs := (generate_tree_output cfg (fs st)).2;
                 processed_files := processed_files st |}.
Proof.
  unfold all_written, generate_tree_output. simpl. intros Hall.
  destruct (_generate_tree _ _ _ _) as [lines|]; [|done].
  destruct (mkdir true (fs st) (text_output cfg)) as [fs1|] eqn:Em; [|done].
  destruct (write_text fs1 _ _) as [fs2|] eqn:Ew; simpl.
  - eapply Forall_impl; [done|]. intros q Hq. simpl in Hq.
    eapply write_keeps_written; [done|]. by eapply mkdir_keeps_written.
  - eapply Forall_impl; [done|]. intros q Hq. by eapply mkdir_keeps_written.
Qed.

(** C7: when the recorded files can be read and the artefact written, the
    combined text is the concatenation, in the recorded order, of one block
    ["File: {path}\n{content}\n\n"] per path, with the content the file has
    on disk when the text is generated; [combined.txt] then holds that
    text, and every recorded file other than [combined.txt] itself still
    has the content of its block. *)
Theorem generate_combined_output_spec (cfg : FileProcessorConfig) (st : State)
    (contents : list string) (fs1 fs2 : node) :
  let combined_file := absolute (text_output cfg) </> "combined.txt" in
  let blocks :=
    zip_with (λ p c, "File: " +:+ str p +:+ nl +:+ c +:+ nl +:+ nl)
      (processed_files st) contents in
  Forall2 (λ p c, read_text (fs st) p = Ok c) (processed_files st) contents →
  mkdir true (fs st) (text_output cfg) = Ok fs1 →
  write_text fs1 combined_file (Str.concat blocks) = Ok fs2 →
  generate_combined_output cfg st = (Str.concat blocks, fs2)
  ∧ read_text fs2 combined_file = Ok (Str.concat blocks)
  ∧ Forall2 (λ p c, parts p ≠ parts combined_file → read_text fs2 p = Ok c)
      (processed_files st) contents.
Proof.
  intros combined_file blocks Hread Hmk Hw. repeat split.
  - unfold generate_combined_output.
    rewrite (combined_content_Ok _ _ _ Hread). fold blocks.
    rewrite Hmk. fold combined_file. by rewrite Hw.
  - apply read_text_Ok. by eapply write_at_resolve_self.
  - eapply Forall2_impl; [done|]. intros p c Hp Hne. simpl in Hp.
    apply read_text_Ok. apply read_text_Ok in Hp.
    apply (mkdir_at_resolve_file _ _ _ _ _ _ Hmk) in Hp.
    rewrite (write_at_resolve_file _ _ _ _ _ _ Hw Hp).
    by rewrite decide_False.
Qed.

Lemma generate_combined_output_spec_witness :
  Forall2 (λ p c, read_text (fs st_three_x) p = Ok c)
    (processed_files st_three_x) ["first"; "second"; "third"]
  ∧ generate_combined_output cfg_flat st_three_x
    = (Str.concat
         (zip_with (λ p c, "File: " +:+ str p +:+ nl +:+ c +:+ nl +:+ nl)
            (processed_files st_three_x) ["first"; "second"; "third"]),
       snd (generate_combined_output cfg_flat st_three_x)).
Proof.
  assert (H : Forall2 (λ p c, read_text (fs st_three_x) p = Ok c)
                (processed_files st_three_x) ["first"; "second"; "third"])
    by (repeat constructor).
  split; [exact H|].
  apply (generate_combined_output_spec cfg_flat st_three_x
           ["first"; "second"; "third"] (fs st_three_x)).
  - exact H.
  - reflexivity.
  - reflexivity.
Defined.

(** A run of [cfg_txt_out] on [fs_combined_src] reaches the state
    [st_combined_copied] before it generates the combined text. *)
Example st_combined_copied_reached :
  ∃ fs1 st,
    clear_output cfg_txt_out fs_combined_src = Ok fs1
    ∧ write_all 0 cfg_txt_out {| fs := fs1; processed_files := [] |}
        (map (process_file cfg_txt_out fs1) (collect_files cfg_txt_out fs1))
      = Some (Ok st)
    ∧ {| fs := (generate_tree_output cfg_txt_out (fs st)).2;
         processed_files := processed_files st |} = st_combined_copied.
Proof. do 2 eexists. split_and!; reflexivity. Qed.

(** Without the exception of [combined.txt] itself the last part fails:
    when the text-output directory is the output directory and a file named
    [combined.txt] was copied, its copy is a recorded path, and the combined
    text is written over it.  Its block holds the content that was read,
    ["OLD"]; on disk the path then holds the whole combined text. *)
Lemma generate_combined_output_overwrites_record :
  ¬ (∀ (cfg : FileProcessorConfig) (st : State) (contents : list string)
       (fs1 fs2 : node),
       let combined_file := absolute (text_output cfg) </> "combined.txt" in
       let blocks :=
         zip_with (λ p c, "File: " +:+ str p +:+ nl +:+ c +:+ nl +:+ nl)
           (processed_files st) contents in
       Forall2 (λ p c, read_text (fs st) p = Ok c) (processed_files st) contents →
       mkdir true (fs st) (text_output cfg) = Ok fs1 →
       write_text fs1 combined_file (Str.concat blocks) = Ok fs2 →
       Forall2 (λ p c, read_text fs2 p = Ok c) (processed_files st) contents).
Proof.
  intros H.
  specialize (H cfg_txt_out st_combined_copied ["OLD"] (fs st_combined_copied)
                (generate_combined_output cfg_txt_out st_combined_copied).2).
  cbn zeta in H.
  assert (Hall : Forall2 (λ p c, read_text (fs st_combined_copied) p = Ok c)
                   (processed_files st_combined_copied) ["OLD"])
    by (repeat constructor).
  specialize (H Hall eq_refl eq_refl).
  apply Forall2_cons_1 in H as [H _]. vm_compute in H. discriminate H.
Qed.

End Combined.

(** ** The walk *)

Section Walk.

Lemma node_ind' (P : node → Prop) :
  (∀ c, P (File c)) →
  (∀ w es, Forall (λ e, P e.2) es → P (Dir w es)) →
  ∀ n, P n.
Proof.
  intros Hf Hd. fix IH 1. intros [c|w es]; [apply Hf|].
  apply Hd. induction es as [|[k c] es IHes]; constructor; [apply IH|apply IHes].
Qed.

Lemma valid_componentb_true (c : string) :
  valid_componentb c = true ↔ valid_component c.
Proof.
  unfold valid_componentb, keep_component, valid_component.
  rewrite !andb_true_iff, !negb_true_iff, !bool_decide_eq_false. tauto.
Qed.

Lemma wf_names_Dir (w : bool) (es : list (string * node)) :
  wf_names (Dir w es) = true ↔
  NoDup es.*1 ∧ Forall (λ e, valid_component e.1 ∧ wf_names e.2 = true) es.
Proof.
  simpl. rewrite andb_true_iff, bool_decide_eq_true, forallb_forall, Forall_forall.
  split; intros [Hnd H]; (split; [done|]); intros e He.
  - apply list_elem_of_In, H in He. apply andb_true_iff in He as [? ?].
    by rewrite <- valid_componentb_true.
  - apply list_elem_of_In, H in He as [? ?]. apply andb_true_iff.
    by rewrite valid_componentb_true.
Qed.

Lemma lookup_entry_NoDup (nm : string) (c : node) (es : list (string * node)) :
  NoDup es.*1 → (nm, c) ∈ es → lookup_entry nm es = Some c.
Proof.
  induction es as [|[k c'] es IH]; simpl; [by intros _ ?%elem_of_nil|].
  intros [Hk Hnd]%NoDup_cons [[= -> ->]|Hin]%elem_of_cons.
  - by rewrite decide_True.
  - rewrite decide_False; [by apply IH|].
    intros ->. apply Hk. apply list_elem_of_fmap. by exists (nm, c).
Qed.

Lemma wf_names_resolve (ps : list string) (n n' : node) :
  wf_names n = true → resolve ps n = Some n' → wf_names n' = true.
Proof.
  revert n. induction ps as [|nm ps IH]; intros n Hwf Hres; simpl in Hres.
  - by injection Hres as <-.
  - destruct n as [c|w es]; [done|].
    destruct (lookup_entry nm es) as [ch|] eqn:E; [|done].
    apply lookup_entry_Some in E. apply wf_names_Dir in Hwf as [_ Hwf].
    rewrite Forall_forall in Hwf. apply Hwf in E as [_ ?]. eauto.
Qed.

Lemma parts_descend (top : Path) (ds : list string) :
  parts (foldl child top ds) = parts top ++ ds
  ∧ anchored (foldl child top ds) = anchored top.
Proof.
  revert top. induction ds as [|d ds IH]; intros top; simpl.
  - by rewrite (right_id_L [] (++)).
  - destruct (IH (child top d)) as [-> ->]. simpl.
    by rewrite <- (assoc_L (++)).
Qed.

Lemma file_names_valid (w : bool) (es : list (string * node)) :
  wf_names (Dir w es) = true → Forall valid_component (file_names es).
Proof.
  rewrite wf_names_Dir. intros [_ H]. unfold file_names.
  apply Forall_fmap. apply Forall_forall. intros e He.
  apply list_elem_of_In, filter_In in He as [He _]. apply list_elem_of_In in He.
  rewrite Forall_forall in H. by apply H in He as [? _].
Qed.

Lemma file_names_lookup (f : string) (es : list (string * node)) :
  NoDup es.*1 → f ∈ file_names es → ∃ x, lookup_entry f es = Some (File x).
Proof.
  intros Hnd Hf. unfold file_names in Hf.
  apply list_elem_of_fmap in Hf as ([k c] & -> & Hin).
  apply list_elem_of_In, filter_In in Hin as [Hin Hfile].
  destruct c as [x|]; [|done]. exists x.
  apply lookup_entry_NoDup; [done|]. by apply list_elem_of_In.
Qed.

(** Every directory the walk yields is reached from the top through kept
    names only, and its files are the files listed there. *)
Lemma walk_node_In (keep : string → bool) (n : node) :
  ∀ top t, wf_names n = true → t ∈ walk_node keep n top →
    ∃ ds es, t.1.1 = foldl child top ds
             ∧ Forall (λ d, keep d = true ∧ valid_component d) ds
             ∧ resolve ds n = Some (Dir true es)
             ∧ t.2 = file_names es.
Proof.
  induction n as [c|w es IH] using node_ind'; intros top t Hwf Hin; simpl in Hin.
  - by apply elem_of_nil in Hin.
  - destruct w; [|by apply elem_of_nil in Hin].
    apply elem_of_cons in Hin as [->|Hin].
    + by exists [], es.
    + apply list_elem_of_In, in_flat_map in Hin as (e & He & Hin).
      apply list_elem_of_In in He, Hin.
      destruct (is_dir_node e.2 && keep e.1) eqn:E; [|by apply elem_of_nil in Hin].
      apply andb_true_iff in E as [_ Hkeep].
      rewrite Forall_forall in IH. apply wf_names_Dir in Hwf as [Hnd Hwf].
      rewrite Forall_forall in Hwf. destruct (Hwf e He) as [Hname Hwfe].
      destruct (IH e He (child top e.1) t Hwfe Hin)
        as (ds & es' & Hroot & Hds & Hres & Hfiles).
      exists (e.1 :: ds), es'. simpl. split; [done|]. split; [by constructor|].
      split; [|done]. destruct e as [k c]. simpl in *.
      by rewrite (lookup_entry_NoDup k c es Hnd He).
Qed.

(** Where a collected file lies: below the source root, through directories
    whose names are not ignored; and it is a file. *)
Lemma collect_files_In (cfg : FileProcessorConfig) (fs0 : node) (p : Path) :
  wf_names fs0 = true → p ∈ collect_files cfg fs0 →
  ∃ ds file, p = child (foldl child (source_dir cfg) ds) file
             ∧ Forall (λ d, (d ∉ ignored_dirs cfg) ∧ valid_component d) ds
             ∧ valid_component file
             ∧ should_process_file cfg p = true
             ∧ ∃ x, resolve (parts p) fs0 = Some (File x).
Proof.
  intros Hwf Hin. unfold collect_files, walk in Hin.
  destruct (resolve (parts (source_dir cfg)) fs0) as [n|] eqn:Hres;
    [|by apply elem_of_nil in Hin].
  apply list_elem_of_In, in_flat_map in Hin as ([[root dirs] files] & Ht & Hin).
  apply list_elem_of_In in Ht.
  apply filter_In in Hin as [Hin Hsel]. apply in_map_iff in Hin as (file & <- & Hfile).
  assert (Hwfn : wf_names n = true) by (by eapply wf_names_resolve).
  apply (walk_node_In _ n) in Ht as (ds & es & Hroot & Hds & Hdir & Hfiles);
    [|done].
  simpl in Hroot, Hfiles. subst root files.
  assert (Hwfd : wf_names (Dir true es) = true) by (by eapply wf_names_resolve).
  pose proof (file_names_valid _ _ Hwfd) as Hvalid.
  rewrite Forall_forall in Hvalid. apply list_elem_of_In in Hfile.
  pose proof (Hvalid _ Hfile) as Hf.
  apply wf_names_Dir in Hwfd as [Hnd _].
  destruct (file_names_lookup file es Hnd Hfile) as [x Hx].
  exists ds, file. rewrite div_component in * by done.
  split; [done|]. split; [|split; [done|split; [done|]]].
  - eapply Forall_impl; [done|]. intros d [Hd ?]. simpl in Hd.
    by apply bool_decide_eq_true in Hd.
  - exists x. simpl. destruct (parts_descend (source_dir cfg) ds) as [-> _].
    rewrite !resolve_app, Hres. simpl. rewrite Hdir. simpl. by rewrite Hx.
Qed.

Lemma child_descend_inj (top : Path) (ds ds' : list string) (f f' : string) :
  child (foldl child top ds) f = child (foldl child top ds') f' → ds = ds' ∧ f = f'.
Proof.
  intros H. apply (f_equal parts) in H. simpl in H.
  destruct (parts_descend top ds) as [Hp _], (parts_descend top ds') as [Hp' _].
  rewrite Hp, Hp', <- !(assoc_L (++)) in H.
  apply app_inv_head in H. by apply app_inj_tail in H.
Qed.

Lemma dir_names_prune (keep : string → bool) (w : bool) (es : list (string * node)) :
  match prune keep (Dir w es) with
  | Dir _ es' => dir_names es' = dir_names es ∧ file_names es' = file_names es
  | File _ => False
  end.
Proof.
  simpl. unfold dir_names, file_names.
  induction es as [|[k [c|w' es']] es [IH1 IH2]]; simpl; [done|..].
  - split; [exact IH1|f_equal; exact IH2].
  - destruct (keep k); simpl; (split; [f_equal; exact IH1|exact IH2]).
Qed.

(** The walk does not look into a directory that is not kept. *)
Lemma walk_node_prune (keep : string → bool) (n : node) :
  ∀ top, walk_node keep (prune keep n) top = walk_node keep n top.
Proof.
  induction n as [c|w es IH] using node_ind'; intros top; [done|].
  pose proof (dir_names_prune keep w es) as Hnames. simpl in Hnames.
  destruct Hnames as [Hd Hf].
  simpl. destruct w; [|done]. rewrite Hd, Hf. f_equal.
  clear Hd Hf. induction IH as [|e es He _ IHes]; simpl; [done|].
  rewrite IHes. f_equal.
  destruct e as [k [c|w' es']]; simpl; [done|].
  destruct (keep k) eqn:Ek; simpl; [|done]. apply He.
Qed.

End Walk.

(** ** Relative paths as strings *)

Section RelativePaths.

Lemma split_go_app_sep (cur x rest : string) :
  Str.contains sep x = false →
  Str.split_go sep cur (x +:+ String sep rest)
  = String.rev_app cur x :: Str.split_go sep "" rest.
Proof.
  unfold Str.contains. rewrite bool_decide_eq_false.
  revert cur. induction x as [|c x IH]; intros cur Hx.
  - reflexivity.
  - unfold Str.chars in Hx, IH. simpl in Hx.
    apply not_elem_of_cons in Hx as [Hc Hx].
    change (String c x +:+ String sep rest) with (String c (x +:+ String sep rest)).
    simpl. rewrite decide_False by done. by rewrite IH.
Qed.

Lemma split_join (l : list string) :
  l ≠ [] → Forall (λ x, Str.contains sep x = false) l →
  Str.split sep (Str.join "/" l) = l.
Proof.
  intros Hne Hl. unfold Str.split.
  induction Hl as [|x l Hx Hl IH]; [done|].
  destruct l as [|y l].
  - simpl. by rewrite split_go_no_sep.
  - change (Str.join "/" (x :: y :: l))
      with (x +:+ String sep (Str.join "/" (y :: l))).
    rewrite split_go_app_sep by done. simpl String.rev_app.
    f_equal. by apply IH.
Qed.

(** The string form of a relative path parses back to the path. *)
Lemma parse_str_relative (l : list string) :
  l ≠ [] → Forall valid_component l →
  parse (str {| anchored := false; parts := l |})
  = {| anchored := false; parts := l |}.
Proof.
  intros Hne Hl.
  assert (Hs : str {| anchored := false; parts := l |} = Str.join "/" l)
    by (by destruct l).
  rewrite Hs. unfold parse. rewrite split_join; [|done|].
  - f_equal.
    + destruct l as [|x l']; [done|].
      apply Forall_cons in Hl as [(Hx & _ & Hsep) _].
      assert (Hstart : starts_with_sep x = false
                       ∧ ∀ s, starts_with_sep (x +:+ s) = false).
      { destruct x as [|c x]; [done|]. simpl.
        assert (c ≠ sep).
        { intros ->. unfold Str.contains in Hsep.
          apply bool_decide_eq_false in Hsep. apply Hsep. left. }
        split; [|intros _]; by apply bool_decide_eq_false. }
      destruct l' as [|y l']; apply Hstart.
    + clear Hs Hne. induction Hl as [|y l (Hy & Hdot & _) _ IH]; simpl; [done|].
      unfold keep_component at 1. rewrite !bool_decide_eq_false_2 by done.
      simpl. by rewrite IH.
  - eapply Forall_impl; [done|]. by intros y (_ & _ & ?).
Qed.

End RelativePaths.

(** ** Ignored directories *)

Section IgnoredDirs.

(** C2: below the source root, no file is collected from under a directory
    whose name is ignored, whatever the name of the file; so no record the
    writer receives comes from there, and in mirrored mode no output path
    passes through such a name.  The walk does not look into an ignored
    directory: emptying all of them leaves the collection as it is. *)
Theorem ignored_dirs_not_collected (cfg : FileProcessorConfig) (fs0 : node)
    (Hwf : wf_names fs0 = true) :
  (∀ dirs file,
     (∃ d, d ∈ dirs ∧ d ∈ ignored_dirs cfg) →
     child (foldl child (source_dir cfg) dirs) file ∉ collect_files cfg fs0)
  ∧ (∀ d, Ok (Some d) ∈ map (process_file cfg fs0) (collect_files cfg fs0) →
       ∃ dirs file,
         fd_path d = str {| anchored := false; parts := dirs ++ [file] |}
         ∧ Forall (λ x, x ∉ ignored_dirs cfg) dirs
         ∧ name (parse (fd_path d)) = file
         ∧ (mirror_dir_structure cfg = true →
            ∀ fuel fs1, output_path_of fuel cfg fs1 d
                        = Some (child (foldl child (output_dir cfg) dirs) file)))
  ∧ (∀ n fs',
       resolve (parts (source_dir cfg)) fs0 = Some n →
       resolve (parts (source_dir cfg)) fs'
       = Some (prune (λ d, bool_decide (d ∉ ignored_dirs cfg)) n) →
       collect_files cfg fs' = collect_files cfg fs0).
Proof.
  split; [|split].
  - intros dirs file (d & Hd & Hign) Hin.
    apply collect_files_In in Hin as (ds & file' & Heq & Hds & _); [|done].
    apply child_descend_inj in Heq as [-> _].
    rewrite Forall_forall in Hds. by apply Hds in Hd as [? _].
  - intros d Hd. apply list_elem_of_In, in_map_iff in Hd as (p & Hp & Hin).
    apply list_elem_of_In, collect_files_In in Hin
      as (ds & file & -> & Hds & Hfile & _); [|done].
    unfold process_file in Hp.
    destruct (read_text fs0 _) as [c|]; [|done]. simpl in Hp.
    destruct (parts_descend (source_dir cfg) ds) as [Hparts Hanch].
    unfold relative_to in Hp. simpl in Hp.
    rewrite Hparts, Hanch in Hp.
    rewrite bool_decide_eq_true_2 in Hp by done.
    rewrite bool_decide_eq_true_2 in Hp
      by (rewrite <- (assoc_L (++)); by apply prefix_app_r).
    simpl in Hp. injection Hp as <-. simpl.
    rewrite <- (assoc_L (++)), drop_app_length.
    assert (Hvalid : Forall valid_component (ds ++ [file])).
    { apply Forall_app. split; [|by apply Forall_singleton].
      eapply Forall_impl; [done|]. by intros x [_ ?]. }
    exists ds, file. split; [done|].
    split; [eapply Forall_impl; [done|]; by intros x [? _]|].
    rewrite parse_str_relative; [|by destruct ds|done].
    split.
    + unfold name. simpl. apply last_last.
    + intros Hm fuel fs1. unfold output_path_of. rewrite Hm. simpl fd_path.
      rewrite parse_str_relative; [|by destruct ds|done].
      f_equal. destruct (parts_descend (output_dir cfg) ds) as [Hp Ha].
      unfold joinpath, child at 1. simpl. rewrite Hp, Ha.
      by rewrite (assoc_L (++)).
  - intros n fs' Hres Hres'. unfold collect_files, walk.
    rewrite Hres, Hres'. by rewrite walk_node_prune.
Qed.

End IgnoredDirs.

Lemma ignored_dirs_not_collected_witness :
  wf_names fs_project = true
  ∧ parse "proj/src/venv/lib/x.py" ∉ collect_files cfg_py fs_project.
Proof.
  split; [reflexivity|].
  apply (proj1 (ignored_dirs_not_collected cfg_py fs_project eq_refl)
           ["venv"; "lib"] "x.py").
  exists "venv". split; [left|]. simpl. by apply elem_of_singleton.
Defined.

(** ** Reading while writing *)

Section Schedule.

Lemma process_file_collected (cfg : FileProcessorConfig) (fs0 : node)
    (ds : list string) (file : string) (d : FileData) :
  process_file cfg fs0 (child (foldl child (source_dir cfg) ds) file) = Ok (Some d) →
  fd_path d = str {| anchored := false; parts := ds ++ [file] |}.
Proof.
  unfold process_file. destruct (read_text fs0 _) as [c|]; [|done]. simpl.
  destruct (parts_descend (source_dir cfg) ds) as [Hparts Hanch].
  unfold relative_to. simpl. rewrite Hparts, Hanch.
  rewrite bool_decide_eq_true_2 by done.
  rewrite bool_decide_eq_true_2
    by (rewrite <- (assoc_L (++)); by apply prefix_app_r).
  simpl. intros [= <-]. simpl.
  by rewrite <- (assoc_L (++)), drop_app_length.
Qed.


(** The record of a collected file is written below the output root. *)
Lemma output_path_below (fuel : nat) (cfg : FileProcessorConfig) (fs0 fs1 fs2 : node)
    (p q : Path) (d : FileData) :
  wf_names fs0 = true → p ∈ collect_files cfg fs0 →
  process_file cfg fs1 p = Ok (Some d) →
  output_path_of fuel cfg fs2 d = Some q →
  ∃ rest, parts q = parts (output_dir cfg) ++ rest ∧ rest ≠ [].
Proof.
  intros Hwf Hin Hd Hq.
  apply collect_files_In in Hin as (ds & file & -> & Hds & Hfile & _); [|done].
  apply process_file_collected in Hd.
  assert (Hvalid : Forall valid_component (ds ++ [file])).
  { apply Forall_app. split; [|by apply Forall_singleton].
    eapply Forall_impl; [done|]. by intros x [_ ?]. }
  assert (Hparse : parse (fd_path d) = {| anchored := false; parts := ds ++ [file] |}).
  { rewrite Hd. apply parse_str_relative; [by destruct ds|done]. }
  unfold output_path_of in Hq. rewrite Hparse in Hq.
  destruct (mirror_dir_structure cfg).
  - injection Hq as <-. exists (ds ++ [file]). split; [done|]. by destruct ds.
  - unfold name at 2 in Hq. simpl in Hq. rewrite last_last in Hq.
    rewrite (div_component _ file Hfile), name_child in Hq.
    apply generate_unique_filename_Some in Hq as [_ [->|(_ & n & Hn & _ & -> & _)]].
    + rewrite (div_component _ file Hfile). by exists [file].
    + destruct n as [|n]; [lia|]. rewrite candidate_child by done.
      by exists [flat_name file (S n)].
Qed.

(** A write leaves alone the files it is not aimed at. *)
Lemma write_output_file_frame (fuel : nat) (cfg : FileProcessorConfig)
    (st st' : State) (file_data : option FileData) (p : Path) (x : option string) :
  write_output_file fuel cfg st file_data = Some st' →
  (∀ d q, file_data = Some d → output_path_of fuel cfg (fs st) d = Some q →
          parts q ≠ parts p) →
  resolve (parts p) (fs st) = Some (File x) →
  resolve (parts p) (fs st') = Some (File x).
Proof.
  unfold write_output_file. destruct file_data as [d|]; [|by intros [= <-]].
  destruct (output_path_of fuel cfg (fs st) d) as [q|] eqn:Eq; [|done]. simpl.
  intros [= <-] Hq Hp. specialize (Hq d q eq_refl Eq).
  destruct (mkdir true (fs st) (parent q)) as [fs1|] eqn:Em; [|done].
  apply (mkdir_at_resolve_file _ _ _ _ _ _ Em) in Hp.
  destruct (write_text fs1 q (fd_content d)) as [fs2|] eqn:Ew; simpl; [|done].
  rewrite (write_at_resolve_file _ _ _ _ _ _ Ew Hp).
  rewrite decide_False; [done|]. by intros E.
Qed.



Lemma set_entry_names (nm : string) (c : node) (es : list (string * node)) :
  (set_entry nm c es).*1
  = if lookup_entry nm es is Some _ then es.*1 else es.*1 ++ [nm].
Proof.
  induction es as [|[k c'] es IH]; simpl; [done|].
  destruct (decide (k = nm)) as [->|Hne]; simpl; [done|].
  change (list_fmap _ _ fst (set_entry nm c es)) with ((set_entry nm c es).*1).
  rewrite IH. by destruct (lookup_entry nm es).
Qed.

Lemma wf_names_set_entry (w : bool) (es : list (string * node)) (nm : string)
    (c : node) :
  wf_names (Dir w es) = true → valid_component nm → wf_names c = true →
  wf_names (Dir w (set_entry nm c es)) = true.
Proof.
  rewrite !wf_names_Dir. intros [Hnd Hall] Hnm Hc. split.
  - rewrite set_entry_names. destruct (lookup_entry nm es) eqn:E; [done|].
    apply NoDup_app. split; [done|]. split; [|apply NoDup_singleton].
    intros x Hx ->%list_elem_of_singleton. by apply lookup_entry_None in E.
  - clear Hnd. induction Hall as [|[k c'] es Hk Hall IH]; simpl.
    + apply Forall_singleton. by split.
    + destruct (decide (k = nm)) as [->|Hne]; constructor; done.
Qed.

Lemma wf_names_del_entry (w : bool) (es : list (string * node)) (nm : string) :
  wf_names (Dir w es) = true → wf_names (Dir w (del_entry nm es)) = true.
Proof.
  rewrite !wf_names_Dir. intros [Hnd Hall].
  induction es as [|[k c] es IH]; simpl; [done|].
  apply NoDup_cons in Hnd as [Hk Hnd]. apply Forall_cons in Hall as [Hkc Hall].
  destruct (decide (k = nm)) as [->|Hne]; [done|].
  destruct (IH Hnd Hall) as [IH1 IH2]. split; [|by constructor].
  simpl. apply NoDup_cons. split; [|done].
  intros Hin. apply Hk. clear -Hin.
  induction es as [|[k' c'] es IHes]; simpl in *; [done|].
  destruct (decide (k' = nm)); [by right|].
  apply elem_of_cons in Hin as [->|Hin]; [left|right; auto].
Qed.

Lemma wf_names_del_at (ps : list string) (n : node) :
  wf_names n = true → wf_names (del_at ps n) = true.
Proof.
  revert n. induction ps as [|nm ps IH]; intros n Hwf; [done|].
  destruct n as [c|w es]; [by destruct ps|].
  destruct ps as [|nm' ps]; [by apply wf_names_del_entry|].
  change (del_at (nm :: nm' :: ps) (Dir w es))
    with (match lookup_entry nm es with
          | Some c => Dir w (set_entry nm (del_at (nm' :: ps) c) es)
          | None => Dir w es
          end).
  destruct (lookup_entry nm es) as [c|] eqn:E; [|done].
  apply lookup_entry_Some in E. pose proof Hwf as [_ Hall]%wf_names_Dir.
  rewrite Forall_forall in Hall. destruct (Hall _ E) as [Hnm Hc].
  apply wf_names_set_entry; [done|done|]. by apply IH.
Qed.

Lemma wf_names_fresh_dirs (ps : list string) :
  Forall valid_component ps → wf_names (fresh_dirs ps) = true.
Proof.
  induction 1 as [|nm ps Hnm _ IH]; [done|].
  change (fresh_dirs (nm :: ps)) with (Dir true (set_entry nm (fresh_dirs ps) [])).
  by apply wf_names_set_entry.
Qed.

Lemma wf_names_mkdir_at (b : bool) (ps : list string) (n n' : node) :
  Forall valid_component ps → wf_names n = true →
  mkdir_at b ps n = Ok n' → wf_names n' = true.
Proof.
  intros Hps. revert n n'. induction Hps as [|nm ps Hnm Hps IH]; intros n n' Hwf Hm.
  - destruct n as [c|w es]; simpl in Hm; [done|]. destruct b; [|done].
    by injection Hm as <-.
  - destruct n as [c|w es]; simpl in Hm; [done|].
    destruct (lookup_entry nm es) as [ch|] eqn:E.
    + destruct (mkdir_at b ps ch) as [ch'|] eqn:Em; [|done].
      simpl in Hm. injection Hm as <-.
      apply lookup_entry_Some in E. pose proof Hwf as [_ Hall]%wf_names_Dir.
      rewrite Forall_forall in Hall. destruct (Hall _ E) as [_ Hc].
      apply wf_names_set_entry; [done|done|]. by eapply IH.
    + destruct w; [|done]. injection Hm as <-.
      apply wf_names_set_entry; [done|done|]. by apply wf_names_fresh_dirs.
Qed.

Lemma resolve_fresh_dirs (ps : list string) :
  resolve ps (fresh_dirs ps) = Some (Dir true []).
Proof.
  induction ps as [|nm ps IH]; simpl; [done|]. by rewrite decide_True.
Qed.

(** A directory made without [exist_ok] is new and empty. *)
Lemma mkdir_at_new (ps : list string) (n n' : node) :
  mkdir_at false ps n = Ok n' → resolve ps n' = Some (Dir true []).
Proof.
  revert n n'. induction ps as [|nm ps IH]; intros n n' Hm.
  - by destruct n.
  - destruct n as [c|w es]; simpl in Hm; [done|].
    destruct (lookup_entry nm es) as [ch|] eqn:E.
    + destruct (mkdir_at false ps ch) as [ch'|] eqn:Em; [|done].
      simpl in Hm. injection Hm as <-. simpl.
      rewrite lookup_set_entry, decide_True by done. eauto.
    + destruct w; [|done]. injection Hm as <-. simpl.
      rewrite lookup_set_entry, decide_True by done. apply resolve_fresh_dirs.
Qed.

(** After "Clear output directory" the output root is an empty directory. *)
Lemma clear_output_state (cfg : FileProcessorConfig) (fs0 fs1 : node) :
  wf_names fs0 = true → wf_path (output_dir cfg) →
  clear_output cfg fs0 = Ok fs1 →
  wf_names fs1 = true
  ∧ resolve (parts (output_dir cfg)) fs1 = Some (Dir true []).
Proof.
  intros Hwf Hout. unfold clear_output, rmtree, mkdir.
  assert (Hm : ∀ fs', wf_names fs' = true →
                 mkdir_at false (parts (output_dir cfg)) fs' = Ok fs1 →
                 wf_names fs1 = true
                 ∧ resolve (parts (output_dir cfg)) fs1 = Some (Dir true [])).
  { intros fs' Hwf' Hmk. split; [by eapply wf_names_mkdir_at|by eapply mkdir_at_new]. }
  destruct (exists_ fs0 (output_dir cfg)); [|by apply Hm].
  destruct (parts (output_dir cfg)) as [|nm ps] eqn:Eps; [done|].
  destruct (resolve (nm :: ps) fs0) as [[c|w es]|]; [done| |done].
  intros H. apply (Hm (del_at (nm :: ps) fs0)); [|exact H].
  by apply wf_names_del_at.
Qed.


End Schedule.

(** ** The tree *)

Section Tree.

Lemma insert_sorted_perm {A} (key : A → sort_key) (x : A) (l : list A) :
  insert_sorted key x l ≡ₚ x :: l.
Proof.
  induction l as [|y l IH]; simpl; [done|].
  destruct (key_le (key x) (key y)); [done|].
  rewrite IH. apply Permutation_swap.
Qed.

Lemma sorted_perm {A} (key : A → sort_key) (l : list A) : sorted key l ≡ₚ l.
Proof.
  induction l as [|x l IH]; simpl; [done|].
  unfold sorted in *. simpl. by rewrite insert_sorted_perm, IH.
Qed.

Lemma key_le_total (k1 k2 : sort_key) : key_le k1 k2 = true ∨ key_le k2 k1 = true.
Proof.
  unfold key_le. destruct k1 as [[] s1], k2 as [[] s2]; simpl; auto;
    apply String.leb_total.
Qed.

Lemma leb_trans (s1 s2 s3 : string) :
  String.leb s1 s2 = true → String.leb s2 s3 = true → String.leb s1 s3 = true.
Proof.
  intros H1 H2. apply Is_true_true. apply Is_true_true in H1, H2.
  change (String.le s1 s3). by transitivity s2.
Qed.

Lemma key_le_trans (k1 k2 k3 : sort_key) :
  key_le k1 k2 = true → key_le k2 k3 = true → key_le k1 k3 = true.
Proof.
  unfold key_le. destruct k1 as [[] s1], k2 as [[] s2], k3 as [[] s3]; simpl;
    try done; apply leb_trans.
Qed.

Lemma insert_sorted_sorted {A} (key : A → sort_key) (x : A) (l : list A) :
  StronglySorted (λ a b, key_le (key a) (key b) = true) l →
  StronglySorted (λ a b, key_le (key a) (key b) = true) (insert_sorted key x l).
Proof.
  induction 1 as [|y l Hl IH Hy]; simpl.
  - repeat constructor.
  - destruct (key_le (key x) (key y)) eqn:E.
    + constructor; [by constructor|]. constructor; [done|].
      eapply Forall_impl; [done|]. intros z Hz. simpl in Hz.
      by eapply key_le_trans.
    + constructor; [done|]. rewrite insert_sorted_perm. constructor; [|done].
      by destruct (key_le_total (key x) (key y)) as [H|H]; [rewrite H in E|].
Qed.

(** [sorted] orders by the key, here directories first and then by the
    lower-cased name, and keeps the elements. *)
Lemma sorted_by_key {A} (key : A → sort_key) (l : list A) :
  StronglySorted (λ a b, key_le (key a) (key b) = true) (sorted key l)
  ∧ sorted key l ≡ₚ l.
Proof.
  split; [|apply sorted_perm].
  induction l as [|x l IH]; [constructor|].
  by apply insert_sorted_sorted.
Qed.

Lemma tree_loop_lines (cfg : FileProcessorConfig) (names : list string)
    (prefix : string) (len i : nat) (paths : list tree_child) :
  Forall (λ p, name (tc_path p) ∈ names
               ∧ ∀ pre, Forall (tree_line cfg names) (tc_render p pre)) paths →
  Forall (tree_line cfg names) (tree_loop (ignored_dirs cfg) prefix len i paths).
Proof.
  intros H. revert i. induction H as [|p paths [Hnm Hsub] _ IH]; intros i; simpl.
  - constructor.
  - case_bool_decide as Hign; [apply IH|].
    constructor; [|apply Forall_app; split; [|apply IH]].
    + exists prefix, (if bool_decide (i = len - 1) then "└── " else "├── "),
        (name (tc_path p)).
      repeat split; [|done..]. case_bool_decide; auto.
    + destruct (tc_is_dir p); [apply Hsub|constructor].
Qed.

Lemma tree_node_lines (cfg : FileProcessorConfig) (n : node) :
  ∀ path prefix, Forall (tree_line cfg (entry_names n)) (tree_node cfg n path prefix).
Proof.
  induction n as [c|w es IH] using node_ind'; intros path prefix.
  - simpl. repeat case_match; constructor.
  - simpl. case_bool_decide; [constructor|].
    destruct (is_ok _); simpl; [|constructor].
    destruct w; [|constructor].
    apply tree_loop_lines. rewrite sorted_perm.
    apply Forall_fmap, Forall_forall. intros e He. simpl.
    assert (Hsub : ∀ x, x ∈ e.1 :: entry_names e.2 → x ∈ entry_names (Dir true es)).
    { intros x Hx. simpl. apply list_elem_of_In, in_flat_map. exists e.
      split; by apply list_elem_of_In. }
    split.
    + rewrite name_child. apply Hsub. left.
    + intros pre. rewrite Forall_forall in IH.
      eapply Forall_impl; [apply (IH e He)|].
      intros line (pre' & conn & nm & ? & ? & Hnm & ?).
      exists pre', conn, nm. repeat split; [done..| |done].
      apply Hsub. by right.
Qed.

(** C9: every line of the tree names an entry that is not ignored; the
    result is empty when the name of the path is ignored, when the path is
    not under the text-output root, and when the directory cannot be
    listed, for the path given as for a directory below it. *)
Theorem generate_tree_pruned (cfg : FileProcessorConfig) (fs0 : node) (path : Path)
    (prefix : string) :
  (∀ lines line, _generate_tree cfg fs0 path prefix = Ok lines → line ∈ lines →
     ∃ n, resolve (parts path) fs0 = Some n ∧ tree_line cfg (entry_names n) line)
  ∧ (name path ∈ ignored_dirs cfg → _generate_tree cfg fs0 path prefix = Ok [])
  ∧ (is_ok (relative_to path (text_output cfg)) = false →
     _generate_tree cfg fs0 path prefix = Ok [])
  ∧ (∀ es, resolve (parts path) fs0 = Some (Dir false es) →
     _generate_tree cfg fs0 path prefix = Ok [])
  ∧ (∀ es, tree_node cfg (Dir false es) path prefix = []).
Proof.
  unfold _generate_tree. repeat split.
  - intros lines line.
    case_bool_decide as Hign; [by intros [= <-] ?%elem_of_nil|].
    destruct (is_ok _); simpl; [|by intros [= <-] ?%elem_of_nil].
    destruct (resolve (parts path) fs0) as [[c|w es]|]; [done| |done].
    intros [= <-] Hin. eexists. split; [done|].
    pose proof (tree_node_lines cfg (Dir w es) path prefix) as H.
    rewrite Forall_forall in H. by apply H.
  - intros H. by rewrite bool_decide_eq_true_2.
  - intros ->. simpl. by case_bool_decide.
  - intros es ->. simpl. repeat case_match; done.
  - intros es. simpl. repeat case_match; done.
Qed.

End Tree.

Lemma generate_tree_pruned_witness :
  name (parse "proj/src/venv") ∈ ignored_dirs cfg_py
  ∧ _generate_tree cfg_py fs_project (parse "proj/src/venv") "" = Ok [].
Proof.
  assert (H : name (parse "proj/src/venv") ∈ ignored_dirs cfg_py).
  { change ("venv" ∈ ({[ "venv" ]} : gset string)). by apply elem_of_singleton. }
  split; [exact H|].
  exact (proj1 (proj2 (generate_tree_pruned cfg_py fs_project
                         (parse "proj/src/venv") "")) H).
Defined.

(** C8 fails on the code: [is_last] counts the ignored children too.  In a
    directory whose last child in sort order is ignored, the last child
    shown gets ["├── "] and its subtree the prefix ["│   "]; without the
    ignored child the same directory is drawn with ["└── "] and spaces. *)
Theorem generate_tree_trailing_ignored :
  _generate_tree cfg_py fs_trailing_ignored (source_dir cfg_py) ""
  = Ok ["├── pkg"; "│   └── a.py"]
  ∧ _generate_tree cfg_py fs_without_ignored (source_dir cfg_py) ""
    = Ok ["└── pkg"; "    └── a.py"].
Proof. split; by vm_compute. Qed.

(** ** Clearing the output directory *)

Section ClearingFacts.

Lemma del_at_absent (ps : list string) (n : node) :
  resolve ps n = None → del_at ps n = n.
Proof.
  revert n. induction ps as [|nm ps IH]; intros n Hres; [done|].
  destruct n as [c|w es]; [by destruct ps|]. simpl in Hres.
  destruct (lookup_entry nm es) as [ch|] eqn:E.
  - destruct ps as [|nm' ps]; [done|].
    change (del_at (nm :: nm' :: ps) (Dir w es))
      with (match lookup_entry nm es with
            | Some c => Dir w (set_entry nm (del_at (nm' :: ps) c) es)
            | None => Dir w es
            end).
    rewrite E, (IH ch Hres). by rewrite set_entry_same.
  - destruct ps as [|nm' ps].
    + simpl. f_equal. clear Hres. induction es as [|[k c] es IHes]; [done|].
      simpl in *. destruct (decide (k = nm)); [done|]. by rewrite IHes.
    + change (del_at (nm :: nm' :: ps) (Dir w es))
        with (match lookup_entry nm es with
              | Some c => Dir w (set_entry nm (del_at (nm' :: ps) c) es)
              | None => Dir w es
              end).
      by rewrite E.
Qed.

(** Clearing the output root only depends on the rest of the file system. *)
Lemma clear_output_del_at (cfg : FileProcessorConfig) (fs0 : node) :
  is_file fs0 (output_dir cfg) = false →
  clear_output cfg fs0
  = match parts (output_dir cfg) with
    | [] => Raise OSError
    | _ => mkdir false (del_at (parts (output_dir cfg)) fs0) (output_dir cfg)
    end.
Proof.
  unfold clear_output, is_file, exists_, rmtree. intros Hfile.
  destruct (resolve (parts (output_dir cfg)) fs0) as [[c|w es]|] eqn:Hres; [done|..].
  - rewrite bool_decide_eq_true_2 by eauto.
    destruct (parts (output_dir cfg)); done.
  - rewrite bool_decide_eq_false_2 by (by intros [? ?]).
    rewrite (del_at_absent _ _ Hres).
    destruct (parts (output_dir cfg)); [done|]. done.
Qed.

Lemma clear_output_file (cfg : FileProcessorConfig) (fs0 : node) :
  is_file fs0 (output_dir cfg) = true →
  clear_output cfg fs0
  = Raise (match parts (output_dir cfg) with
           | [] => OSError
           | _ => NotADirectoryError
           end).
Proof.
  unfold clear_output, is_file, exists_, rmtree. intros Hfile.
  destruct (resolve (parts (output_dir cfg)) fs0) as [[c|w es]|] eqn:Hres; [|done..].
  rewrite bool_decide_eq_true_2 by eauto.
  destruct (parts (output_dir cfg)); done.
Qed.

Lemma clear_output_same (cfg : FileProcessorConfig) (fs_a fs_b : node) :
  is_file fs_a (output_dir cfg) = is_file fs_b (output_dir cfg) →
  del_at (parts (output_dir cfg)) fs_a = del_at (parts (output_dir cfg)) fs_b →
  clear_output cfg fs_a = clear_output cfg fs_b.
Proof.
  intros Hfile Hsame. destruct (is_file fs_b (output_dir cfg)) eqn:Hb.
  - by rewrite (clear_output_file cfg fs_a Hfile), (clear_output_file cfg fs_b Hb).
  - by rewrite (clear_output_del_at cfg fs_a Hfile),
      (clear_output_del_at cfg fs_b Hb), Hsame.
Qed.

End ClearingFacts.

(** * Further properties of the processor *)

(** ** What ends a run *)

Section Ending.

Lemma process_file_never_raises (cfg : FileProcessorConfig) (fs0 : node) (p : Path) :
  ∃ d, process_file cfg fs0 p = Ok d.
Proof.
  unfold process_file. destruct (read_text fs0 p); simpl; [|by eauto].
  destruct (relative_to p (source_dir cfg)); simpl; eauto.
Qed.

Lemma write_all_reads_ok (fuel : nat) (cfg : FileProcessorConfig) (fs1 : node)
    (files : list Path) :
  ∀ st r, write_all fuel cfg st (map (process_file cfg fs1) files) = Some r →
          ∃ st', r = Ok st'.
Proof.
  induction files as [|p files IH]; intros st r; cbn [map write_all].
  - intros [= <-]. eauto.
  - destruct (process_file_never_raises cfg fs1 p) as [d ->].
    destruct (write_output_file fuel cfg st d) as [st1|]; [|done].
    cbn [mbind option_bind]. apply IH.
Qed.

(** X1: what ends a run.  It raises when clearing the output directory
    raises, with that exception, and when the pool cannot be made
    ([max_workers] is 0), then with [ValueError] and after the output
    directory was cleared; in no other case: no failure of a read, of a
    write or of a generator ends the run.  An output path that is a regular
    file is a case of the first kind. *)
Theorem process_directory_raises (cfg : FileProcessorConfig) (fs0 : node) :
  (∀ e, clear_output cfg fs0 = Raise e →
        ∀ fuel, process_directory fuel cfg fs0 = Some (Raise e))
  ∧ (∀ fs1, clear_output cfg fs0 = Ok fs1 → max_workers cfg = 0 →
       ∀ fuel, process_directory fuel cfg fs0 = Some (Raise ValueError))
  ∧ (∀ fs1, clear_output cfg fs0 = Ok fs1 → 0 < max_workers cfg →
       ∀ fuel r, process_directory fuel cfg fs0 = Some r →
                 ∃ res fs', r = Ok (res, fs'))
  ∧ (is_file fs0 (output_dir cfg) = true →
     ∃ e, ∀ fuel, process_directory fuel cfg fs0 = Some (Raise e)).
Proof.
  split_and!.
  - intros e He fuel. unfold process_directory. by rewrite He.
  - intros fs1 Hc Hw fuel. unfold process_directory, ThreadPoolExecutor.
    by rewrite Hc, Hw.
  - intros fs1 Hc Hw fuel r. rewrite process_directory_pool by done.
    rewrite Hc.
    destruct (write_all _ _ _ _) as [r1|] eqn:Ew; [|done].
    apply write_all_reads_ok in Ew as [st ->]. cbn [mbind option_bind].
    destruct (generate_tree_output cfg (fs st)) as [t fs2].
    destruct (generate_combined_output cfg _) as [c fs3].
    intros [= <-]. eauto.
  - intros Hfile. eexists. intros fuel. unfold process_directory.
    by rewrite (clear_output_file cfg fs0 Hfile).
Qed.

Lemma process_directory_raises_witness :
  (clear_output cfg_no_workers fs_empty_out = Ok fs_empty_out
   ∧ max_workers cfg_no_workers = 0)
  ∧ ∀ fuel, process_directory fuel cfg_no_workers fs_empty_out
            = Some (Raise ValueError).
Proof.
  assert (H : clear_output cfg_no_workers fs_empty_out = Ok fs_empty_out
              ∧ max_workers cfg_no_workers = 0) by (split; reflexivity).
  split; [exact H|].
  exact (proj1 (proj2 (process_directory_raises cfg_no_workers fs_empty_out))
           fs_empty_out (proj1 H) (proj2 H)).
Defined.

End Ending.

(** ** The generators *)

Section Generators.

Lemma combined_content_Raise (fs0 : node) (files : list Path) (p : Path) :
  p ∈ files → is_ok (read_text fs0 p) = false →
  ∃ e, combined_content fs0 files = Raise e.
Proof.
  intros Hin Hp. induction files as [|q files IH]; [by apply elem_of_nil in Hin|].
  simpl. unfold combined_block.
  destruct (read_text fs0 q) as [c|e] eqn:Eq; simpl; [|by eauto].
  apply elem_of_cons in Hin as [->|Hin]; [by rewrite Eq in Hp|].
  destruct (IH Hin) as [e ->]. simpl. eauto.
Qed.

(** X2: the combined text is all or nothing: one recorded file that cannot
    be read makes the result the empty text, and the file system, with
    [combined.txt] in it, stays as it is. *)
Theorem generate_combined_output_all_or_nothing (cfg : FileProcessorConfig)
    (st : State) (p : Path) :
  p ∈ processed_files st → is_ok (read_text (fs st) p) = false →
  generate_combined_output cfg st = ("", fs st).
Proof.
  intros Hin Hp. unfold generate_combined_output.
  by destruct (combined_content_Raise (fs st) (processed_files st) p Hin Hp) as [e ->].
Qed.

Lemma generate_combined_output_all_or_nothing_witness :
  (parse "out/gone.py" ∈ processed_files st_missing
   ∧ is_ok (read_text (fs st_missing) (parse "out/gone.py")) = false)
  ∧ generate_combined_output cfg_flat st_missing = ("", fs st_missing).
Proof.
  assert (H : parse "out/gone.py" ∈ processed_files st_missing
              ∧ is_ok (read_text (fs st_missing) (parse "out/gone.py")) = false).
  { split; [|reflexivity]. right. left. }
  split; [exact H|].
  exact (generate_combined_output_all_or_nothing cfg_flat st_missing
           (parse "out/gone.py") (proj1 H) (proj2 H)).
Defined.

Lemma generate_tree_output_frame (cfg : FileProcessorConfig) (fs0 : node)
    (p : Path) (c : string) :
  parts p ≠ parts (absolute (text_output cfg) </> "combined.tree.txt") →
  read_text fs0 p = Ok c → read_text (generate_tree_output cfg fs0).2 p = Ok c.
Proof.
  intros Hne Hp. unfold generate_tree_output.
  destruct (_generate_tree _ _ _ _) as [lines|]; [|done].
  destruct (mkdir true fs0 (text_output cfg)) as [fs1|] eqn:Em; [|done].
  assert (Hp1 : read_text fs1 p = Ok c).
  { apply read_text_Ok. apply read_text_Ok in Hp.
    by apply (mkdir_at_resolve_file _ _ _ _ _ _ Em). }
  destruct (write_text fs1 _ _) as [fs2|] eqn:Ew; [|done]. simpl.
  apply read_text_Ok in Hp1. apply read_text_Ok.
  rewrite (write_at_resolve_file _ _ _ _ _ _ Ew Hp1). by rewrite decide_False.
Qed.

(** X3: the tree text returned is empty or is what [combined.tree.txt]
    holds afterwards, and writing the artefact changes the content of no
    other file. *)
Theorem generate_tree_output_artefact (cfg : FileProcessorConfig) (fs0 fs' : node)
    (text : string) :
  let tree_file := absolute (text_output cfg) </> "combined.tree.txt" in
  generate_tree_output cfg fs0 = (text, fs') →
  (text = "" ∨ read_text fs' tree_file = Ok text)
  ∧ (∀ p c, parts p ≠ parts tree_file → read_text fs0 p = Ok c →
            read_text fs' p = Ok c).
Proof.
  intros tree_file. unfold generate_tree_output. fold tree_file.
  destruct (_generate_tree _ _ _ _) as [lines|];
    [|intros [= <- <-]; split; [by left|done]].
  destruct (mkdir true fs0 (text_output cfg)) as [fs1|] eqn:Em;
    [|intros [= <- <-]; split; [by left|done]].
  assert (Hk : ∀ p c, read_text fs0 p = Ok c → read_text fs1 p = Ok c).
  { intros p c Hp. apply read_text_Ok. apply read_text_Ok in Hp.
    by apply (mkdir_at_resolve_file _ _ _ _ _ _ Em). }
  destruct (write_text fs1 tree_file _) as [fs2|] eqn:Ew; intros [= <- <-].
  - split.
    + right. apply read_text_Ok. by eapply write_at_resolve_self.
    + intros p c Hne Hp. apply Hk, read_text_Ok in Hp. apply read_text_Ok.
      rewrite (write_at_resolve_file _ _ _ _ _ _ Ew Hp). by rewrite decide_False.
  - split; [by left|]. intros p c _. apply Hk.
Qed.

Lemma generate_tree_output_artefact_witness :
  generate_tree_output cfg_flat fs_outside
  = ((generate_tree_output cfg_flat fs_outside).1,
     (generate_tree_output cfg_flat fs_outside).2)
  ∧ read_text (generate_tree_output cfg_flat fs_outside).2 (parse "other/x.py")
    = Ok "outside".
Proof.
  assert (H : generate_tree_output cfg_flat fs_outside
              = ((generate_tree_output cfg_flat fs_outside).1,
                 (generate_tree_output cfg_flat fs_outside).2)) by reflexivity.
  split; [exact H|].
  apply (proj2 (generate_tree_output_artefact cfg_flat fs_outside _ _ H));
    [by vm_compute|reflexivity].
Defined.

(** X4: the scope guard tests the source root against the text-output
    root, so when [source_dir] is not (lexically) under [text_output], or is
    itself an ignored name, the tree text is empty whatever the source
    holds, for the generator and for a whole run. *)
Theorem tree_empty_outside_scope (cfg : FileProcessorConfig) (fs0 : node) :
  is_ok (relative_to (source_dir cfg) (text_output cfg)) = false
  ∨ name (source_dir cfg) ∈ ignored_dirs cfg →
  (generate_tree_output cfg fs0).1 = ""
  ∧ ∀ fuel r fs', process_directory fuel cfg fs0 = Some (Ok (r, fs')) →
                  tree_output r = "".
Proof.
  intros Hout.
  assert (Hgen : ∀ fs1 prefix, _generate_tree cfg fs1 (source_dir cfg) prefix = Ok []).
  { intros fs1 prefix. unfold _generate_tree. destruct Hout as [Hrel|Hign].
    - rewrite Hrel. simpl. by case_bool_decide.
    - by rewrite bool_decide_eq_true_2. }
  assert (Htree : ∀ fs1, (generate_tree_output cfg fs1).1 = "").
  { intros fs1. unfold generate_tree_output. rewrite Hgen. simpl.
    destruct (mkdir true fs1 (text_output cfg)); [|done].
    by destruct (write_text _ _ _). }
  split; [apply Htree|]. intros fuel r fs' Hrun.
  rewrite process_directory_pool in Hrun by (by eapply process_directory_Ok_pool).
  revert Hrun.
  destruct (clear_output cfg fs0) as [fs1|]; [|done].
  destruct (write_all _ _ _ _) as [[st|]|]; [|done..]. cbn [mbind option_bind].
  pose proof (Htree (fs st)) as Ht.
  destruct (generate_tree_output cfg (fs st)) as [t fs2]. simpl in Ht. subst t.
  destruct (generate_combined_output cfg _) as [c fs3]. by intros [= <- <-].
Qed.

Lemma tree_empty_outside_scope_witness :
  is_ok (relative_to (source_dir cfg_apart) (text_output cfg_apart)) = false
  ∧ (generate_tree_output cfg_apart fs_outside).1 = "".
Proof.
  split; [reflexivity|].
  apply (tree_empty_outside_scope cfg_apart fs_outside). left. reflexivity.
Defined.

End Generators.

(** ** The reader's record *)

Section Record.

Lemma parse_str_relative_any (l : list string) :
  Forall valid_component l →
  parse (str {| anchored := false; parts := l |})
  = {| anchored := false; parts := l |}.
Proof.
  intros Hl. destruct l as [|x l]; [reflexivity|].
  by apply parse_str_relative.
Qed.

(** X5: the record of a file names it relative to the source root: its
    content is what the file holds, and its path, read as a path again and
    joined to the source root, is the path that was read. *)
Theorem process_file_round_trip (cfg : FileProcessorConfig) (fs0 : node)
    (p : Path) (d : FileData) :
  wf_path p → process_file cfg fs0 p = Ok (Some d) →
  read_text fs0 p = Ok (fd_content d)
  ∧ anchored (parse (fd_path d)) = false
  ∧ joinpath (source_dir cfg) (parse (fd_path d)) = p.
Proof.
  intros Hwf. unfold process_file.
  destruct (read_text fs0 p) as [c|]; [|done]. simpl.
  unfold relative_to.
  destruct (bool_decide (anchored p = anchored (source_dir cfg))) eqn:Ea; [|done].
  destruct (bool_decide (parts (source_dir cfg) `prefix_of` parts p)) eqn:Ep; [|done].
  simpl. intros [= <-]. cbn [fd_content fd_path].
  apply bool_decide_eq_true in Ea. apply bool_decide_eq_true in Ep as [rest Hrest].
  rewrite Hrest, drop_app_length.
  assert (Hvalid : Forall valid_component rest).
  { unfold wf_path in Hwf. rewrite Hrest in Hwf. by apply Forall_app in Hwf as [_ ?]. }
  pose proof (parse_str_relative_any rest Hvalid) as Hparse.
  split; [done|]. split.
  - change (anchored (parse (str {| anchored := false; parts := rest |})) = false).
    by rewrite Hparse.
  - rewrite Hparse. unfold joinpath. cbn [anchored parts].
    destruct p as [a ps]. simpl in *. by subst.
Qed.

Lemma process_file_round_trip_witness :
  wf_path (parse "src/a.py")
  ∧ joinpath (source_dir cfg_flat)
      (parse (fd_path {| fd_path := "a.py"; fd_content := "inside" |}))
    = parse "src/a.py".
Proof.
  assert (H : wf_path (parse "src/a.py")) by apply parse_wf.
  split; [exact H|].
  apply (process_file_round_trip cfg_flat fs_outside (parse "src/a.py")
           {| fd_path := "a.py"; fd_content := "inside" |} H).
  reflexivity.
Defined.

End Record.

(** ** Clearing the output directory *)

Section Clearing.

Lemma lookup_del_entry_ne (k nm : string) (es : list (string * node)) :
  k ≠ nm → lookup_entry k (del_entry nm es) = lookup_entry k es.
Proof.
  intros Hne. induction es as [|[k' c] es IH]; simpl; [done|].
  destruct (decide (k' = nm)) as [->|Hk]; simpl.
  - by rewrite decide_False.
  - by rewrite IH.
Qed.

(** Removing a directory leaves the files outside it. *)
Lemma del_at_resolve_file (qs ps : list string) (n : node) (x : option string) :
  ¬ qs `prefix_of` ps → resolve ps n = Some (File x) →
  resolve ps (del_at qs n) = Some (File x).
Proof.
  revert ps n. induction qs as [|nm qs IH]; intros ps n Hpre Hres.
  - destruct Hpre. apply prefix_nil.
  - destruct n as [c|w es]; [by destruct qs|].
    destruct ps as [|k ps]; [done|]. simpl in Hres.
    destruct qs as [|nm' qs].
    + simpl. rewrite lookup_del_entry_ne; [done|].
      intros ->. apply Hpre. by exists ps.
    + change (del_at (nm :: nm' :: qs) (Dir w es))
        with (match lookup_entry nm es with
              | Some c => Dir w (set_entry nm (del_at (nm' :: qs) c) es)
              | None => Dir w es
              end).
      destruct (lookup_entry nm es) as [ch|] eqn:E; [|done].
      simpl. rewrite lookup_set_entry.
      destruct (decide (k = nm)) as [->|Hne]; [|done].
      rewrite E in Hres. apply IH; [|done].
      intros Hp. apply Hpre. by apply prefix_cons.
Qed.

Lemma rmtree_del_at (fs0 fs1 : node) (p : Path) :
  rmtree fs0 p = Ok fs1 → fs1 = del_at (parts p) fs0.
Proof.
  unfold rmtree. destruct (parts p) as [|nm ps]; [done|].
  destruct (resolve (nm :: ps) fs0) as [[?|w es]|]; congruence.
Qed.

Lemma clear_output_empty (cfg : FileProcessorConfig) (fs0 fs1 : node) :
  clear_output cfg fs0 = Ok fs1 →
  resolve (parts (output_dir cfg)) fs1 = Some (Dir true []).
Proof.
  unfold clear_output. intros Hclear.
  destruct (if exists_ fs0 (output_dir cfg) then _ else _) as [fs'|]; [|done].
  by apply mkdir_at_new in Hclear.
Qed.

Lemma clear_output_frame (cfg : FileProcessorConfig) (fs0 fs1 : node) (p : Path)
    (c : string) :
  clear_output cfg fs0 = Ok fs1 →
  ¬ parts (output_dir cfg) `prefix_of` parts p →
  read_text fs0 p = Ok c → read_text fs1 p = Ok c.
Proof.
  intros Hclear Hpre Hp. apply read_text_Ok. apply read_text_Ok in Hp.
  unfold clear_output in Hclear.
  destruct (exists_ fs0 (output_dir cfg)).
  - destruct (rmtree fs0 (output_dir cfg)) as [fs'|] eqn:Erm; [|done].
    apply rmtree_del_at in Erm as ->.
    apply (mkdir_at_resolve_file _ _ _ _ _ _ Hclear).
    by apply del_at_resolve_file.
  - by apply (mkdir_at_resolve_file _ _ _ _ _ _ Hclear).
Qed.

(** X6: clearing leaves the output root as a new, empty directory: nothing
    of what it held before exists any more, and every file outside it is as
    it was. *)
Theorem clear_output_effect (cfg : FileProcessorConfig) (fs0 fs1 : node) :
  clear_output cfg fs0 = Ok fs1 →
  resolve (parts (output_dir cfg)) fs1 = Some (Dir true [])
  ∧ (∀ p, parts (output_dir cfg) `prefix_of` parts p →
          parts p ≠ parts (output_dir cfg) → exists_ fs1 p = false)
  ∧ (∀ p c, ¬ parts (output_dir cfg) `prefix_of` parts p →
            read_text fs0 p = Ok c → read_text fs1 p = Ok c).
Proof.
  intros Hclear.
  pose proof (clear_output_empty cfg fs0 fs1 Hclear) as Hnew.
  split; [done|]. split.
  - intros p [rest Hrest] Hne. unfold exists_. rewrite Hrest, resolve_app, Hnew.
    apply bool_decide_eq_false. destruct rest as [|r rest]; [|by intros [? ?]].
    destruct Hne. by rewrite Hrest, (right_id_L [] (++)).
  - intros p c. by apply clear_output_frame.
Qed.

Lemma clear_output_effect_witness :
  ∃ fs1, clear_output cfg_flat fs_two_x = Ok fs1
         ∧ resolve (parts (output_dir cfg_flat)) fs1 = Some (Dir true []).
Proof.
  eexists. split; [reflexivity|].
  eapply (proj1 (clear_output_effect cfg_flat fs_two_x _ eq_refl)).
Defined.

(** X7: a source directory that is the output directory, or lies inside
    it, is removed by the clearing before it is walked: nothing is
    collected, and the combined text of the run is empty. *)
Theorem source_inside_output (cfg : FileProcessorConfig) (fs0 : node) :
  parts (output_dir cfg) `prefix_of` parts (source_dir cfg) →
  (∀ fs1, clear_output cfg fs0 = Ok fs1 → collect_files cfg fs1 = [])
  ∧ (∀ fuel r fs', process_directory fuel cfg fs0 = Some (Ok (r, fs')) →
                   combined_output r = "").
Proof.
  intros [rest Hrest].
  assert (Hcol : ∀ fs1, clear_output cfg fs0 = Ok fs1 → collect_files cfg fs1 = []).
  { intros fs1 Hclear.
    pose proof (clear_output_empty cfg fs0 fs1 Hclear) as Hnew.
    unfold collect_files, walk. rewrite Hrest, resolve_app, Hnew. simpl.
    by destruct rest. }
  split; [done|]. intros fuel r fs' Hrun.
  rewrite process_directory_pool in Hrun by (by eapply process_directory_Ok_pool).
  revert Hrun.
  destruct (clear_output cfg fs0) as [fs1|]; [|done].
  rewrite (Hcol fs1 eq_refl). simpl.
  destruct (generate_tree_output cfg fs1) as [t fs2].
  unfold generate_combined_output. simpl.
  destruct (mkdir true fs2 (text_output cfg)) as [fs3|]; [|by intros [= <- <-]].
  destruct (write_text fs3 _ _); by intros [= <- <-].
Qed.

Lemma source_inside_output_witness :
  parts (output_dir cfg_inside) `prefix_of` parts (source_dir cfg_inside)
  ∧ ∀ fs1, clear_output cfg_inside fs_inside = Ok fs1 → collect_files cfg_inside fs1 = [].
Proof.
  assert (H : parts (output_dir cfg_inside) `prefix_of` parts (source_dir cfg_inside))
    by (by exists ["src"]).
  split; [exact H|].
  exact (proj1 (source_inside_output cfg_inside fs_inside H)).
Defined.

End Clearing.

(** ** Overwriting *)

Section Overwriting.

(** X8: a write in flat mode never touches a file that is there: whatever
    the record and the state, every file that could be read before holds
    the same content after. *)
Theorem flat_write_keeps_files (fuel : nat) (cfg : FileProcessorConfig)
    (st st' : State) (file_data : option FileData) :
  mirror_dir_structure cfg = false →
  write_output_file fuel cfg st file_data = Some st' →
  ∀ p c, read_text (fs st) p = Ok c → read_text (fs st') p = Ok c.
Proof.
  intros Hflat Hw p c Hp. apply read_text_Ok. apply read_text_Ok in Hp.
  apply (write_output_file_frame _ _ _ _ _ _ _ Hw); [|done].
  intros d q -> Hq Heq. unfold output_path_of in Hq. rewrite Hflat in Hq.
  apply generate_unique_filename_Some in Hq as [Hfree _].
  unfold exists_ in Hfree. apply bool_decide_eq_false in Hfree.
  apply Hfree. rewrite Heq, Hp. eauto.
Qed.

Lemma flat_write_keeps_files_witness :
  (mirror_dir_structure cfg_flat = false
   ∧ write_output_file 2 cfg_flat st_two_x (Some d_third_x) = Some st_three_x)
  ∧ read_text (fs st_three_x) (parse "out/x.py") = Ok "first".
Proof.
  assert (H : mirror_dir_structure cfg_flat = false
              ∧ write_output_file 2 cfg_flat st_two_x (Some d_third_x) = Some st_three_x)
    by (split; by vm_compute).
  split; [exact H|].
  apply (flat_write_keeps_files 2 cfg_flat st_two_x st_three_x (Some d_third_x)
           (proj1 H) (proj2 H)).
  reflexivity.
Defined.

Lemma write_at_twice (qs : list string) (c c2 : string) (n n' : node) :
  write_at qs c n = Ok n' → ∃ n'', write_at qs c2 n' = Ok n''.
Proof.
  revert n n'. induction qs as [|nm qs IH]; intros n n' Hw; simpl in Hw.
  - destruct n; [|done]. injection Hw as <-. simpl. eauto.
  - destruct n as [?|w es]; [done|].
    destruct (lookup_entry nm es) as [ch|] eqn:E.
    + destruct (write_at qs c ch) as [ch'|] eqn:Ew; [|done].
      simpl in Hw. injection Hw as <-. simpl.
      rewrite lookup_set_entry, decide_True by done.
      destruct (IH _ _ Ew) as [ch'' ->]. simpl. eauto.
    + destruct qs; [|done]. destruct w; [|done]. injection Hw as <-. simpl.
      rewrite lookup_set_entry, decide_True by done. simpl. eauto.
Qed.

Lemma write_at_parent (qs : list string) (c : string) (n n' : node) :
  write_at qs c n = Ok n' → qs ≠ [] →
  ∃ w es, resolve (removelast qs) n' = Some (Dir w es).
Proof.
  revert n n'. induction qs as [|nm qs IH]; intros n n' Hw Hne; [done|].
  simpl in Hw. destruct n as [?|w es]; [done|].
  destruct (lookup_entry nm es) as [ch|] eqn:E.
  - destruct (write_at qs c ch) as [ch'|] eqn:Ew; [|done].
    simpl in Hw. injection Hw as <-.
    destruct qs as [|nm' qs]; [simpl; eauto|].
    change (removelast (nm :: nm' :: qs)) with (nm :: removelast (nm' :: qs)).
    simpl resolve. rewrite lookup_set_entry, decide_True by done.
    by apply (IH ch ch').
  - destruct qs; [|done]. destruct w; [|done]. injection Hw as <-. simpl. eauto.
Qed.

(** X9: mirrored mode does not look for a free name: a record whose path
    was written before is written over the file of the first, the path is
    recorded a second time, and the file holds the second content. *)
Theorem mirrored_write_overwrites (fuel : nat) (cfg : FileProcessorConfig)
    (st st1 : State) (d1 d2 : FileData) (q : Path) :
  mirror_dir_structure cfg = true →
  write_output_file fuel cfg st (Some d1) = Some st1 →
  processed_files st1 = processed_files st ++ [q] →
  fd_path d2 = fd_path d1 →
  ∃ st2, write_output_file fuel cfg st1 (Some d2) = Some st2
         ∧ processed_files st2 = processed_files st ++ [q; q]
         ∧ read_text (fs st2) q = Ok (fd_content d2).
Proof.
  intros Hm Hw Hproc Hpath. unfold write_output_file, output_path_of in *.
  rewrite Hm in *. rewrite Hpath. simpl in *.
  set (q0 := joinpath (output_dir cfg) (parse (fd_path d1))) in *.
  injection Hw as <-.
  destruct (mkdir true (fs st) (parent q0)) as [fs1|] eqn:Em.
  2:{ exfalso. apply (f_equal length) in Hproc. rewrite length_app in Hproc.
      simpl in Hproc. lia. }
  destruct (write_text fs1 q0 (fd_content d1)) as [fs2|] eqn:Ew; simpl in *.
  2:{ exfalso. apply (f_equal length) in Hproc. rewrite length_app in Hproc.
      simpl in Hproc. lia. }
  apply app_inv_head in Hproc. injection Hproc as <-.
  assert (Hne : parts q0 ≠ []).
  { intros E. unfold write_text in Ew. unfold mkdir, parent in Em. simpl in Em.
    rewrite E in *. simpl in *.
    destruct (fs st); [done|]. injection Em as <-. done. }
  destruct (write_at_parent _ _ _ _ Ew Hne) as (w & es & Hpar).
  unfold mkdir, parent. simpl. rewrite (mkdir_at_existing _ _ _ _ Hpar).
  destruct (write_at_twice _ _ (fd_content d2) _ _ Ew) as [fs3 Hw3].
  unfold write_text in *. rewrite Hw3. eexists. split; [done|]. simpl.
  split; [by rewrite <- (assoc_L (++))|].
  apply read_text_Ok. by eapply write_at_resolve_self.
Qed.

Lemma mirrored_write_overwrites_witness :
  (mirror_dir_structure cfg_mirror = true
   ∧ write_output_file 0 cfg_mirror st_empty_out (Some d_first) = Some st_mirror_first)
  ∧ ∃ st2, write_output_file 0 cfg_mirror st_mirror_first (Some d_second) = Some st2
           ∧ processed_files st2
             = processed_files st_empty_out ++ [parse "out/a/x.py"; parse "out/a/x.py"]
           ∧ read_text (fs st2) (parse "out/a/x.py") = Ok (fd_content d_second).
Proof.
  assert (H : mirror_dir_structure cfg_mirror = true
              ∧ write_output_file 0 cfg_mirror st_empty_out (Some d_first)
                = Some st_mirror_first) by (split; by vm_compute).
  split; [exact H|].
  apply (mirrored_write_overwrites 0 cfg_mirror st_empty_out st_mirror_first
           d_first d_second (parse "out/a/x.py") (proj1 H) (proj2 H));
    reflexivity.
Defined.

End Overwriting.

(** ** What the walk collects *)

Section Collection.

Lemma walk_to_not_dir (keep : string → bool) (ds : list string) (n : node)
    (es : list (string * node)) :
  walk_to keep ds n = Some es → ∃ es0, n = Dir true es0.
Proof. destruct n as [?|[] es0], ds; simpl; try done; eauto. Qed.

Lemma walk_to_resolve (keep : string → bool) (ds : list string) :
  ∀ n es, walk_to keep ds n = Some es →
          resolve ds n = Some (Dir true es)
          ∧ Forall (λ d, keep d = true) ds.
Proof.
  induction ds as [|d ds IH]; intros n es H.
  - destruct n as [?|[] es0]; simpl in H; try done. by injection H as ->.
  - destruct n as [?|[] es0]; simpl in H; try done.
    destruct (keep d) eqn:Ek; [|done].
    destruct (lookup_entry d es0) as [c|] eqn:E; [|done].
    simpl. rewrite E. destruct (IH _ _ H) as [? ?]. split; [done|by constructor].
Qed.

Lemma walk_node_iff (keep : string → bool) (n : node) :
  wf_names n = true →
  ∀ top t, t ∈ walk_node keep n top ↔
           ∃ ds es, walk_to keep ds n = Some es
                    ∧ t = (foldl child top ds, List.filter keep (dir_names es),
                           file_names es).
Proof.
  induction n as [c|w es IH] using node_ind'; intros Hwf top t.
  - simpl. split; [by intros ?%elem_of_nil|]. intros (ds & es & H & _). by destruct ds.
  - destruct w; simpl walk_node.
    2:{ split; [by intros ?%elem_of_nil|]. intros (ds & es' & H & _). by destruct ds. }
    apply wf_names_Dir in Hwf as [Hnd Hwf]. rewrite Forall_forall in IH, Hwf.
    rewrite elem_of_cons. split.
    + intros [->|Hin]; [by exists [], es|].
      apply list_elem_of_In, in_flat_map in Hin as (e & He & Hin).
      apply list_elem_of_In in He, Hin.
      destruct (is_dir_node e.2 && keep e.1) eqn:E; [|by apply elem_of_nil in Hin].
      apply andb_true_iff in E as [_ Hkeep]. destruct (Hwf e He) as [_ Hwfe].
      apply (IH e He Hwfe) in Hin as (ds & es' & Hw & ->).
      exists (e.1 :: ds), es'. split; [|done]. destruct e as [k c].
      simpl in *. by rewrite Hkeep, (lookup_entry_NoDup k c es Hnd He).
    + intros (ds & es' & Hw & ->). destruct ds as [|d ds]; simpl in Hw.
      { injection Hw as ->. by left. }
      right. destruct (keep d) eqn:Ek; [|done].
      destruct (lookup_entry d es) as [c|] eqn:E; [|done].
      apply lookup_entry_Some in E.
      destruct (walk_to_not_dir _ _ _ _ Hw) as [es0 ->].
      assert (Hin : (foldl child (child top d) ds, List.filter keep (dir_names es'),
                     file_names es') ∈ walk_node keep (Dir true es0) (child top d)).
      { apply (IH (d, Dir true es0) E); [by apply (Hwf _ E)|]. by exists ds, es'. }
      apply list_elem_of_In, in_flat_map. exists (d, Dir true es0).
      split; [by apply list_elem_of_In|]. cbn [fst snd is_dir_node andb].
      rewrite Ek. by apply list_elem_of_In.
Qed.

Lemma lookup_file_names (f : string) (x : option string) (es : list (string * node)) :
  lookup_entry f es = Some (File x) → f ∈ file_names es.
Proof.
  intros H. apply lookup_entry_Some in H. unfold file_names.
  apply list_elem_of_fmap. exists (f, File x). split; [done|].
  apply list_elem_of_In, filter_In. split; [by apply list_elem_of_In|done].
Qed.

(** X10: what is collected, exactly: the files whose path string ends with
    a configured extension and whose name is not an ignored file, in the
    directories the walk reaches from the source root through directories
    that can be listed and whose names are not ignored. *)
Theorem collect_files_iff (cfg : FileProcessorConfig) (fs0 : node) (p : Path) :
  wf_names fs0 = true →
  p ∈ collect_files cfg fs0 ↔
  ∃ n ds file es x,
    resolve (parts (source_dir cfg)) fs0 = Some n
    ∧ walk_to (λ d, bool_decide (d ∉ ignored_dirs cfg)) ds n = Some es
    ∧ lookup_entry file es = Some (File x)
    ∧ p = child (foldl child (source_dir cfg) ds) file
    ∧ should_process_file cfg p = true.
Proof.
  intros Hwf. unfold collect_files, walk. split.
  - intros Hin.
    destruct (resolve (parts (source_dir cfg)) fs0) as [n|] eqn:Hres;
      [|by apply elem_of_nil in Hin].
    assert (Hwfn : wf_names n = true) by (by eapply wf_names_resolve).
    apply list_elem_of_In, in_flat_map in Hin as ([[root dirs] files] & Ht & Hin).
    apply list_elem_of_In in Ht.
    apply filter_In in Hin as [Hin Hsel]. apply in_map_iff in Hin as (file & <- & Hfile).
    apply (walk_node_iff _ n Hwfn) in Ht as (ds & es & Hw & [= -> -> ->]).
    destruct (walk_to_resolve _ _ _ _ Hw) as [Hdir _].
    assert (Hwfd : wf_names (Dir true es) = true) by (by eapply wf_names_resolve).
    pose proof (file_names_valid _ _ Hwfd) as Hvalid.
    rewrite Forall_forall in Hvalid. apply list_elem_of_In in Hfile.
    pose proof (Hvalid _ Hfile) as Hf.
    apply wf_names_Dir in Hwfd as [Hnd _].
    destruct (file_names_lookup file es Hnd Hfile) as [x Hx].
    exists n, ds, file, es, x. by rewrite div_component in * by done.
  - intros (n & ds & file & es & x & Hres & Hw & Hx & -> & Hsel). rewrite Hres.
    assert (Hwfn : wf_names n = true) by (by eapply wf_names_resolve).
    destruct (walk_to_resolve _ _ _ _ Hw) as [Hdir _].
    assert (Hwfd : wf_names (Dir true es) = true) by (by eapply wf_names_resolve).
    pose proof (file_names_valid _ _ Hwfd) as Hvalid. rewrite Forall_forall in Hvalid.
    pose proof (lookup_file_names _ _ _ Hx) as Hfile.
    apply list_elem_of_In, in_flat_map.
    exists (foldl child (source_dir cfg) ds,
            List.filter (λ d, bool_decide (d ∉ ignored_dirs cfg)) (dir_names es),
            file_names es).
    split.
    + apply list_elem_of_In, (walk_node_iff _ n Hwfn). by exists ds, es.
    + apply filter_In. split; [|done]. apply in_map_iff. exists file.
      split; [|by apply list_elem_of_In]. apply div_component. by apply Hvalid.
Qed.

Lemma collect_files_iff_witness :
  wf_names fs_project = true ∧ parse "proj/src/sub/x.py" ∈ collect_files cfg_py fs_project.
Proof.
  assert (H : wf_names fs_project = true) by reflexivity.
  split; [exact H|].
  apply (proj2 (collect_files_iff cfg_py fs_project (parse "proj/src/sub/x.py") H)).
  eexists _, ["sub"], "x.py", _, _. split_and!; reflexivity.
Defined.

Lemma flat_map_filter {A B} (P : B → bool) (g : A → list B) (l : list A) :
  flat_map (λ a, List.filter P (g a)) l = List.filter P (flat_map g l).
Proof.
  induction l as [|a l IH]; simpl; [done|]. by rewrite IH, List.filter_app.
Qed.

Lemma collect_files_walk_files (cfg : FileProcessorConfig) (fs0 : node) :
  collect_files cfg fs0
  = List.filter (should_process_file cfg)
      (flat_map walk_files
         (walk (λ d, bool_decide (d ∉ ignored_dirs cfg)) fs0 (source_dir cfg))).
Proof.
  unfold collect_files. rewrite <- flat_map_filter.
  apply flat_map_ext. by intros [[root dirs] files].
Qed.

Lemma file_names_NoDup (es : list (string * node)) :
  NoDup es.*1 → NoDup (file_names es).
Proof.
  unfold file_names. induction es as [|[k c] es IH]; simpl; [done|].
  intros [Hk Hnd]%NoDup_cons. destruct (is_file_node c); simpl; [|by apply IH].
  apply NoDup_cons. split; [|by apply IH].
  intros Hin. apply Hk. apply list_elem_of_fmap in Hin as (e & -> & He).
  apply list_elem_of_In, filter_In in He as [He _].
  apply list_elem_of_fmap. exists e. split; [done|by apply list_elem_of_In].
Qed.

Lemma walk_files_below (keep : string → bool) (n : node) (top x : Path) :
  wf_names n = true →
  x ∈ flat_map walk_files (walk_node keep n top) →
  ∃ ds file, parts x = parts top ++ ds ++ [file].
Proof.
  intros Hwf Hin.
  apply list_elem_of_In, in_flat_map in Hin as (t & Ht & Hin).
  apply list_elem_of_In in Ht.
  apply (walk_node_In keep n top t Hwf) in Ht as (ds & es & Hroot & _ & Hdir & Hfiles).
  unfold walk_files in Hin. apply in_map_iff in Hin as (file & <- & Hfile).
  rewrite Hfiles in Hfile. rewrite Hroot.
  assert (Hwfd : wf_names (Dir true es) = true) by (by eapply wf_names_resolve).
  pose proof (file_names_valid _ _ Hwfd) as Hvalid. rewrite Forall_forall in Hvalid.
  apply list_elem_of_In in Hfile. rewrite div_component by (by apply Hvalid).
  exists ds, file. simpl. destruct (parts_descend top ds) as [-> _].
  by rewrite <- (assoc_L (++)).
Qed.

Lemma walk_files_NoDup (keep : string → bool) (n : node) :
  wf_names n = true → ∀ top, NoDup (flat_map walk_files (walk_node keep n top)).
Proof.
  induction n as [c|w es IH] using node_ind'; intros Hwf top; [apply NoDup_nil_2|].
  destruct w; [|apply NoDup_nil_2].
  apply wf_names_Dir in Hwf as [Hnd Hwf].
  set (h := λ e : string * node,
              if is_dir_node e.2 && keep e.1
              then walk_node keep e.2 (child top e.1) else []).
  change (NoDup (map (λ file, top </> file) (file_names es)
                 ++ flat_map walk_files (flat_map h es))).
  assert (Hbelow : ∀ es' x, Forall (λ e, valid_component e.1 ∧ wf_names e.2 = true) es' →
            x ∈ flat_map walk_files (flat_map h es') →
            ∃ e ds file, e ∈ es' ∧ parts x = parts top ++ e.1 :: ds ++ [file]).
  { intros es' x Hwf' Hin. rewrite Forall_forall in Hwf'.
    apply list_elem_of_In, in_flat_map in Hin as (t & Ht & Hin).
    apply in_flat_map in Ht as (e & He & Ht). apply list_elem_of_In in He.
    unfold h in Ht. destruct (is_dir_node e.2 && keep e.1); [|done].
    destruct (walk_files_below keep e.2 (child top e.1) x) as (ds & file & Hx).
    - by apply Hwf'.
    - apply list_elem_of_In, in_flat_map. by exists t.
    - exists e, ds, file. split; [done|]. rewrite Hx. simpl.
      by rewrite <- (assoc_L (++)). }
  apply NoDup_app. split; [|split].
  - assert (Hvalid : Forall valid_component (file_names es)).
    { apply (file_names_valid true). apply wf_names_Dir. by split. }
    rewrite (map_ext_in _ (child top)).
    + apply (NoDup_fmap_2_strong (child top)); [|by apply file_names_NoDup].
      intros f f' _ _ H. apply (f_equal parts) in H. simpl in H.
      by apply app_inj_tail in H as [_ ?].
    + intros f Hf. apply div_component. rewrite Forall_forall in Hvalid.
      by apply Hvalid, list_elem_of_In.
  - intros x Hx Hx'. apply list_elem_of_In, in_map_iff in Hx as (f & <- & Hf).
    apply Hbelow in Hx' as (e & ds & file & _ & Hparts); [|done].
    assert (Hvalid : valid_component f).
    { assert (Hv : Forall valid_component (file_names es)).
      { apply (file_names_valid true). apply wf_names_Dir. by split. }
      rewrite Forall_forall in Hv. by apply Hv, list_elem_of_In. }
    rewrite div_component in Hparts by done. simpl in Hparts.
    apply app_inv_head in Hparts. apply (f_equal length) in Hparts.
    simpl in Hparts. rewrite length_app in Hparts. simpl in Hparts. lia.
  - revert IH Hnd Hwf. induction es as [|e es IHes]; intros IH Hnd Hwf;
      [apply NoDup_nil_2|].
    rewrite fmap_cons in Hnd.
    change (flat_map h (e :: es)) with (h e ++ flat_map h es).
    apply Forall_cons in IH as [IHe IH]. apply Forall_cons in Hwf as [[Hve Hwfe] Hwf].
    apply NoDup_cons in Hnd as [He Hnd].
    rewrite flat_map_app. apply NoDup_app. split; [|split].
    + unfold h. destruct (is_dir_node e.2 && keep e.1); [by apply IHe|apply NoDup_nil_2].
    + intros x Hx Hx'.
      destruct (Hbelow [e] x) as (e1 & ds1 & f1 & He1 & Hp1).
      { apply Forall_cons. split; [done|apply Forall_nil_2]. }
      { simpl. by rewrite (right_id_L [] (++)). }
      destruct (Hbelow es x Hwf Hx') as (e2 & ds2 & f2 & He2 & Hp2).
      apply list_elem_of_singleton in He1 as ->.
      rewrite Hp1 in Hp2. apply app_inv_head in Hp2. injection Hp2 as Hname _.
      apply He. rewrite Hname. apply list_elem_of_fmap. by exists e2.
    + by apply IHes.
Qed.

Lemma collect_files_NoDup_aux (cfg : FileProcessorConfig) (fs0 : node) :
  wf_names fs0 = true → NoDup (collect_files cfg fs0).
Proof.
  intros Hwf. rewrite collect_files_walk_files. apply NoDup_ListNoDup, List.NoDup_filter,
    NoDup_ListNoDup.
  unfold walk. destruct (resolve (parts (source_dir cfg)) fs0) as [n|] eqn:Hres;
    [|apply NoDup_nil_2].
  apply walk_files_NoDup. by eapply wf_names_resolve.
Qed.

(** X11: no file is collected twice. *)
Theorem collect_files_NoDup (cfg : FileProcessorConfig) (fs0 : node) :
  wf_names fs0 = true → NoDup (collect_files cfg fs0).
Proof. apply collect_files_NoDup_aux. Qed.

Lemma collect_files_NoDup_witness :
  wf_names fs_project = true ∧ NoDup (collect_files cfg_py fs_project).
Proof.
  assert (H : wf_names fs_project = true) by reflexivity.
  split; [exact H|]. exact (collect_files_NoDup cfg_py fs_project H).
Defined.

End Collection.

(** ** Flat mode *)

Section Flat.

Lemma flat_free_name (fuel : nat) (fs0 : node) (base_path : Path) (nm : string)
    (q : Path) (w : bool) (es : list (string * node)) :
  valid_component nm →
  resolve (parts base_path) fs0 = Some (Dir w es) →
  generate_unique_filename fuel fs0 base_path nm = Some q →
  ∃ k, q = child base_path (flat_name nm k) ∧ flat_name nm k ∉ es.*1.
Proof.
  intros Hnm Hres Hq.
  apply generate_unique_filename_Some in Hq as [Hfree Hq].
  assert (∃ k, q = child base_path (flat_name nm k)) as [k ->].
  { destruct Hq as [->|(_ & n & Hn & _ & -> & _)].
    - exists 0. by apply div_component.
    - destruct n as [|n]; [lia|]. exists (S n). by apply candidate_child. }
  exists k. split; [done|].
  rewrite (exists_child _ _ _ _ _ Hres) in Hfree. by apply bool_decide_eq_false in Hfree.
Qed.

(** As many probes as the directory has entries are enough. *)
Lemma flat_free_fuel (fuel : nat) (fs0 : node) (base_path : Path) (nm : string)
    (w : bool) (es : list (string * node)) :
  valid_component nm →
  resolve (parts base_path) fs0 = Some (Dir w es) →
  length es ≤ fuel →
  is_Some (generate_unique_filename fuel fs0 base_path nm).
Proof.
  intros Hnm Hres Hfuel.
  destruct (exists_ fs0 (base_path </> nm)) eqn:E0;
    [|by rewrite generate_unique_filename_free].
  set (l := map (flat_name nm) (seq 0 (S (length es)))).
  destruct (decide (Forall (λ x, x ∈ es.*1) l)) as [Hall|Hnot].
  { exfalso. assert (Hl : l ⊆+ es.*1).
    { apply NoDup_submseteq; [|by apply Forall_forall].
      apply NoDup_fmap_2; [|apply NoDup_seq]. intros j k. apply flat_name_inj. }
    apply submseteq_length in Hl. unfold l in Hl.
    rewrite length_map, length_seq, length_fmap in Hl. lia. }
  apply not_Forall_Exists in Hnot; [|apply _].
  apply Exists_exists in Hnot as (x & Hx & Hfree).
  apply list_elem_of_fmap in Hx as (k & -> & Hk). apply elem_of_seq in Hk.
  rewrite div_component, (exists_child _ _ _ _ _ Hres) in E0 by done.
  apply bool_decide_eq_true in E0.
  destruct k as [|k]; [done|].
  destruct (first_free (λ m, exists_ fs0 (candidate base_path nm m)) 1 (S k))
    as (n & Hn1 & Hn2 & Hnfree & Hbusy); [lia| |].
  { rewrite candidate_child by done. rewrite (exists_child _ _ _ _ _ Hres).
    by apply bool_decide_eq_false. }
  rewrite (generate_unique_filename_probe fuel fs0 base_path nm n); [done| |lia|lia|done|done].
  rewrite div_component, (exists_child _ _ _ _ _ Hres) by done.
  by apply bool_decide_eq_true.
Qed.

Lemma lookup_entry_app (x : string) (es es' : list (string * node)) :
  lookup_entry x (es ++ es')
  = match lookup_entry x es with Some c => Some c | None => lookup_entry x es' end.
Proof.
  induction es as [|[k c] es IH]; simpl; [done|]. by destruct (decide (k = x)).
Qed.

Lemma flat_write_step_any (fuel : nat) (cfg : FileProcessorConfig) (fs0 : node)
    (processed : list Path) (d : FileData) (es : list (string * node)) (st' : State) :
  mirror_dir_structure cfg = false →
  valid_component (name (parse (fd_path d))) →
  resolve (parts (output_dir cfg)) fs0 = Some (Dir true es) →
  write_output_file fuel cfg {| fs := fs0; processed_files := processed |} (Some d)
  = Some st' →
  ∃ k, (flat_name (name (parse (fd_path d))) k ∉ es.*1)
       ∧ processed_files st'
         = processed ++ [child (output_dir cfg) (flat_name (name (parse (fd_path d))) k)]
       ∧ resolve (parts (output_dir cfg)) (fs st')
         = Some (Dir true (es ++ [(flat_name (name (parse (fd_path d))) k,
                                   File (Some (fd_content d)))])).
Proof.
  intros Hflat Hnm Hres. set (nm := name (parse (fd_path d))) in *.
  unfold write_output_file, output_path_of. rewrite Hflat. fold nm. cbn [fs processed_files].
  rewrite (div_component _ nm Hnm), name_child.
  destruct (generate_unique_filename fuel fs0 (output_dir cfg) nm) as [q|] eqn:Hq; [|done].
  destruct (flat_free_name _ _ _ _ _ _ _ Hnm Hres Hq) as (k & -> & Hk).
  exists k. split; [done|]. cbn [mbind option_bind] in H. injection H as <-.
  rewrite parent_child. unfold mkdir. rewrite (mkdir_at_existing _ _ _ _ Hres).
  destruct (write_at_in_dir (parts (output_dir cfg)) (flat_name nm k)
              (fd_content d) fs0 es Hres) as (fs' & Hw & Hres').
  { intros w' es' E. apply lookup_entry_Some in E. apply Hk.
    apply list_elem_of_fmap. by eexists (_, _). }
  unfold write_text.
  change (parts (child (output_dir cfg) (flat_name nm k)))
    with (parts (output_dir cfg) ++ [flat_name nm k]).
  rewrite Hw. cbn [fs processed_files]. split; [done|]. rewrite Hres'. do 2 f_equal.
  by apply set_entry_fresh, lookup_entry_None.
Qed.

Lemma write_all_flat_any (fuel : nat) (cfg : FileProcessorConfig) (ds : list FileData) :
  mirror_dir_structure cfg = false →
  Forall (λ d, valid_component (name (parse (fd_path d)))) ds →
  ∀ (fs0 : node) (processed : list Path) (es : list (string * node)),
    resolve (parts (output_dir cfg)) fs0 = Some (Dir true es) →
    length es + length ds ≤ S fuel →
    ∃ st xs ents,
      write_all fuel cfg {| fs := fs0; processed_files := processed |}
        (map (λ d, Ok (Some d)) ds) = Some (Ok st)
      ∧ processed_files st = processed ++ map (child (output_dir cfg)) xs
      ∧ resolve (parts (output_dir cfg)) (fs st) = Some (Dir true (es ++ ents))
      ∧ Forall2 (λ x d, (∃ k, x = flat_name (name (parse (fd_path d))) k)
                        ∧ lookup_entry x (es ++ ents)
                          = Some (File (Some (fd_content d)))) xs ds
      ∧ NoDup xs
      ∧ (∀ x, x ∈ xs → x ∉ es.*1).
Proof.
  intros Hflat Hds. induction Hds as [|d ds Hd Hds IH];
    intros fs0 processed es Hres Hfuel.
  - exists {| fs := fs0; processed_files := processed |}, [], []. simpl.
    rewrite !(right_id_L [] (++)). split_and!; try done.
    + apply NoDup_nil_2.
    + by intros x ?%elem_of_nil.
  - simpl in Hfuel. cbn [map write_all].
    destruct (write_output_file fuel cfg {| fs := fs0; processed_files := processed |}
                (Some d)) as [[fs1 pr1]|] eqn:Ew.
    2:{ exfalso. unfold write_output_file, output_path_of in Ew. rewrite Hflat in Ew.
        cbn [fs] in Ew. rewrite (div_component _ _ Hd), name_child in Ew.
        destruct (flat_free_fuel fuel fs0 (output_dir cfg) _ true es Hd Hres) as [q Hq];
          [lia|].
        by rewrite Hq in Ew. }
    destruct (flat_write_step_any _ _ _ _ _ _ _ Hflat Hd Hres Ew) as (k & Hk & Hpr & Hres1).
    cbn [fs processed_files] in Hpr, Hres1. subst pr1.
    set (x := flat_name (name (parse (fd_path d))) k) in *.
    destruct (IH fs1 (processed ++ [child (output_dir cfg) x])
                (es ++ [(x, File (Some (fd_content d)))]) Hres1)
      as (st & xs & ents & Hw & Hpr & Hres2 & Hall & Hnd & Hnew).
    { rewrite length_app. simpl. lia. }
    exists st, (x :: xs), ((x, File (Some (fd_content d))) :: ents).
    cbn [mbind option_bind]. rewrite <- (assoc_L (++)) in Hres2, Hall. simpl in Hres2, Hall.
    split_and!; try done.
    + rewrite Hpr, <- (assoc_L (++)). done.
    + constructor; [|done]. split; [by exists k|].
      rewrite lookup_entry_app. apply lookup_entry_None in Hk. rewrite Hk. simpl.
      by rewrite decide_True.
    + apply NoDup_cons. split; [|done]. intros Hx. apply (Hnew x Hx).
      rewrite fmap_app. apply elem_of_app. right. simpl. left.
    + intros x' [->|Hx']%elem_of_cons; [done|]. intros Hin. apply (Hnew x' Hx').
      rewrite fmap_app. apply elem_of_app. by left.
Qed.

(** X12: flat mode loses no record.  Written into an empty output
    directory, records with valid names, equal or not, all get a file of
    their own: the recorded paths are pairwise distinct, each is the name of
    its record or that name with a counter, directly in the output
    directory, and each file holds the content of its record. *)
Theorem flat_copies_all (fuel : nat) (cfg : FileProcessorConfig) (fs0 : node)
    (ds : list FileData) :
  mirror_dir_structure cfg = false →
  resolve (parts (output_dir cfg)) fs0 = Some (Dir true []) →
  Forall (λ d, valid_component (name (parse (fd_path d)))) ds →
  length ds ≤ S fuel →
  ∃ st,
    write_all fuel cfg {| fs := fs0; processed_files := [] |}
      (map (λ d, Ok (Some d)) ds) = Some (Ok st)
    ∧ NoDup (processed_files st)
    ∧ Forall2 (λ q d,
         (∃ k, q = child (output_dir cfg) (flat_name (name (parse (fd_path d))) k))
         ∧ read_text (fs st) q = Ok (fd_content d))
        (processed_files st) ds.
Proof.
  intros Hflat Hres Hds Hfuel.
  destruct (write_all_flat_any fuel cfg ds Hflat Hds fs0 [] [] Hres Hfuel)
    as (st & xs & ents & Hw & Hpr & Hres' & Hall & Hnd & _).
  exists st. simpl in *. rewrite Hpr. split_and!; [done| |].
  - apply (NoDup_fmap_2_strong (child (output_dir cfg))); [|done].
    intros x y _ _ H. apply (f_equal parts) in H. simpl in H.
    by apply app_inj_tail in H as [_ ?].
  - apply Forall2_fmap_l. eapply Forall2_impl; [done|].
    intros x d [[k ->] Hx]. split; [by exists k|].
    apply read_text_Ok. simpl. rewrite resolve_app, Hres'. simpl. by rewrite Hx.
Qed.

Lemma flat_copies_all_witness :
  (mirror_dir_structure cfg_flat = false
   ∧ resolve (parts (output_dir cfg_flat)) fs_empty_out = Some (Dir true [])
   ∧ Forall (λ d, valid_component (name (parse (fd_path d)))) [d_first; d_third_x]
   ∧ length [d_first; d_third_x] ≤ S 1)
  ∧ ∃ st,
      write_all 1 cfg_flat {| fs := fs_empty_out; processed_files := [] |}
        (map (λ d, Ok (Some d)) [d_first; d_third_x]) = Some (Ok st)
      ∧ NoDup (processed_files st)
      ∧ Forall2 (λ q d,
           (∃ k, q = child (output_dir cfg_flat)
                       (flat_name (name (parse (fd_path d))) k))
           ∧ read_text (fs st) q = Ok (fd_content d))
          (processed_files st) [d_first; d_third_x].
Proof.
  assert (H : mirror_dir_structure cfg_flat = false
              ∧ resolve (parts (output_dir cfg_flat)) fs_empty_out = Some (Dir true [])
              ∧ Forall (λ d, valid_component (name (parse (fd_path d))))
                  [d_first; d_third_x]
              ∧ length [d_first; d_third_x] ≤ S 1).
  { split_and!; [reflexivity|reflexivity| |simpl; lia].
    repeat apply Forall_cons_2; [| |apply Forall_nil_2];
      apply valid_componentb_true; reflexivity. }
  split; [exact H|].
  destruct H as (H1 & H2 & H3 & H4).
  exact (flat_copies_all 1 cfg_flat fs_empty_out [d_first; d_third_x] H1 H2 H3 H4).
Defined.

Lemma write_all_records (fuel : nat) (cfg : FileProcessorConfig) (fs1 : node)
    (files : list Path) :
  ∀ st, write_all fuel cfg st (map (process_file cfg fs1) files)
        = write_all fuel cfg st
            (map (λ d, Ok (Some d)) (records (map (process_file cfg fs1) files))).
Proof.
  induction files as [|p files IH]; intros st; [done|]. cbn [map].
  destruct (process_file_never_raises cfg fs1 p) as [[d|] E]; rewrite E.
  - change (records (Ok (Some d) :: ?l)) with (d :: records l). cbn [map write_all].
    destruct (write_output_file fuel cfg st (Some d)) as [st1|]; [|done].
    cbn [mbind option_bind]. apply IH.
  - change (records (Ok None :: ?l)) with (records l). cbn [write_all write_output_file].
    cbn [mbind option_bind]. apply IH.
Qed.

(** The record of a collected file carries the name of the file. *)
Lemma records_valid (cfg : FileProcessorConfig) (fs0 fs1 : node) :
  wf_names fs0 = true →
  Forall (λ d, valid_component (name (parse (fd_path d))))
    (records (map (process_file cfg fs1) (collect_files cfg fs0))).
Proof.
  intros Hwf. apply Forall_forall. intros d Hd. unfold records in Hd.
  apply list_elem_of_omap in Hd as (r & Hr & Hd).
  destruct r as [[d'|]|]; try done. injection Hd as ->.
  apply list_elem_of_fmap in Hr as (p & Hp & Hin). symmetry in Hp.
  apply (collect_files_In cfg fs0 p Hwf) in Hin as (ds & file & -> & Hds & Hfile & _).
  apply process_file_collected in Hp. rewrite Hp, parse_str_relative.
  - change {| anchored := false; parts := ds ++ [file] |}
      with (child {| anchored := false; parts := ds |} file).
    by rewrite name_child.
  - by destruct ds.
  - apply Forall_app. split; [|apply Forall_cons; split; [done|apply Forall_nil_2]].
    eapply Forall_impl; [done|]. by intros ? [_ ?].
Qed.

Lemma records_length (results : list (result (option FileData))) :
  length (records results) ≤ length results.
Proof.
  induction results as [|r l IH]; [done|].
  assert (H : length (records (r :: l)) ≤ S (length (records l)))
    by (destruct r as [[d|]|e];
          [change (records (Ok (Some d) :: l)) with (d :: records l); simpl; lia
          |change (records (Ok None :: l)) with (records l); lia
          |change (records (Raise e :: l)) with (records l); lia]).
  rewrite length_cons. lia.
Qed.

(** X13: a run in flat mode, end to end.  When the text-output directory
    is not the output directory, the combined text lists every record the
    reader produced from the collected files, in the order of collection:
    its block carries the path of its own copy, the name of the file or
    that name with a counter, directly in the output directory, and the
    content that was read; [combined.txt] then holds that text.  The text
    is empty instead only if [combined.txt] could not be written: making
    the text-output directory raised, or writing the file did, in the file
    system the tree generator left.  As many probes as files were collected
    are enough. *)
Theorem flat_run_combined (cfg : FileProcessorConfig) (fs0 fs1 : node) (fuel : nat) :
  let ds := records (map (process_file cfg fs1) (collect_files cfg fs1)) in
  let combined_file := absolute (text_output cfg) </> "combined.txt" in
  mirror_dir_structure cfg = false →
  wf_names fs0 = true → wf_path (output_dir cfg) →
  parts (text_output cfg) ≠ parts (output_dir cfg) →
  clear_output cfg fs0 = Ok fs1 →
  0 < max_workers cfg →
  length (collect_files cfg fs1) ≤ S fuel →
  ∃ r fs' outs st,
    process_directory fuel cfg fs0 = Some (Ok (r, fs'))
    ∧ write_all fuel cfg {| fs := fs1; processed_files := [] |}
        (map (process_file cfg fs1) (collect_files cfg fs1)) = Some (Ok st)
    ∧ NoDup outs
    ∧ Forall2 (λ q d, ∃ k, q = child (output_dir cfg)
                                 (flat_name (name (parse (fd_path d))) k)) outs ds
    ∧ let fs2 := (generate_tree_output cfg (fs st)).2 in
      let text :=
        Str.concat
          (zip_with (λ q d, "File: " +:+ str q +:+ nl +:+ fd_content d +:+ nl +:+ nl)
             outs ds) in
      (combined_output r = text ∧ read_text fs' combined_file = Ok text)
      ∨ (combined_output r = ""
         ∧ (is_ok (mkdir true fs2 (text_output cfg)) = false
            ∨ ∃ fs3, mkdir true fs2 (text_output cfg) = Ok fs3
                     ∧ is_ok (write_text fs3 combined_file text) = false)).
Proof.
  intros ds combined_file Hflat Hwf Hout Hne Hclear Hpool Hfuel.
  rewrite process_directory_pool by done.
  destruct (clear_output_state cfg fs0 fs1 Hwf Hout Hclear) as [Hwf1 Hres].
  pose proof (records_valid cfg fs1 fs1 Hwf1) as Hvalid. fold ds in Hvalid.
  destruct (write_all_flat_any fuel cfg ds Hflat Hvalid fs1 [] [] Hres)
    as (st & xs & ents & Hw & Hpr & Hres' & Hall & Hnd & _).
  { pose proof (records_length (map (process_file cfg fs1) (collect_files cfg fs1))) as Hl.
    rewrite length_map in Hl. fold ds in Hl. simpl. lia. }
  simpl in Hpr, Hres', Hall.
  rewrite Hclear, write_all_records. fold ds. rewrite Hw.
  cbn [mbind option_bind].
  assert (Hvalid_tree : valid_component "combined.tree.txt")
    by (by apply valid_componentb_true).
  assert (Hread : Forall2 (λ q c, read_text (generate_tree_output cfg (fs st)).2 q = Ok c)
                    (map (child (output_dir cfg)) xs) (map fd_content ds)).
  { apply Forall2_fmap. eapply Forall2_impl; [done|]. intros x d [_ Hx]. simpl.
    apply generate_tree_output_frame.
    - rewrite div_component by done. simpl. intros H. by apply app_inj_tail in H as [? _].
    - apply read_text_Ok. simpl. rewrite resolve_app, Hres'. simpl. by rewrite Hx. }
  destruct (generate_tree_output cfg (fs st)) as [t fs2] eqn:Etree. simpl in Hread.
  apply combined_content_Ok in Hread. rewrite zip_with_fmap_r in Hread.
  unfold generate_combined_output. cbn [fs processed_files]. rewrite Hpr, Hread.
  assert (Houts : NoDup (map (child (output_dir cfg)) xs)).
  { apply (NoDup_fmap_2_strong (child (output_dir cfg))); [|done].
    intros x y _ _ H. apply (f_equal parts) in H. simpl in H.
    by apply app_inj_tail in H as [_ ?]. }
  assert (Hshape : Forall2 (λ q d, ∃ k, q = child (output_dir cfg)
                              (flat_name (name (parse (fd_path d))) k))
                     (map (child (output_dir cfg)) xs) ds).
  { apply Forall2_fmap_l. eapply Forall2_impl; [done|]. intros x d [[k ->] _]. by exists k. }
  fold combined_file.
  destruct (mkdir true fs2 (text_output cfg)) as [fs3|e] eqn:Em;
    [destruct (write_text fs3 combined_file _) as [fs4|e] eqn:Ew|];
    eexists _, _, (map (child (output_dir cfg)) xs), st;
    (split_and!; [done|done|done|done|]); rewrite Etree; cbn zeta;
    cbn [snd combined_output].
  - left. split; [done|]. apply read_text_Ok. by eapply write_at_resolve_self.
  - right. split; [done|]. right. exists fs3. by rewrite Em, Ew.
  - right. split; [done|]. left. by rewrite Em.
Qed.

Lemma flat_run_combined_witness :
  (mirror_dir_structure cfg_apart = false
   ∧ wf_names fs_same_name = true ∧ wf_path (output_dir cfg_apart)
   ∧ parts (text_output cfg_apart) ≠ parts (output_dir cfg_apart)
   ∧ clear_output cfg_apart fs_same_name = Ok fs_same_name_cleared
   ∧ 0 < max_workers cfg_apart
   ∧ length (collect_files cfg_apart fs_same_name_cleared) ≤ S 1)
  ∧ ∃ r fs' (outs : list Path) st,
      process_directory 1 cfg_apart fs_same_name = Some (Ok (r, fs'))
      ∧ write_all 1 cfg_apart {| fs := fs_same_name_cleared; processed_files := [] |}
          (map (process_file cfg_apart fs_same_name_cleared)
             (collect_files cfg_apart fs_same_name_cleared)) = Some (Ok st)
      ∧ NoDup outs
      ∧ Forall2 (λ q d, ∃ k, q = child (output_dir cfg_apart)
                                   (flat_name (name (parse (fd_path d))) k)) outs
          (records (map (process_file cfg_apart fs_same_name_cleared)
                      (collect_files cfg_apart fs_same_name_cleared)))
      ∧ let fs2 := (generate_tree_output cfg_apart (fs st)).2 in
        let text :=
          Str.concat
            (zip_with (λ q d, "File: " +:+ str q +:+ nl +:+ fd_content d +:+ nl +:+ nl)
               outs
               (records (map (process_file cfg_apart fs_same_name_cleared)
                           (collect_files cfg_apart fs_same_name_cleared)))) in
        (combined_output r = text
         ∧ read_text fs' (absolute (text_output cfg_apart) </> "combined.txt") = Ok text)
        ∨ (combined_output r = ""
           ∧ (is_ok (mkdir true fs2 (text_output cfg_apart)) = false
              ∨ ∃ fs3, mkdir true fs2 (text_output cfg_apart) = Ok fs3
                       ∧ is_ok (write_text fs3
                                  (absolute (text_output cfg_apart) </> "combined.txt")
                                  text) = false)).
Proof.
  assert (H : mirror_dir_structure cfg_apart = false
   ∧ wf_names fs_same_name = true ∧ wf_path (output_dir cfg_apart)
   ∧ parts (text_output cfg_apart) ≠ parts (output_dir cfg_apart)
   ∧ clear_output cfg_apart fs_same_name = Ok fs_same_name_cleared
   ∧ 0 < max_workers cfg_apart
   ∧ length (collect_files cfg_apart fs_same_name_cleared) ≤ S 1).
  { split_and!; [reflexivity|reflexivity|apply parse_wf|by vm_compute|reflexivity| |].
    - vm_compute. lia.
    - vm_compute. lia. }
  split; [exact H|].
  destruct H as (H1 & H2 & H3 & H4 & H5 & H6 & H7).
  exact (flat_run_combined cfg_apart fs_same_name fs_same_name_cleared 1
           H1 H2 H3 H4 H5 H6 H7).
Defined.

End Flat.

(** ** Mirrored mode *)

Section Mirror.

Lemma forallb_set_entry (P : string * node → bool) (nm : string) (c : node)
    (es : list (string * node)) :
  forallb P es = true → P (nm, c) = true → forallb P (set_entry nm c es) = true.
Proof.
  intros Hes Hc. induction es as [|[k c'] es IH]; simpl in *.
  - by rewrite Hc.
  - apply andb_true_iff in Hes as [Hk Hes].
    destruct (decide (k = nm)) as [->|Hne]; simpl.
    + by rewrite Hc, Hes.
    + by rewrite Hk, IH.
Qed.

Lemma embeds_Dir (o : node) (w : bool) (es : list (string * node)) :
  embeds o (Dir w es) = true → ∃ es0, o = Dir true es0.
Proof. destruct o as [c|[] es0]; simpl; [done| |done]. eauto. Qed.

Lemma embeds_File (o : node) (x : option string) :
  embeds o (File x) = true → ∃ c, o = File c.
Proof.
  destruct o as [c|w es0]; simpl; [eauto|]. by rewrite andb_false_r.
Qed.

Lemma embeds_lookup (es0 : list (string * node)) (w : bool) (es : list (string * node))
    (k : string) (co cs : node) :
  embeds (Dir true es0) (Dir w es) = true →
  lookup_entry k es0 = Some co → lookup_entry k es = Some cs →
  embeds co cs = true.
Proof.
  simpl. intros H Ho Hs. rewrite forallb_forall in H.
  apply lookup_entry_Some, list_elem_of_In, H in Ho. simpl in Ho. by rewrite Hs in Ho.
Qed.

Lemma embeds_set_entry (es0 : list (string * node)) (w : bool)
    (es : list (string * node)) (k : string) (co cs : node) :
  embeds (Dir true es0) (Dir w es) = true →
  lookup_entry k es = Some cs → embeds co cs = true →
  embeds (Dir true (set_entry k co es0)) (Dir w es) = true.
Proof.
  simpl. intros H Hs Hc. apply forallb_set_entry; [done|]. simpl. by rewrite Hs.
Qed.

Lemma embeds_fresh (ds : list string) :
  ∀ s w es, resolve ds s = Some (Dir w es) → embeds (fresh_dirs ds) s = true.
Proof.
  induction ds as [|d ds IH]; intros s w es Hres; simpl in *.
  - by injection Hres as ->.
  - destruct s as [c|w' es']; [done|].
    destruct (lookup_entry d es') as [cs|] eqn:E; [|done].
    by rewrite (IH cs w es Hres).
Qed.

Lemma mkdir_at_embeds (ds : list string) :
  ∀ o s w es, embeds o s = true → resolve ds s = Some (Dir w es) →
    ∃ o' es', mkdir_at true ds o = Ok o' ∧ embeds o' s = true
              ∧ resolve ds o' = Some (Dir true es').
Proof.
  induction ds as [|d ds IH]; intros o s w es Ho Hres.
  - simpl in Hres. injection Hres as ->.
    destruct (embeds_Dir _ _ _ Ho) as [es0 ->]. by exists (Dir true es0), es0.
  - simpl in Hres. destruct s as [c|w' es']; [done|].
    destruct (lookup_entry d es') as [cs|] eqn:E; [|done].
    destruct (embeds_Dir _ _ _ Ho) as [es0 ->]. simpl mkdir_at.
    destruct (lookup_entry d es0) as [co|] eqn:E0.
    + destruct (IH co cs w es (embeds_lookup _ _ _ _ _ _ Ho E0 E) Hres)
        as (co' & es1 & Hm & Hco' & Hres').
      rewrite Hm. simpl. exists (Dir true (set_entry d co' es0)), es1.
      split; [done|]. split; [by eapply embeds_set_entry|].
      simpl. by rewrite lookup_set_entry, decide_True.
    + exists (Dir true (set_entry d (fresh_dirs ds) es0)), [].
      split; [done|]. split.
      * eapply embeds_set_entry; [done..|]. by eapply embeds_fresh.
      * simpl. rewrite lookup_set_entry, decide_True by done. apply resolve_fresh_dirs.
Qed.

Lemma write_at_embeds (ds : list string) (f content : string) :
  ∀ o s x es0, embeds o s = true → resolve (ds ++ [f]) s = Some (File x) →
    resolve ds o = Some (Dir true es0) →
    ∃ o', write_at (ds ++ [f]) content o = Ok o' ∧ embeds o' s = true.
Proof.
  induction ds as [|d ds IH]; intros o s x es0 Ho Hres Hdir.
  - simpl in Hdir. injection Hdir as ->. simpl in Hres.
    destruct s as [c|w' es']; [done|].
    destruct (lookup_entry f es') as [cs|] eqn:E; [|done]. injection Hres as ->.
    simpl write_at. destruct (lookup_entry f es0) as [co|] eqn:E0.
    + destruct (embeds_File _ _ (embeds_lookup _ _ _ _ _ _ Ho E0 E)) as [c ->].
      simpl. eexists. split; [done|]. by eapply embeds_set_entry.
    + eexists. split; [done|]. by eapply embeds_set_entry.
  - simpl in Hres. destruct s as [c|w' es']; [done|].
    destruct (lookup_entry d es') as [cs|] eqn:E; [|done].
    destruct (embeds_Dir _ _ _ Ho) as [es1 ->]. simpl in Hdir.
    destruct (lookup_entry d es1) as [co|] eqn:E1; [|done].
    destruct (IH co cs x es0 (embeds_lookup _ _ _ _ _ _ Ho E1 E) Hres Hdir)
      as (co' & Hw & Hco').
    simpl. rewrite E1, Hw. simpl. eexists. split; [done|].
    by eapply embeds_set_entry.
Qed.

Lemma mkdir_at_app (b : bool) (ps qs : list string) :
  ∀ n c c', resolve ps n = Some c → mkdir_at b qs c = Ok c' →
    ∃ n', mkdir_at b (ps ++ qs) n = Ok n' ∧ resolve ps n' = Some c'.
Proof.
  induction ps as [|p ps IH]; intros n c c' Hres Hm.
  - simpl in *. injection Hres as ->. eauto.
  - simpl in Hres. destruct n as [?|w es]; [done|].
    destruct (lookup_entry p es) as [ch|] eqn:E; [|done].
    destruct (IH ch c c' Hres Hm) as (ch' & Hm' & Hres').
    simpl. rewrite E, Hm'. simpl. eexists. split; [done|].
    simpl. by rewrite lookup_set_entry, decide_True.
Qed.

Lemma write_at_app (ps qs : list string) (content : string) :
  ∀ n c c', resolve ps n = Some c → write_at qs content c = Ok c' →
    ∃ n', write_at (ps ++ qs) content n = Ok n' ∧ resolve ps n' = Some c'.
Proof.
  induction ps as [|p ps IH]; intros n c c' Hres Hw.
  - simpl in *. injection Hres as ->. eauto.
  - simpl in Hres. destruct n as [?|w es]; [done|].
    destruct (lookup_entry p es) as [ch|] eqn:E; [|done].
    destruct (IH ch c c' Hres Hw) as (ch' & Hw' & Hres').
    simpl. rewrite E, Hw'. simpl. eexists. split; [done|].
    simpl. by rewrite lookup_set_entry, decide_True.
Qed.

Lemma mirror_path_parts (cfg : FileProcessorConfig) (d : FileData) (rel : list string) :
  parse (fd_path d) = {| anchored := false; parts := rel |} →
  mirror_path cfg d
  = {| anchored := anchored (output_dir cfg); parts := parts (output_dir cfg) ++ rel |}.
Proof. intros H. unfold mirror_path, joinpath. by rewrite H. Qed.

Lemma mirror_write_step (fuel : nat) (cfg : FileProcessorConfig) (st : State)
    (d : FileData) (s o : node) (rel : list string) (x : option string) :
  mirror_dir_structure cfg = true →
  parse (fd_path d) = {| anchored := false; parts := rel |} →
  rel ≠ [] → resolve rel s = Some (File x) →
  resolve (parts (output_dir cfg)) (fs st) = Some o → embeds o s = true →
  ∃ fs' o',
    write_output_file fuel cfg st (Some d)
    = Some {| fs := fs'; processed_files := processed_files st ++ [mirror_path cfg d] |}
    ∧ resolve (parts (output_dir cfg)) fs' = Some o' ∧ embeds o' s = true
    ∧ read_text fs' (mirror_path cfg d) = Ok (fd_content d).
Proof.
  intros Hm Hparse Hne Hres Ho Hemb.
  destruct (exists_last Hne) as (ds & f & ->).
  assert (∃ w es, resolve ds s = Some (Dir w es)) as (w & es & Hds).
  { rewrite resolve_app in Hres. destruct (resolve ds s) as [[c|w es]|]; [done| |done].
    eauto. }
  destruct (mkdir_at_embeds ds o s w es Hemb Hds) as (o1 & es1 & Hmk & Hemb1 & Hds1).
  destruct (mkdir_at_app true _ ds _ _ _ Ho Hmk) as (fs1 & Hmk' & Ho1).
  destruct (write_at_embeds ds f (fd_content d) o1 s x es1 Hemb1 Hres Hds1)
    as (o2 & Hw & Hemb2).
  destruct (write_at_app _ (ds ++ [f]) (fd_content d) _ _ _ Ho1 Hw) as (fs2 & Hw' & Ho2).
  exists fs2, o2. unfold write_output_file, output_path_of. rewrite Hm.
  fold (mirror_path cfg d). rewrite (mirror_path_parts cfg d _ Hparse).
  cbn [mbind option_bind]. unfold mkdir, write_text, parent. cbn [parts anchored].
  rewrite (assoc_L (++)), removelast_last, Hmk'. rewrite <- (assoc_L (++)), Hw'.
  split_and!; [done..|]. apply read_text_Ok. cbn [parts].
  by eapply write_at_resolve_self.
Qed.

Lemma write_all_frame (fuel : nat) (cfg : FileProcessorConfig)
    (results : list (result (option FileData))) (p : Path) (x : option string) :
  (∀ d q fs0, Ok (Some d) ∈ results → output_path_of fuel cfg fs0 d = Some q →
              parts q ≠ parts p) →
  ∀ st st', write_all fuel cfg st results = Some (Ok st') →
            resolve (parts p) (fs st) = Some (File x) →
            resolve (parts p) (fs st') = Some (File x).
Proof.
  induction results as [|[fd|e] results IH]; intros Hq st st'; simpl.
  - by intros [= <-].
  - destruct (write_output_file fuel cfg st fd) as [st1|] eqn:Ew; [|done].
    cbn [mbind option_bind]. intros Hall Hp. apply (IH (λ d q fs0 Hd, Hq d q fs0
      (list_elem_of_further _ _ _ Hd)) st1 st' Hall).
    apply (write_output_file_frame _ _ _ _ _ _ _ Ew); [|done].
    intros d q -> Hout. apply (Hq d q (fs st)); [left|done].
  - done.
Qed.

Lemma write_all_mirror (fuel : nat) (cfg : FileProcessorConfig) (fs1 s : node)
    (files : list Path) :
  mirror_dir_structure cfg = true →
  NoDup files → Forall (mirrored cfg fs1 s) files →
  ∀ st o, resolve (parts (output_dir cfg)) (fs st) = Some o → embeds o s = true →
    ∃ st',
      write_all fuel cfg st (map (process_file cfg fs1) files) = Some (Ok st')
      ∧ processed_files st'
        = processed_files st
          ++ map (mirror_path cfg) (records (map (process_file cfg fs1) files))
      ∧ Forall (λ d, read_text (fs st') (mirror_path cfg d) = Ok (fd_content d))
          (records (map (process_file cfg fs1) files))
      ∧ NoDup (map (mirror_path cfg) (records (map (process_file cfg fs1) files))).
Proof.
  intros Hm Hnd Hall. induction Hall as [|p files Hp Hall IH]; intros st o Ho Hemb.
  - exists st. simpl. rewrite (right_id_L [] (++)).
    split_and!; [done|done|constructor|apply NoDup_nil_2].
  - apply NoDup_cons in Hnd as [Hnew Hnd]. cbn [map].
    destruct (process_file_never_raises cfg fs1 p) as [[d|] E]; rewrite E.
    2:{ change (records (Ok None :: ?l)) with (records l).
        cbn [write_all write_output_file mbind option_bind]. by apply (IH Hnd st o). }
    change (records (Ok (Some d) :: ?l)) with (d :: records l).
    destruct (Hp d E) as (rel & x & Hparse & Hne & Hres & Hparts & Hanch).
    destruct (mirror_write_step fuel cfg st d s o rel x Hm Hparse Hne Hres Ho Hemb)
      as (fs' & o' & Hw & Ho' & Hemb' & Hread).
    cbn [write_all]. rewrite Hw. cbn [mbind option_bind].
    destruct (IH Hnd {| fs := fs';
                        processed_files := processed_files st ++ [mirror_path cfg d] |}
                o' Ho' Hemb') as (st' & Hall' & Hpr & Hreads & Hnd').
    cbn [fs processed_files] in *.
    assert (Hother : ∀ d', Ok (Some d') ∈ map (process_file cfg fs1) files →
              parts (mirror_path cfg d') ≠ parts (mirror_path cfg d)).
    { intros d' Hd'. apply list_elem_of_fmap in Hd' as (p' & Hd' & Hp').
      symmetry in Hd'. rewrite Forall_forall in Hall.
      destruct (Hall p' Hp' d' Hd') as (rel' & x' & Hparse' & _ & _ & Hparts' & Hanch').
      rewrite (mirror_path_parts cfg d _ Hparse), (mirror_path_parts cfg d' _ Hparse').
      cbn [parts]. intros Heq. apply app_inv_head in Heq. subst rel'.
      apply Hnew. replace p with p'; [done|].
      destruct p, p'. simpl in *. congruence. }
    exists st'. split_and!; [done| | |].
    + rewrite Hpr, <- (assoc_L (++)). done.
    + constructor; [|done]. apply read_text_Ok. apply read_text_Ok in Hread.
      apply (write_all_frame fuel cfg (map (process_file cfg fs1) files)
               (mirror_path cfg d) _) with (st := {| fs := fs'; processed_files :=
               processed_files st ++ [mirror_path cfg d] |}); [|done|done].
      intros d' q fs0 Hd' Hq. unfold output_path_of in Hq. rewrite Hm in Hq.
      injection Hq as <-. by apply Hother.
    + cbn [map]. apply NoDup_cons. split; [|done].
      intros Hin. apply list_elem_of_fmap in Hin as (d' & Heq & Hd').
      unfold records in Hd'. apply list_elem_of_omap in Hd' as (r & Hr & Hd').
      destruct r as [[d''|]|]; try done. injection Hd' as ->.
      apply (Hother d' Hr). by rewrite Heq.
Qed.

Lemma collect_files_mirrored (cfg : FileProcessorConfig) (fs1 s : node) :
  wf_names fs1 = true → resolve (parts (source_dir cfg)) fs1 = Some s →
  Forall (mirrored cfg fs1 s) (collect_files cfg fs1).
Proof.
  intros Hwf Hs. apply Forall_forall. intros p Hp d Hd.
  apply (collect_files_In cfg fs1 p Hwf) in Hp
    as (ds & file & -> & Hds & Hfile & _ & x & Hx).
  apply process_file_collected in Hd.
  assert (Hvalid : Forall valid_component (ds ++ [file])).
  { apply Forall_app. split; [|apply Forall_cons; split; [done|apply Forall_nil_2]].
    eapply Forall_impl; [done|]. by intros ? [_ ?]. }
  exists (ds ++ [file]), x. rewrite Hd.
  destruct (parts_descend (source_dir cfg) ds) as [Hparts Hanch].
  split_and!.
  - apply parse_str_relative; [by destruct ds|done].
  - by destruct ds.
  - simpl in Hx. rewrite Hparts, <- (assoc_L (++)), resolve_app, Hs in Hx. done.
  - simpl. by rewrite Hparts, <- (assoc_L (++)).
  - done.
Qed.

Lemma mirror_copy_phase (fuel : nat) (cfg : FileProcessorConfig) (fs1 : node) :
  mirror_dir_structure cfg = true →
  wf_names fs1 = true →
  resolve (parts (output_dir cfg)) fs1 = Some (Dir true []) →
  ∃ st,
    write_all fuel cfg {| fs := fs1; processed_files := [] |}
      (map (process_file cfg fs1) (collect_files cfg fs1)) = Some (Ok st)
    ∧ processed_files st
      = map (mirror_path cfg)
          (records (map (process_file cfg fs1) (collect_files cfg fs1)))
    ∧ Forall (λ d, read_text (fs st) (mirror_path cfg d) = Ok (fd_content d))
        (records (map (process_file cfg fs1) (collect_files cfg fs1)))
    ∧ NoDup (processed_files st).
Proof.
  intros Hm Hwf Hout.
  destruct (resolve (parts (source_dir cfg)) fs1) as [[c|w es]|] eqn:Hs.
  - exists {| fs := fs1; processed_files := [] |}.
    unfold collect_files, walk. rewrite Hs. simpl.
    split_and!; [done|done|constructor|apply NoDup_nil_2].
  - destruct (write_all_mirror fuel cfg fs1 (Dir w es) (collect_files cfg fs1) Hm
                (collect_files_NoDup_aux cfg fs1 Hwf)
                (collect_files_mirrored cfg fs1 _ Hwf Hs)
                {| fs := fs1; processed_files := [] |} (Dir true []) Hout eq_refl)
      as (st & Hall & Hpr & Hreads & Hnd).
    exists st. simpl in Hpr. rewrite Hpr. done.
  - exists {| fs := fs1; processed_files := [] |}.
    unfold collect_files, walk. rewrite Hs. simpl.
    split_and!; [done|done|constructor|apply NoDup_nil_2].
Qed.

(** X14: mirrored mode copies every collected file to the same relative
    path below the output directory.  From an empty output directory every
    write succeeds, whatever the fuel; no path is recorded twice; and every
    collected file that can be read is found again, with its content, at
    its path relative to the source root, joined to the output root. *)
Theorem mirrored_copies_all (fuel : nat) (cfg : FileProcessorConfig) (fs1 : node) :
  mirror_dir_structure cfg = true →
  wf_names fs1 = true →
  resolve (parts (output_dir cfg)) fs1 = Some (Dir true []) →
  ∃ st,
    write_all fuel cfg {| fs := fs1; processed_files := [] |}
      (map (process_file cfg fs1) (collect_files cfg fs1)) = Some (Ok st)
    ∧ NoDup (processed_files st)
    ∧ ∀ p c, p ∈ collect_files cfg fs1 → read_text fs1 p = Ok c →
        ∃ rel, relative_to p (source_dir cfg) = Ok rel
               ∧ joinpath (output_dir cfg) rel ∈ processed_files st
               ∧ read_text (fs st) (joinpath (output_dir cfg) rel) = Ok c.
Proof.
  intros Hm Hwf Hout.
  destruct (mirror_copy_phase fuel cfg fs1 Hm Hwf Hout) as (st & Hall & Hpr & Hreads & Hnd).
  exists st. split_and!; [done..|]. intros p c Hp Hc.
  destruct (collect_files_In cfg fs1 p Hwf Hp) as (ds & file & Heq & Hds & Hfile & _).
  assert (Hvalid : Forall valid_component (ds ++ [file])).
  { apply Forall_app. split; [|apply Forall_cons; split; [done|apply Forall_nil_2]].
    eapply Forall_impl; [done|]. by intros ? [_ ?]. }
  destruct (parts_descend (source_dir cfg) ds) as [Hparts Hanch].
  set (rel := {| anchored := false; parts := ds ++ [file] |}).
  assert (Hrel : relative_to p (source_dir cfg) = Ok rel).
  { unfold relative_to. subst p. simpl. rewrite Hparts, Hanch, <- (assoc_L (++)).
    rewrite !bool_decide_eq_true_2; [|by apply prefix_app_r|done]. simpl.
    by rewrite drop_app_length. }
  assert (Hd : process_file cfg fs1 p = Ok (Some {| fd_path := str rel; fd_content := c |})).
  { unfold process_file. by rewrite Hc, Hrel. }
  assert (Hin : {| fd_path := str rel; fd_content := c |}
                ∈ records (map (process_file cfg fs1) (collect_files cfg fs1))).
  { unfold records. apply list_elem_of_omap.
    exists (Ok (Some {| fd_path := str rel; fd_content := c |})). split; [|done].
    rewrite <- Hd. apply list_elem_of_fmap. by exists p. }
  assert (Hpath : mirror_path cfg {| fd_path := str rel; fd_content := c |}
                  = joinpath (output_dir cfg) rel).
  { unfold mirror_path. simpl. unfold rel. rewrite parse_str_relative; [done| |done].
    by destruct ds. }
  exists rel. split; [done|]. rewrite <- Hpath. split.
  - rewrite Hpr. apply list_elem_of_fmap. by eexists.
  - rewrite Forall_forall in Hreads. by apply (Hreads _ Hin).
Qed.

Lemma mirrored_copies_all_witness :
  (mirror_dir_structure cfg_mirror = true
   ∧ wf_names fs_same_name_cleared = true
   ∧ resolve (parts (output_dir cfg_mirror)) fs_same_name_cleared = Some (Dir true []))
  ∧ ∃ st,
      write_all 0 cfg_mirror {| fs := fs_same_name_cleared; processed_files := [] |}
        (map (process_file cfg_mirror fs_same_name_cleared)
           (collect_files cfg_mirror fs_same_name_cleared)) = Some (Ok st)
      ∧ NoDup (processed_files st)
      ∧ ∀ p c, p ∈ collect_files cfg_mirror fs_same_name_cleared →
          read_text fs_same_name_cleared p = Ok c →
          ∃ rel, relative_to p (source_dir cfg_mirror) = Ok rel
                 ∧ joinpath (output_dir cfg_mirror) rel ∈ processed_files st
                 ∧ read_text (fs st) (joinpath (output_dir cfg_mirror) rel) = Ok c.
Proof.
  assert (H : mirror_dir_structure cfg_mirror = true
   ∧ wf_names fs_same_name_cleared = true
   ∧ resolve (parts (output_dir cfg_mirror)) fs_same_name_cleared = Some (Dir true []))
    by (split_and!; reflexivity).
  split; [exact H|]. destruct H as (H1 & H2 & H3).
  exact (mirrored_copies_all 0 cfg_mirror fs_same_name_cleared H1 H2 H3).
Defined.

Lemma records_mirror_path (cfg : FileProcessorConfig) (fs1 : node) (d : FileData) :
  wf_names fs1 = true →
  d ∈ records (map (process_file cfg fs1) (collect_files cfg fs1)) →
  ∃ rel r, parts (mirror_path cfg d) = (parts (output_dir cfg) ++ rel) ++ [r].
Proof.
  intros Hwf Hd. unfold records in Hd.
  apply list_elem_of_omap in Hd as (res & Hr & Hd).
  destruct res as [[d'|]|]; try done. injection Hd as ->.
  apply list_elem_of_fmap in Hr as (p & Hp & Hin). symmetry in Hp.
  apply (collect_files_In cfg fs1 p Hwf) in Hin as (ds & file & -> & Hds & Hfile & _).
  apply process_file_collected in Hp.
  exists ds, file. rewrite (mirror_path_parts cfg d (ds ++ [file])).
  - simpl. by rewrite (assoc_L (++)).
  - rewrite Hp. apply parse_str_relative; [by destruct ds|].
    apply Forall_app. split; [|apply Forall_cons; split; [done|apply Forall_nil_2]].
    eapply Forall_impl; [done|]. by intros ? [_ ?].
Qed.

(** X15: a run in mirrored mode, end to end.  When the text-output
    directory is not inside the output directory, the run returns, whatever
    the fuel, and its combined text lists every record the reader produced
    from the collected files, in the order of collection, under the path of
    its copy, the record's relative path joined to the output root;
    [combined.txt] then holds that text.  The text is empty instead only if
    [combined.txt] could not be written: making the text-output directory
    raised, or writing the file did, in the file system the tree generator
    left. *)
Theorem mirrored_run_combined (cfg : FileProcessorConfig) (fs0 fs1 : node) (fuel : nat) :
  let ds := records (map (process_file cfg fs1) (collect_files cfg fs1)) in
  let combined_file := absolute (text_output cfg) </> "combined.txt" in
  mirror_dir_structure cfg = true →
  wf_names fs0 = true → wf_path (output_dir cfg) →
  ¬ parts (output_dir cfg) `prefix_of` parts (text_output cfg) →
  clear_output cfg fs0 = Ok fs1 →
  0 < max_workers cfg →
  ∃ r fs' st,
    process_directory fuel cfg fs0 = Some (Ok (r, fs'))
    ∧ write_all fuel cfg {| fs := fs1; processed_files := [] |}
        (map (process_file cfg fs1) (collect_files cfg fs1)) = Some (Ok st)
    ∧ let fs2 := (generate_tree_output cfg (fs st)).2 in
      let text :=
        Str.concat
          (map (λ d, "File: " +:+ str (mirror_path cfg d) +:+ nl
                     +:+ fd_content d +:+ nl +:+ nl) ds) in
      (combined_output r = text ∧ read_text fs' combined_file = Ok text)
      ∨ (combined_output r = ""
         ∧ (is_ok (mkdir true fs2 (text_output cfg)) = false
            ∨ ∃ fs3, mkdir true fs2 (text_output cfg) = Ok fs3
                     ∧ is_ok (write_text fs3 combined_file text) = false)).
Proof.
  intros ds combined_file Hm Hwf Hout Hne Hclear Hpool.
  rewrite process_directory_pool by done.
  destruct (clear_output_state cfg fs0 fs1 Hwf Hout Hclear) as [Hwf1 Hres].
  destruct (mirror_copy_phase fuel cfg fs1 Hm Hwf1 Hres) as (st & Hall & Hpr & Hreads & _).
  fold ds in Hpr, Hreads.
  rewrite Hclear, Hall. cbn [mbind option_bind].
  assert (Hvalid_tree : valid_component "combined.tree.txt")
    by (by apply valid_componentb_true).
  assert (Hread : Forall2 (λ q c, read_text (generate_tree_output cfg (fs st)).2 q = Ok c)
                    (map (mirror_path cfg) ds) (map fd_content ds)).
  { apply Forall2_fmap, Forall_Forall2_diag, Forall_forall. intros d Hd.
    apply generate_tree_output_frame.
    - destruct (records_mirror_path cfg fs1 d Hwf1 Hd) as (rel & r & ->).
      rewrite div_component by done. simpl. intros H.
      apply app_inj_tail in H as [H _]. apply Hne. rewrite <- H. by apply prefix_app_r.
    - rewrite Forall_forall in Hreads. by apply Hreads. }
  destruct (generate_tree_output cfg (fs st)) as [t fs2] eqn:Etree. simpl in Hread.
  apply combined_content_Ok in Hread.
  rewrite zip_with_fmap_l, zip_with_fmap_r, zip_with_diag in Hread.
  unfold generate_combined_output. cbn [fs processed_files]. rewrite Hpr, Hread.
  fold combined_file.
  destruct (mkdir true fs2 (text_output cfg)) as [fs3|e] eqn:Em;
    [destruct (write_text fs3 combined_file _) as [fs4|e] eqn:Ew|];
    eexists _, _, st; (split_and!; [done|done|]); rewrite Etree; cbn zeta;
    cbn [snd combined_output].
  - left. split; [done|]. apply read_text_Ok. by eapply write_at_resolve_self.
  - right. split; [done|]. right. exists fs3. split; [done|].
    exact (f_equal is_ok Ew).
  - right. split; [done|]. left. by rewrite Em.
Qed.

Lemma mirrored_run_combined_witness :
  (mirror_dir_structure cfg_mirror = true
   ∧ wf_names fs_same_name = true ∧ wf_path (output_dir cfg_mirror)
   ∧ ¬ parts (output_dir cfg_mirror) `prefix_of` parts (text_output cfg_mirror)
   ∧ clear_output cfg_mirror fs_same_name = Ok fs_same_name_cleared
   ∧ 0 < max_workers cfg_mirror)
  ∧ ∃ r fs' st,
      process_directory 0 cfg_mirror fs_same_name = Some (Ok (r, fs'))
      ∧ write_all 0 cfg_mirror {| fs := fs_same_name_cleared; processed_files := [] |}
          (map (process_file cfg_mirror fs_same_name_cleared)
             (collect_files cfg_mirror fs_same_name_cleared)) = Some (Ok st)
      ∧ let fs2 := (generate_tree_output cfg_mirror (fs st)).2 in
        let text :=
          Str.concat
            (map (λ d, "File: " +:+ str (mirror_path cfg_mirror d) +:+ nl
                       +:+ fd_content d +:+ nl +:+ nl)
               (records (map (process_file cfg_mirror fs_same_name_cleared)
                           (collect_files cfg_mirror fs_same_name_cleared)))) in
        (combined_output r = text
         ∧ read_text fs' (absolute (text_output cfg_mirror) </> "combined.txt") = Ok text)
        ∨ (combined_output r = ""
           ∧ (is_ok (mkdir true fs2 (text_output cfg_mirror)) = false
              ∨ ∃ fs3, mkdir true fs2 (text_output cfg_mirror) = Ok fs3
                       ∧ is_ok (write_text fs3
                                  (absolute (text_output cfg_mirror) </> "combined.txt")
                                  text) = false)).
Proof.
  assert (H : mirror_dir_structure cfg_mirror = true
   ∧ wf_names fs_same_name = true ∧ wf_path (output_dir cfg_mirror)
   ∧ ¬ parts (output_dir cfg_mirror) `prefix_of` parts (text_output cfg_mirror)
   ∧ clear_output cfg_mirror fs_same_name = Ok fs_same_name_cleared
   ∧ 0 < max_workers cfg_mirror).
  { split_and!; [reflexivity|reflexivity|apply parse_wf| |reflexivity|vm_compute; lia].
    intros [k Hk]. vm_compute in Hk. discriminate Hk. }
  split; [exact H|]. destruct H as (H1 & H2 & H3 & H4 & H5 & H6).
  exact (mirrored_run_combined cfg_mirror fs_same_name fs_same_name_cleared 0
           H1 H2 H3 H4 H5 H6).
Defined.

End Mirror.

(** ** The tree *)

Section Tree.

Context (cfg : FileProcessorConfig).

Lemma insert_sorted_alike (x y : tree_child) (l l' : list tree_child) :
  drawn_alike cfg x y → Forall2 (drawn_alike cfg) l l' →
  Forall2 (drawn_alike cfg) (insert_sorted tree_key x l) (insert_sorted tree_key y l').
Proof.
  intros Hxy H. induction H as [|a b l l' Hab H IH]; simpl;
    [by apply Forall2_cons_2|].
  assert (Hk : ∀ p p', drawn_alike cfg p p' → tree_key p = tree_key p').
  { intros p p' (Hn & Hf & _). unfold tree_key. by rewrite Hn, Hf. }
  rewrite (Hk _ _ Hxy), (Hk _ _ Hab).
  destruct (key_le (tree_key y) (tree_key b)); repeat (apply Forall2_cons_2; try done).
Qed.

Lemma sorted_alike (l l' : list tree_child) :
  Forall2 (drawn_alike cfg) l l' →
  Forall2 (drawn_alike cfg) (sorted tree_key l) (sorted tree_key l').
Proof.
  intros H. induction H as [|a b l l' Hab H IH]; simpl; [constructor|].
  by apply insert_sorted_alike.
Qed.

Lemma tree_loop_alike (prefix : string) (len : nat) (paths paths' : list tree_child) :
  Forall2 (drawn_alike cfg) paths paths' →
  ∀ i, tree_loop (ignored_dirs cfg) prefix len i paths
       = tree_loop (ignored_dirs cfg) prefix len i paths'.
Proof.
  intros H. induction H as [|p p' l l' (Hn & _ & Hd & Hr) H IH]; intros i; simpl; [done|].
  rewrite <- Hn, <- Hd, IH. case_bool_decide as Hign; [done|].
  by rewrite !(Hr Hign).
Qed.

Lemma tree_node_prune (n : node) :
  ∀ path prefix,
    tree_node cfg (prune (λ d, bool_decide (d ∉ ignored_dirs cfg)) n) path prefix
    = tree_node cfg n path prefix.
Proof.
  induction n as [c|w es IH] using node_ind'; intros path prefix; [done|].
  cbn [prune tree_node]. case_bool_decide; [done|].
  destruct (negb _); [done|]. destruct w; [|done].
  set (keep := λ d, bool_decide (d ∉ ignored_dirs cfg)).
  set (f := λ e : string * node,
              {| tc_path := child path e.1; tc_is_file := is_file_node e.2;
                 tc_is_dir := is_dir_node e.2;
                 tc_render := tree_node cfg e.2 (child path e.1) |}).
  set (g := λ e : string * node,
              (e.1, if is_dir_node e.2 && negb (bool_decide (e.1 ∉ ignored_dirs cfg))
                    then Dir true [] else prune keep e.2)).
  assert (Hall : Forall2 (drawn_alike cfg) (map f (map g es)) (map f es)).
  { apply Forall2_fmap, Forall2_fmap_l, Forall_Forall2_diag.
    apply Forall_forall. intros [k c] He. rewrite Forall_forall in IH.
    unfold drawn_alike, f, g, compose. cbn [fst snd tc_path tc_is_file tc_is_dir tc_render].
    split_and!; [done|by destruct c, (bool_decide _)|by destruct c, (bool_decide _)|].
    rewrite name_child. intros Hk pre. rewrite bool_decide_eq_true_2 by done.
    rewrite andb_false_r. apply (IH (k, c) He). }
  apply sorted_alike in Hall. rewrite (Forall2_length _ _ _ Hall).
  by apply tree_loop_alike.
Qed.

(** X16: the tree does not look into a directory whose name is ignored:
    emptying every such directory below the path leaves the result as it
    is. *)
Theorem generate_tree_ignores_contents (fs0 fs' : node) (path : Path)
    (prefix : string) (n : node) :
  resolve (parts path) fs0 = Some n →
  resolve (parts path) fs' = Some (prune (λ d, bool_decide (d ∉ ignored_dirs cfg)) n) →
  _generate_tree cfg fs' path prefix = _generate_tree cfg fs0 path prefix.
Proof.
  intros H0 H'. unfold _generate_tree. rewrite H0, H'.
  case_bool_decide; [done|]. destruct (negb _); [done|].
  destruct n as [c|w es]; [done|]. by rewrite tree_node_prune.
Qed.

Lemma relative_to_child (path t : Path) (k : string) :
  is_ok (relative_to path t) = true → is_ok (relative_to (child path k) t) = true.
Proof.
  unfold relative_to. simpl.
  destruct (bool_decide (anchored path = anchored t)); [|done]. simpl.
  case_bool_decide as Hp; [|done]. intros _.
  rewrite bool_decide_eq_true_2; [done|]. by apply prefix_app_r.
Qed.

Lemma tree_loop_length (size : tree_child → nat) (prefix : string) (len : nat)
    (paths : list tree_child) :
  Forall (λ p, name (tc_path p) ∉ ignored_dirs cfg → tc_is_dir p = true →
               ∀ pre, length (tc_render p pre) = size p) paths →
  ∀ i, length (tree_loop (ignored_dirs cfg) prefix len i paths)
       = sum_list_with
           (λ p, if bool_decide (name (tc_path p) ∈ ignored_dirs cfg) then 0
                 else S (if tc_is_dir p then size p else 0)) paths.
Proof.
  intros H. induction H as [|p paths Hp _ IH]; intros i; simpl; [done|].
  case_bool_decide as Hign; [apply IH|].
  simpl. rewrite length_app, IH. destruct (tc_is_dir p); [|done].
  by rewrite Hp.
Qed.

Lemma tree_node_length (n : node) :
  ∀ path prefix,
    name path ∉ ignored_dirs cfg →
    is_ok (relative_to path (text_output cfg)) = true →
    length (tree_node cfg n path prefix) = tree_size (ignored_dirs cfg) n.
Proof.
  induction n as [c|w es IH] using node_ind'; intros path prefix Hname Hrel.
  - simpl. rewrite bool_decide_eq_false_2, Hrel by done. done.
  - cbn [tree_node tree_size]. rewrite bool_decide_eq_false_2, Hrel by done.
    cbn [negb]. destruct w; [|done].
    set (f := λ e : string * node,
                {| tc_path := child path e.1; tc_is_file := is_file_node e.2;
                   tc_is_dir := is_dir_node e.2;
                   tc_render := tree_node cfg e.2 (child path e.1) |}).
    assert (Hsub : ∀ e pre, e ∈ es → e.1 ∉ ignored_dirs cfg →
              length (tree_node cfg e.2 (child path e.1) pre)
              = tree_size (ignored_dirs cfg) e.2).
    { intros e pre He Hk. rewrite Forall_forall in IH. apply (IH e He).
      - by rewrite name_child.
      - by apply relative_to_child. }
    rewrite (tree_loop_length (λ p, length (tc_render p ""))).
    + rewrite sorted_perm. clear IH.
      induction es as [|e es IHes]; [done|]. cbn [map sum_list_with].
      rewrite IHes by (intros; apply Hsub; [by right|done]). f_equal.
      unfold f at 1 2. cbn [tc_path tc_is_dir tc_render]. rewrite name_child.
      case_bool_decide as Hk; [done|]. f_equal.
      destruct e as [k [c|w' es']]; [done|]. cbn [is_dir_node snd fst].
      apply (Hsub (k, Dir w' es')); [left|done].
    + rewrite sorted_perm. apply Forall_fmap, Forall_forall. intros e He.
      unfold f, compose. cbn [tc_path tc_is_dir tc_render]. rewrite name_child.
      intros Hk _ pre. by rewrite !Hsub.
Qed.

(** X17: the tree has one line for every entry that is not ignored, in the
    directories that can be listed, and none for what lies below an ignored
    entry: when both guards pass, the number of lines is [tree_size], which
    depends neither on the prefix nor on the order of the listing. *)
Theorem generate_tree_size (fs0 : node) (path : Path) (prefix : string) (n : node)
    (lines : list string) :
  name path ∉ ignored_dirs cfg →
  is_ok (relative_to path (text_output cfg)) = true →
  resolve (parts path) fs0 = Some n →
  _generate_tree cfg fs0 path prefix = Ok lines →
  length lines = tree_size (ignored_dirs cfg) n.
Proof.
  intros Hname Hrel Hres. unfold _generate_tree.
  rewrite bool_decide_eq_false_2, Hrel, Hres by done. cbn [negb].
  destruct n as [c|w es]; [done|]. intros H.
  assert (lines = tree_node cfg (Dir w es) path prefix) as -> by congruence.
  by apply tree_node_length.
Qed.

Lemma insert_sorted_map {A B} (key : B → sort_key) (f : A → B) (x : A) (l : list A) :
  insert_sorted key (f x) (map f l) = map f (insert_sorted (key ∘ f) x l).
Proof.
  induction l as [|y l IH]; simpl; [done|].
  destruct (key_le (key (f x)) (key (f y))); simpl; [done|]. by rewrite IH.
Qed.

Lemma sorted_map {A B} (key : B → sort_key) (f : A → B) (l : list A) :
  sorted key (map f l) = map f (sorted (key ∘ f) l).
Proof.
  induction l as [|x l IH]; simpl; [done|]. by rewrite IH, insert_sorted_map.
Qed.

Lemma StronglySorted_filter {A} (R : relation A) (P : A → Prop)
    `{∀ x, Decision (P x)} (l : list A) :
  StronglySorted R l → StronglySorted R (filter P l).
Proof.
  induction 1 as [|x l Hl IH Hx]; [constructor|].
  rewrite filter_cons. destruct (decide (P x)); [|done].
  constructor; [done|]. apply Forall_forall. intros y Hy.
  apply list_elem_of_filter in Hy as [_ Hy]. rewrite Forall_forall in Hx. by apply Hx.
Qed.

(** The loop draws one block per child that is not ignored, in the order
    of the list: the line of the child, then what is below it. *)
Lemma tree_loop_blocks (path : Path) (prefix : string) (len : nat)
    (es : list (string * node)) :
  ∀ i, ∃ blocks,
    tree_loop (ignored_dirs cfg) prefix len i
      (map (λ e, {| tc_path := child path e.1; tc_is_file := is_file_node e.2;
                    tc_is_dir := is_dir_node e.2;
                    tc_render := tree_node cfg e.2 (child path e.1) |}) es)
    = concat blocks
    ∧ Forall2 (λ e blk, ∃ conn ext,
         (conn = "└── " ∧ ext = "    " ∨ conn = "├── " ∧ ext = "│   ")
         ∧ blk = (prefix +:+ conn +:+ e.1)
                 :: (if is_dir_node e.2
                     then tree_node cfg e.2 (child path e.1) (prefix +:+ ext)
                     else []))
        (filter (λ e, e.1 ∉ ignored_dirs cfg) es) blocks.
Proof.
  induction es as [|e es IH]; intros i.
  - exists []. split; [done|constructor].
  - destruct (IH (S i)) as (blocks & Hloop & Hblocks).
    cbn [map tree_loop tc_path tc_is_dir tc_render]. rewrite name_child, filter_cons.
    case_bool_decide as Hign.
    + rewrite decide_False by (by intros ?). by exists blocks.
    + rewrite decide_True by done.
      exists (((prefix +:+ (if bool_decide (i = len - 1) then "└── " else "├── ") +:+ e.1)
               :: (if is_dir_node e.2
                   then tree_node cfg e.2 (child path e.1)
                          (prefix +:+ (if bool_decide (i = len - 1)
                                       then "    " else "│   "))
                   else [])) :: blocks).
      split.
      * cbn [concat]. rewrite Hloop. reflexivity.
      * constructor; [|done].
        exists (if bool_decide (i = len - 1) then "└── " else "├── "),
               (if bool_decide (i = len - 1) then "    " else "│   ").
        split; [case_bool_decide; auto|]. by destruct (is_dir_node e.2).
Qed.

Lemma tree_node_blocks (path : Path) (prefix : string) (es : list (string * node)) :
  name path ∉ ignored_dirs cfg →
  is_ok (relative_to path (text_output cfg)) = true →
  ∃ shown blocks,
    tree_node cfg (Dir true es) path prefix = concat blocks
    ∧ shown ≡ₚ filter (λ e, e.1 ∉ ignored_dirs cfg) es
    ∧ StronglySorted (λ a b, key_le (is_file_node a.2, Str.lower a.1)
                                    (is_file_node b.2, Str.lower b.1) = true) shown
    ∧ Forall2 (λ e blk, ∃ conn ext,
         (conn = "└── " ∧ ext = "    " ∨ conn = "├── " ∧ ext = "│   ")
         ∧ blk = (prefix +:+ conn +:+ e.1)
                 :: (if is_dir_node e.2
                     then tree_node cfg e.2 (child path e.1) (prefix +:+ ext)
                     else []))
        shown blocks.
Proof.
  intros Hname Hrel. cbn [tree_node].
  rewrite bool_decide_eq_false_2, Hrel by done. cbn [negb].
  set (f := λ e : string * node,
              {| tc_path := child path e.1; tc_is_file := is_file_node e.2;
                 tc_is_dir := is_dir_node e.2;
                 tc_render := tree_node cfg e.2 (child path e.1) |}).
  rewrite (sorted_map tree_key f es).
  destruct (tree_loop_blocks path prefix
              (length (map f (sorted (tree_key ∘ f) es))) (sorted (tree_key ∘ f) es) 0)
    as (blocks & Hloop & Hblocks).
  exists (filter (λ e, e.1 ∉ ignored_dirs cfg) (sorted (tree_key ∘ f) es)), blocks.
  split_and!; [by rewrite <- Hloop|by rewrite sorted_perm| |done].
  apply StronglySorted_filter.
  destruct (sorted_by_key (tree_key ∘ f) es) as [Hsorted _].
  clear -Hsorted. induction Hsorted as [|a l Hl IH Ha]; constructor; [done|].
  eapply Forall_impl; [done|]. intros b. unfold compose, tree_key, f. simpl.
  by rewrite !name_child.
Qed.

(** The loop, child by child: [k] is the index of the child among all the
    children, ignored or not. *)
Lemma tree_loop_imap (path : Path) (prefix : string) (len : nat)
    (es : list (string * node)) :
  ∀ i,
    tree_loop (ignored_dirs cfg) prefix len i
      (map (λ e, {| tc_path := child path e.1; tc_is_file := is_file_node e.2;
                    tc_is_dir := is_dir_node e.2;
                    tc_render := tree_node cfg e.2 (child path e.1) |}) es)
    = concat (imap (λ j e, tree_block cfg path prefix len (i + j) e) es).
Proof.
  induction es as [|e es IH]; intros i; [done|].
  cbn [map tree_loop tc_path tc_is_dir tc_render imap concat].
  rewrite name_child, IH, Nat.add_0_r.
  rewrite (imap_ext _ (λ j e0, tree_block cfg path prefix len (i + S j) e0) es)
    by (intros; f_equal; lia).
  destruct (bool_decide (e.1 ∈ ignored_dirs cfg)) eqn:Hd;
    unfold compose, tree_block; by rewrite Hd.
Qed.

(** X18: the connectors, exactly.  The children of a directory, ignored
    or not, are sorted, directories before files and each kind by lower-cased
    name; a child that is ignored is left out, and a child that is drawn
    gets the last-child connector, and its subtree the blank prefix, exactly
    when it is the last of all the children in that order, whether or not
    the children after it are drawn. *)
Theorem generate_tree_connectors (fs0 : node) (path : Path) (prefix : string)
    (es : list (string * node)) :
  name path ∉ ignored_dirs cfg →
  is_ok (relative_to path (text_output cfg)) = true →
  resolve (parts path) fs0 = Some (Dir true es) →
  ∃ children,
    children ≡ₚ es
    ∧ StronglySorted (λ a b, key_le (is_file_node a.2, Str.lower a.1)
                                    (is_file_node b.2, Str.lower b.1) = true) children
    ∧ _generate_tree cfg fs0 path prefix
      = Ok (concat (imap (tree_block cfg path prefix (length children)) children)).
Proof.
  intros Hname Hrel Hres. unfold _generate_tree.
  rewrite bool_decide_eq_false_2, Hrel, Hres by done. cbn [negb tree_node].
  rewrite bool_decide_eq_false_2, Hrel by done. cbn [negb].
  set (f := λ e : string * node,
              {| tc_path := child path e.1; tc_is_file := is_file_node e.2;
                 tc_is_dir := is_dir_node e.2;
                 tc_render := tree_node cfg e.2 (child path e.1) |}).
  rewrite (sorted_map tree_key f es).
  exists (sorted (tree_key ∘ f) es). split_and!.
  - apply sorted_perm.
  - destruct (sorted_by_key (tree_key ∘ f) es) as [Hsorted _].
    clear -Hsorted. induction Hsorted as [|a l Hl IH Ha]; constructor; [done|].
    eapply Forall_impl; [done|]. intros b. unfold compose, tree_key, f. simpl.
    by rewrite !name_child.
  - rewrite length_map. unfold f. by rewrite tree_loop_imap.
Qed.

(** Every entry that is not ignored has its line. *)
Lemma tree_node_shows (path : Path) (prefix : string) (es : list (string * node))
    (o : string) (c : node) :
  name path ∉ ignored_dirs cfg →
  is_ok (relative_to path (text_output cfg)) = true →
  lookup_entry o es = Some c → o ∉ ignored_dirs cfg →
  ∃ conn, (conn = "└── " ∨ conn = "├── ")
          ∧ prefix +:+ conn +:+ o ∈ tree_node cfg (Dir true es) path prefix.
Proof.
  intros Hname Hrel Ho Hign.
  destruct (tree_node_blocks path prefix es Hname Hrel)
    as (shown & blocks & -> & Hperm & _ & Hblocks).
  assert (Hin : (o, c) ∈ shown).
  { rewrite Hperm. apply list_elem_of_filter. split; [done|].
    by apply lookup_entry_Some. }
  apply list_elem_of_lookup in Hin as [i Hi].
  destruct (Forall2_lookup_l _ _ _ _ _ Hblocks Hi) as (blk & Hblk & conn & ext & Hc & ->).
  exists conn. split; [destruct Hc as [[-> _]|[-> _]]; auto|].
  apply list_elem_of_In, in_concat. eexists. split.
  - apply list_elem_of_In. by eapply list_elem_of_lookup_2.
  - by left.
Qed.

End Tree.

Lemma generate_tree_ignores_contents_witness :
  (resolve (parts (source_dir cfg_py)) fs_project
   = Some (Dir true [("x.py", File (Some "X1")); ("b.txt", File (Some "B"));
                     ("sub", Dir true [("x.py", File (Some "X2")); ("Zed", Dir true [])]);
                     ("venv", Dir true [("lib", Dir true [("x.py", File (Some "X3"))])])])
   ∧ resolve (parts (source_dir cfg_py)) fs_project_pruned
     = Some (prune (λ d, bool_decide (d ∉ ignored_dirs cfg_py))
               (Dir true [("x.py", File (Some "X1")); ("b.txt", File (Some "B"));
                     ("sub", Dir true [("x.py", File (Some "X2")); ("Zed", Dir true [])]);
                     ("venv", Dir true [("lib", Dir true [("x.py", File (Some "X3"))])])])))
  ∧ _generate_tree cfg_py fs_project_pruned (source_dir cfg_py) ""
    = _generate_tree cfg_py fs_project (source_dir cfg_py) "".
Proof.
  assert (H : resolve (parts (source_dir cfg_py)) fs_project
   = Some (Dir true [("x.py", File (Some "X1")); ("b.txt", File (Some "B"));
                     ("sub", Dir true [("x.py", File (Some "X2")); ("Zed", Dir true [])]);
                     ("venv", Dir true [("lib", Dir true [("x.py", File (Some "X3"))])])])
   ∧ resolve (parts (source_dir cfg_py)) fs_project_pruned
     = Some (prune (λ d, bool_decide (d ∉ ignored_dirs cfg_py))
               (Dir true [("x.py", File (Some "X1")); ("b.txt", File (Some "B"));
                     ("sub", Dir true [("x.py", File (Some "X2")); ("Zed", Dir true [])]);
                     ("venv", Dir true [("lib", Dir true [("x.py", File (Some "X3"))])])])))
    by (split; reflexivity).
  split; [exact H|].
  exact (generate_tree_ignores_contents cfg_py fs_project fs_project_pruned
           (source_dir cfg_py) "" _ (proj1 H) (proj2 H)).
Defined.

Lemma generate_tree_size_witness :
  ((name (source_dir cfg_py) ∉ ignored_dirs cfg_py)
   ∧ is_ok (relative_to (source_dir cfg_py) (text_output cfg_py)) = true
   ∧ resolve (parts (source_dir cfg_py)) fs_trailing_ignored
     = Some (Dir true [("venv", Dir true [("lib.py", File (Some "L"))]);
                       ("pkg", Dir true [("a.py", File (Some "A"))])])
   ∧ _generate_tree cfg_py fs_trailing_ignored (source_dir cfg_py) ""
     = Ok ["├── pkg"; "│   └── a.py"])
  ∧ length ["├── pkg"; "│   └── a.py"]
    = tree_size (ignored_dirs cfg_py)
        (Dir true [("venv", Dir true [("lib.py", File (Some "L"))]);
                   ("pkg", Dir true [("a.py", File (Some "A"))])]).
Proof.
  assert (H : (name (source_dir cfg_py) ∉ ignored_dirs cfg_py)
   ∧ is_ok (relative_to (source_dir cfg_py) (text_output cfg_py)) = true
   ∧ resolve (parts (source_dir cfg_py)) fs_trailing_ignored
     = Some (Dir true [("venv", Dir true [("lib.py", File (Some "L"))]);
                       ("pkg", Dir true [("a.py", File (Some "A"))])])
   ∧ _generate_tree cfg_py fs_trailing_ignored (source_dir cfg_py) ""
     = Ok ["├── pkg"; "│   └── a.py"]).
  { split_and!; [|reflexivity|reflexivity|by vm_compute].
    apply (bool_decide_unpack _). by vm_compute. }
  split; [exact H|]. destruct H as (H1 & H2 & H3 & H4).
  exact (generate_tree_size cfg_py fs_trailing_ignored (source_dir cfg_py) "" _ _
           H1 H2 H3 H4).
Defined.

Lemma generate_tree_connectors_witness :
  ((name (source_dir cfg_py) ∉ ignored_dirs cfg_py)
   ∧ is_ok (relative_to (source_dir cfg_py) (text_output cfg_py)) = true
   ∧ resolve (parts (source_dir cfg_py)) fs_trailing_ignored
     = Some (Dir true [("venv", Dir true [("lib.py", File (Some "L"))]);
                       ("pkg", Dir true [("a.py", File (Some "A"))])]))
  ∧ ∃ children,
      children ≡ₚ [("venv", Dir true [("lib.py", File (Some "L"))]);
                   ("pkg", Dir true [("a.py", File (Some "A"))])]
      ∧ StronglySorted (λ a b, key_le (is_file_node a.2, Str.lower a.1)
                                      (is_file_node b.2, Str.lower b.1) = true) children
      ∧ _generate_tree cfg_py fs_trailing_ignored (source_dir cfg_py) ""
        = Ok (concat (imap (tree_block cfg_py (source_dir cfg_py) "" (length children))
                        children)).
Proof.
  assert (H : (name (source_dir cfg_py) ∉ ignored_dirs cfg_py)
   ∧ is_ok (relative_to (source_dir cfg_py) (text_output cfg_py)) = true
   ∧ resolve (parts (source_dir cfg_py)) fs_trailing_ignored
     = Some (Dir true [("venv", Dir true [("lib.py", File (Some "L"))]);
                       ("pkg", Dir true [("a.py", File (Some "A"))])])).
  { split_and!; [|reflexivity|reflexivity].
    apply (bool_decide_unpack _). by vm_compute. }
  split; [exact H|]. destruct H as (H1 & H2 & H3).
  exact (generate_tree_connectors cfg_py fs_trailing_ignored (source_dir cfg_py) "" _
           H1 H2 H3).
Defined.

(** ** An output directory inside the source directory *)

Section Nested.

Lemma mkdir_at_keeps_dir (b : bool) (qs : list string) :
  ∀ ps n n' w es, mkdir_at b qs n = Ok n' → resolve ps n = Some (Dir w es) →
                  ∃ es', resolve ps n' = Some (Dir w es').
Proof.
  induction qs as [|nm qs IH]; intros ps n n' w es Hm Hres.
  - destruct n as [c|w0 es0]; simpl in Hm; [done|].
    destruct b; [|done]. injection Hm as <-. eauto.
  - destruct n as [c|w0 es0]; simpl in Hm; [done|].
    destruct (lookup_entry nm es0) as [ch|] eqn:E.
    + destruct (mkdir_at b qs ch) as [ch'|] eqn:Em; [|done].
      simpl in Hm. injection Hm as <-.
      destruct ps as [|k ps]; simpl in *; [injection Hres as -> ->; eauto|].
      rewrite lookup_set_entry. destruct (decide (k = nm)) as [->|Hne]; [|eauto].
      rewrite E in Hres. by eapply IH.
    + destruct w0; [|done]. injection Hm as <-.
      destruct ps as [|k ps]; simpl in *; [injection Hres as -> ->; eauto|].
      rewrite lookup_set_entry. destruct (decide (k = nm)) as [->|Hne]; [|eauto].
      by rewrite E in Hres.
Qed.

Lemma write_at_keeps_dir (qs : list string) (content : string) :
  ∀ ps n n' w es, write_at qs content n = Ok n' → resolve ps n = Some (Dir w es) →
                  ∃ es', resolve ps n' = Some (Dir w es').
Proof.
  induction qs as [|nm qs IH]; intros ps n n' w es Hw Hres; simpl in Hw.
  - destruct n as [c|w0 es0]; [|done]. by destruct ps.
  - destruct n as [c|w0 es0]; [done|].
    destruct (lookup_entry nm es0) as [ch|] eqn:E.
    + destruct (write_at qs content ch) as [ch'|] eqn:Ew; [|done].
      simpl in Hw. injection Hw as <-.
      destruct ps as [|k ps]; simpl in *; [injection Hres as -> ->; eauto|].
      rewrite lookup_set_entry. destruct (decide (k = nm)) as [->|Hne]; [|eauto].
      rewrite E in Hres. by eapply IH.
    + destruct qs; [|done]. destruct w0; [|done]. injection Hw as <-.
      destruct ps as [|k ps]; simpl in *; [injection Hres as -> ->; eauto|].
      rewrite lookup_set_entry. destruct (decide (k = nm)) as [->|Hne]; [|eauto].
      by rewrite E in Hres.
Qed.

Lemma write_all_keeps_dir (fuel : nat) (cfg : FileProcessorConfig)
    (results : list (result (option FileData))) (ps : list string) (w : bool) :
  ∀ st st' es, write_all fuel cfg st results = Some (Ok st') →
               resolve ps (fs st) = Some (Dir w es) →
               ∃ es', resolve ps (fs st') = Some (Dir w es').
Proof.
  induction results as [|[fd|e] results IH]; intros st st' es; simpl.
  - intros [= <-]. eauto.
  - destruct (write_output_file fuel cfg st fd) as [st1|] eqn:Ew; [|done].
    cbn [mbind option_bind]. intros Hall Hres.
    assert (∃ es1, resolve ps (fs st1) = Some (Dir w es1)) as [es1 Hres1]; [|by eapply IH].
    unfold write_output_file in Ew. destruct fd as [d|]; [|injection Ew as <-; eauto].
    destruct (output_path_of fuel cfg (fs st) d) as [q|]; [|done].
    cbn [mbind option_bind] in Ew. injection Ew as <-.
    destruct (mkdir true (fs st) (parent q)) as [fs1|] eqn:Em; [|eauto].
    destruct (mkdir_at_keeps_dir _ _ _ _ _ _ _ Em Hres) as [es1 Hres1].
    destruct (write_text fs1 q (fd_content d)) as [fs2|] eqn:Ew; [|eauto].
    by eapply write_at_keeps_dir.
  - done.
Qed.

Lemma resolve_fresh_dirs_app (ps qs : list string) :
  resolve ps (fresh_dirs (ps ++ qs)) = Some (fresh_dirs qs).
Proof.
  induction ps as [|p ps IH]; simpl; [done|]. by rewrite decide_True.
Qed.

(** A directory made without [exist_ok] is a new entry of a directory in
    which entries can be made. *)
Lemma mkdir_at_new_parent (ps : list string) (o : string) :
  ∀ n n', mkdir_at false (ps ++ [o]) n = Ok n' →
          ∃ es, resolve ps n' = Some (Dir true es)
                ∧ lookup_entry o es = Some (Dir true []).
Proof.
  induction ps as [|p ps IH]; intros n n' Hm.
  - destruct n as [c|w es]; simpl in Hm; [done|].
    destruct (lookup_entry o es) as [[c|w' es']|] eqn:E; [done..|].
    destruct w; [|done]. injection Hm as <-. eexists. split; [done|].
    by rewrite lookup_set_entry, decide_True.
  - destruct n as [c|w es]; simpl in Hm; [done|].
    destruct (lookup_entry p es) as [ch|] eqn:E.
    + destruct (mkdir_at false (ps ++ [o]) ch) as [ch'|] eqn:Em; [|done].
      simpl in Hm. injection Hm as <-. simpl.
      rewrite lookup_set_entry, decide_True by done. by eapply IH.
    + destruct w; [|done]. injection Hm as <-. simpl.
      rewrite lookup_set_entry, decide_True by done.
      rewrite resolve_fresh_dirs_app. simpl. eexists. split; [done|].
      simpl. by rewrite decide_True.
Qed.

Lemma tree_shows_entry (cfg : FileProcessorConfig) (fs0 fs' : node) (fuel : nat)
    (r : ProcessingResults) (o : string) :
  output_dir cfg = child (source_dir cfg) o →
  o ∉ ignored_dirs cfg →
  name (source_dir cfg) ∉ ignored_dirs cfg →
  is_ok (relative_to (source_dir cfg) (text_output cfg)) = true →
  process_directory fuel cfg fs0 = Some (Ok (r, fs')) →
  tree_output r ≠ "" →
  ∃ lines conn,
    tree_output r = Str.join nl lines
    ∧ (conn = "└── " ∨ conn = "├── ")
    ∧ conn +:+ o ∈ lines.
Proof.
  intros Hout Ho Hsrc Hrel Hrun Hne.
  rewrite process_directory_pool in Hrun by (by eapply process_directory_Ok_pool).
  destruct (clear_output cfg fs0) as [fs1|] eqn:Hclear; [|done].
  destruct (write_all _ _ _ _) as [[st|]|] eqn:Hw; [|done..].
  cbn [mbind option_bind] in Hrun.
  destruct (generate_tree_output cfg (fs st)) as [t fs2] eqn:Ht.
  destruct (generate_combined_output cfg _) as [c fs3]. injection Hrun as <- <-.
  cbn [tree_output] in *.
  assert (∃ es1, resolve (parts (source_dir cfg)) fs1 = Some (Dir true es1)
                 ∧ lookup_entry o es1 = Some (Dir true [])) as (es1 & Hs1 & Ho1).
  { unfold clear_output in Hclear.
    destruct (if exists_ fs0 (output_dir cfg) then _ else _) as [fs0'|]; [|done].
    simpl in Hclear. unfold mkdir in Hclear. rewrite Hout in Hclear.
    by apply mkdir_at_new_parent in Hclear. }
  destruct (write_all_keeps_dir _ _ _ (parts (source_dir cfg)) true _ _ _ Hw Hs1)
    as [es2 Hs2].
  destruct (write_all_keeps_dir _ _ _ (parts (source_dir cfg) ++ [o]) true _ _ [] Hw)
    as [es3 Ho2].
  { cbn [fs]. by rewrite resolve_app, Hs1; simpl; rewrite Ho1. }
  rewrite resolve_app, Hs2 in Ho2. simpl in Ho2.
  destruct (lookup_entry o es2) as [co|] eqn:Eo; [|done].
  unfold generate_tree_output in Ht.
  destruct (_generate_tree cfg (fs st) (source_dir cfg) "") as [lines|] eqn:Hg;
    [|by injection Ht as <- _].
  destruct (mkdir true (fs st) (text_output cfg)) as [fs4|]; [|by injection Ht as <- _].
  destruct (write_text fs4 _ _) as [fs5|]; [|by injection Ht as <- _].
  injection Ht as <- _. exists lines.
  unfold _generate_tree in Hg.
  rewrite bool_decide_eq_false_2, Hrel, Hs2 in Hg by done. cbn [negb] in Hg.
  assert (lines = tree_node cfg (Dir true es2) (source_dir cfg) "") as -> by congruence.
  destruct (tree_node_shows cfg (source_dir cfg) "" es2 o co Hsrc Hrel Eo Ho)
    as (conn & Hconn & Hin).
  by exists conn.
Qed.

(** X19: the tree is drawn after the files are copied.  When the output
    directory is an entry of the source directory and its name is not
    ignored, the tree of a run that returns one has a line for the output
    directory, whether or not it was there before the run. *)
Theorem tree_shows_output (cfg : FileProcessorConfig) (fs0 fs' : node) (fuel : nat)
    (r : ProcessingResults) (o : string) :
  output_dir cfg = child (source_dir cfg) o →
  o ∉ ignored_dirs cfg →
  name (source_dir cfg) ∉ ignored_dirs cfg →
  is_ok (relative_to (source_dir cfg) (text_output cfg)) = true →
  process_directory fuel cfg fs0 = Some (Ok (r, fs')) →
  tree_output r ≠ "" →
  ∃ lines conn,
    tree_output r = Str.join nl lines
    ∧ (conn = "└── " ∨ conn = "├── ")
    ∧ conn +:+ o ∈ lines.
Proof. apply tree_shows_entry. Qed.

Lemma tree_shows_output_witness :
  (output_dir cfg_nested = child (source_dir cfg_nested) "out"
   ∧ ("out" ∉ ignored_dirs cfg_nested)
   ∧ (name (source_dir cfg_nested) ∉ ignored_dirs cfg_nested)
   ∧ is_ok (relative_to (source_dir cfg_nested) (text_output cfg_nested)) = true
   ∧ process_directory 1 cfg_nested fs_nested = Some (Ok (r_nested, fs_nested_after))
   ∧ tree_output r_nested ≠ "")
  ∧ ∃ lines conn,
      tree_output r_nested = Str.join nl lines
      ∧ (conn = "└── " ∨ conn = "├── ")
      ∧ conn +:+ "out" ∈ lines.
Proof.
  assert (H : output_dir cfg_nested = child (source_dir cfg_nested) "out"
   ∧ ("out" ∉ ignored_dirs cfg_nested)
   ∧ (name (source_dir cfg_nested) ∉ ignored_dirs cfg_nested)
   ∧ is_ok (relative_to (source_dir cfg_nested) (text_output cfg_nested)) = true
   ∧ process_directory 1 cfg_nested fs_nested = Some (Ok (r_nested, fs_nested_after))
   ∧ tree_output r_nested ≠ "").
  { split_and!; [reflexivity| | |reflexivity|by vm_compute|by vm_compute].
    - apply (bool_decide_unpack _). by vm_compute.
    - apply (bool_decide_unpack _). by vm_compute. }
  split; [exact H|]. destruct H as (H1 & H2 & H3 & H4 & H5 & H6).
  exact (tree_shows_output cfg_nested fs_nested fs_nested_after 1 r_nested "out"
           H1 H2 H3 H4 H5 H6).
Defined.

End Nested.

(** ** Loading the configuration *)

Section Loading.

Import Config.

Lemma ap_Typed {A B} (f : field (A → B)) (x : field A) (b : B) :
  ap f x = Typed b → ∃ f' x', f = Typed f' ∧ x = Typed x' ∧ b = f' x'.
Proof. destruct f, x; simpl; try done. intros [= <-]. eauto. Qed.

Lemma ap_Raises {A B} (f : field (A → B)) (x : field A) :
  ap f x = Raises ↔ f = Raises ∨ x = Raises.
Proof.
  destruct f, x; simpl; split; intros H; try done; try (by left); try (by right);
    by destruct H.
Qed.

(** The fields of a configuration that was loaded. *)
Lemma load_config_Typed (config_data : list (yaml * yaml)) (cfg : FileProcessorConfig) :
  load_config (Some (YMap config_data)) = Typed cfg →
  py_set (get config_data "extensions" (YList [])) = Typed (extensions cfg)
  ∧ py_set (get config_data "ignored_dirs" (YList [])) = Typed (ignored_dirs cfg)
  ∧ py_set (get config_data "ignored_files" (YList [])) = Typed (ignored_files cfg)
  ∧ py_path (get config_data "source_dir" (YStr ".")) = Typed (source_dir cfg)
  ∧ py_path (get config_data "output_dir" (YStr "output")) = Typed (output_dir cfg)
  ∧ py_path (get config_data "text_output" (YStr ".")) = Typed (text_output cfg)
  ∧ mirror_dir_structure cfg
    = truthy (get config_data "mirror_dir_structure" (YBool false))
  ∧ py_workers (get config_data "max_workers" (YInt 4)) = Typed (max_workers cfg).
Proof.
  unfold load_config. intros H.
  apply ap_Typed in H as (f8 & x8 & H & H8 & ->).
  apply ap_Typed in H as (f7 & x7 & H & H7 & ->).
  apply ap_Typed in H as (f6 & x6 & H & H6 & ->).
  apply ap_Typed in H as (f5 & x5 & H & H5 & ->).
  apply ap_Typed in H as (f4 & x4 & H & H4 & ->).
  apply ap_Typed in H as (f3 & x3 & H & H3 & ->).
  apply ap_Typed in H as (f2 & x2 & H & H2 & ->).
  apply ap_Typed in H as (f1 & x1 & H & H1 & ->).
  injection H as <-. injection H7 as <-. by simpl.
Qed.

Lemma endswith_char (x : string) (c : ascii) :
  Str.endswith x (String c "") = true ↔ last (Str.chars x) = Some c.
Proof.
  unfold Str.endswith. rewrite bool_decide_eq_true, last_Some.
  change (Str.chars (String c "")) with [c]. unfold suffix. naive_solver.
Qed.

(** X20: a string where a list is expected.  If [extensions] is given as
    the string [s] instead of a list, the extensions are the characters of
    [s]: a configuration is loaded, and it selects a file exactly when the
    last character of its path string is a character of [s] and its name
    is not ignored. *)
Theorem load_config_extensions_string (config_data : list (yaml * yaml)) (s : string)
    (cfg : FileProcessorConfig) :
  load_config (Some (YMap config_data)) = Typed cfg →
  get_key "extensions" config_data = Some (YStr s) →
  ∀ p, should_process_file cfg p = true ↔
       (∃ c, c ∈ Str.chars s ∧ last (Str.chars (str p)) = Some c)
       ∧ name p ∉ ignored_files cfg.
Proof.
  intros Hload Hext p. apply load_config_Typed in Hload as (He & _).
  unfold get in He. rewrite Hext in He. simpl in He.
  destruct (ascii_only s); [|done]. injection He as He.
  unfold should_process_file.
  rewrite andb_true_iff, !bool_decide_eq_true, <- He. unfold set_Exists.
  split; intros [Hsel Hign]; (split; [|done]).
  - destruct Hsel as (ext & Hin & Hends).
    apply elem_of_list_to_set, list_elem_of_fmap in Hin as (c & -> & Hc).
    exists c. split; [done|]. by apply endswith_char.
  - destruct Hsel as (c & Hc & Hlast). exists (String c ""). split.
    + apply elem_of_list_to_set, list_elem_of_fmap. by exists c.
    + by apply endswith_char.
Qed.

Lemma load_config_extensions_string_witness :
  (load_config (Some (YMap doc_chars)) = Typed cfg_chars
   ∧ get_key "extensions" doc_chars = Some (YStr ".py"))
  ∧ should_process_file cfg_chars (parse "notes/happy") = true.
Proof.
  assert (H : load_config (Some (YMap doc_chars)) = Typed cfg_chars
              ∧ get_key "extensions" doc_chars = Some (YStr ".py"))
    by (split; reflexivity).
  split; [exact H|].
  apply (proj2 (load_config_extensions_string doc_chars ".py" cfg_chars
                  (proj1 H) (proj2 H) (parse "notes/happy"))).
  split.
  - exists "y"%char. split; [|reflexivity]. simpl. by repeat constructor.
  - simpl. apply not_elem_of_empty.
Defined.

Lemma filter_none {A} (P : A → bool) (l : list A) :
  (∀ x, P x = false) → List.filter P l = [].
Proof. intros H. induction l as [|x l IH]; simpl; [done|]. by rewrite H. Qed.

(** X21: a configuration without [extensions] exports nothing.  The
    default is the empty set, so no file is selected, nothing is collected
    from any file system, and the combined text of every run is empty. *)
Theorem load_config_no_extensions (config_data : list (yaml * yaml))
    (cfg : FileProcessorConfig) :
  load_config (Some (YMap config_data)) = Typed cfg →
  get_key "extensions" config_data = None →
  (∀ p, should_process_file cfg p = false)
  ∧ (∀ fs0, collect_files cfg fs0 = [])
  ∧ (∀ fuel fs0 r fs', process_directory fuel cfg fs0 = Some (Ok (r, fs')) →
                       combined_output r = "").
Proof.
  intros Hload Hext. apply load_config_Typed in Hload as (He & _).
  unfold get in He. rewrite Hext in He. simpl in He. injection He as He.
  assert (Hsel : ∀ p, should_process_file cfg p = false).
  { intros p. unfold should_process_file. rewrite <- He.
    rewrite bool_decide_eq_false_2; [done|]. intros (ext & Hin & _).
    by apply elem_of_empty in Hin. }
  assert (Hcol : ∀ fs0, collect_files cfg fs0 = []).
  { intros fs0. rewrite collect_files_walk_files. by apply filter_none. }
  split_and!; [done..|]. intros fuel fs0 r fs' Hrun.
  rewrite process_directory_pool in Hrun by (by eapply process_directory_Ok_pool).
  revert Hrun.
  destruct (clear_output cfg fs0) as [fs1|]; [|done].
  rewrite Hcol. simpl.
  destruct (generate_tree_output cfg fs1) as [t fs2].
  unfold generate_combined_output. simpl.
  destruct (mkdir true fs2 (text_output cfg)) as [fs3|]; [|by intros [= <- <-]].
  destruct (write_text fs3 _ _); by intros [= <- <-].
Qed.

Lemma load_config_no_extensions_witness :
  (load_config (Some (YMap [])) = Typed cfg_default
   ∧ get_key "extensions" [] = None)
  ∧ ∀ fs0, collect_files cfg_default fs0 = [].
Proof.
  assert (H : load_config (Some (YMap [])) = Typed cfg_default
              ∧ get_key "extensions" [] = None) by (split; reflexivity).
  split; [exact H|].
  exact (proj1 (proj2 (load_config_no_extensions [] cfg_default (proj1 H) (proj2 H)))).
Defined.

(** X22: with the default directories, the source directory is the
    current directory and the output directory is its entry [output]; so
    unless [output] is ignored, the tree of a run that returns one lists
    the output directory. *)
Theorem load_config_default_directories (config_data : list (yaml * yaml))
    (cfg : FileProcessorConfig) (fuel : nat) (fs0 fs' : node) (r : ProcessingResults) :
  load_config (Some (YMap config_data)) = Typed cfg →
  get_key "source_dir" config_data = None →
  get_key "output_dir" config_data = None →
  get_key "text_output" config_data = None →
  "output" ∉ ignored_dirs cfg → "" ∉ ignored_dirs cfg →
  process_directory fuel cfg fs0 = Some (Ok (r, fs')) →
  tree_output r ≠ "" →
  ∃ lines conn,
    tree_output r = Str.join nl lines
    ∧ (conn = "└── " ∨ conn = "├── ")
    ∧ conn +:+ "output" ∈ lines.
Proof.
  intros Hload Hs Ho Ht Hign Hign' Hrun Hne.
  apply load_config_Typed in Hload as (_ & _ & _ & Hsrc & Hout & Htext & _).
  unfold get in Hsrc, Hout, Htext. rewrite Hs in Hsrc. rewrite Ho in Hout.
  rewrite Ht in Htext. simpl in Hsrc, Hout, Htext.
  injection Hsrc as Hsrc. injection Hout as Hout. injection Htext as Htext.
  apply (tree_shows_entry cfg fs0 fs' fuel r "output"); try done.
  - by rewrite <- Hsrc, <- Hout.
  - by rewrite <- Hsrc.
  - by rewrite <- Hsrc, <- Htext.
Qed.

Lemma load_config_default_directories_witness :
  (Config.load_config (Some (Config.YMap [])) = Config.Typed cfg_default
   ∧ Config.get_key "source_dir" [] = None
   ∧ Config.get_key "output_dir" [] = None
   ∧ Config.get_key "text_output" [] = None
   ∧ ("output" ∉ ignored_dirs cfg_default) ∧ ("" ∉ ignored_dirs cfg_default)
   ∧ process_directory 0 cfg_default fs_nested = Some (Ok (r_default, fs_default_after))
   ∧ tree_output r_default ≠ "")
  ∧ ∃ lines conn,
      tree_output r_default = Str.join nl lines
      ∧ (conn = "└── " ∨ conn = "├── ")
      ∧ conn +:+ "output" ∈ lines.
Proof.
  assert (H : Config.load_config (Some (Config.YMap [])) = Config.Typed cfg_default
   ∧ Config.get_key "source_dir" [] = None
   ∧ Config.get_key "output_dir" [] = None
   ∧ Config.get_key "text_output" [] = None
   ∧ ("output" ∉ ignored_dirs cfg_default) ∧ ("" ∉ ignored_dirs cfg_default)
   ∧ process_directory 0 cfg_default fs_nested = Some (Ok (r_default, fs_default_after))
   ∧ tree_output r_default ≠ "").
  { split_and!; [reflexivity..| | |by vm_compute|by vm_compute];
      apply not_elem_of_empty. }
  split; [exact H|]. destruct H as (H1 & H2 & H3 & H4 & H5 & H6 & H7 & H8).
  exact (load_config_default_directories [] cfg_default 0 fs_nested fs_default_after
           r_default H1 H2 H3 H4 H5 H6 H7 H8).
Defined.

Lemma forallb_false {A} (f : A → bool) (l : list A) :
  forallb f l = false ↔ Exists (λ x, f x = false) l.
Proof.
  induction l as [|x l IH]; simpl.
  - by rewrite Exists_nil.
  - by rewrite andb_false_iff, Exists_cons, IH.
Qed.

(** X23: when loading raises.  It raises, always [RuntimeError], if the
    file cannot be opened or parsed, if the document is not a mapping (an
    empty file is not one), if one of the three sets is null, a boolean, an
    integer or a list that holds a list or a mapping, or if one of the
    three directories is not a string; and in no other case.  A key that is
    there with no value does not get the default. *)
Theorem load_config_raises (doc : option yaml) :
  load_config doc = Raises ↔
  match doc with
  | Some (YMap config_data) =>
      Exists set_raises [get config_data "extensions" (YList []);
                         get config_data "ignored_dirs" (YList []);
                         get config_data "ignored_files" (YList [])]
      ∨ Exists (λ v, as_str v = None) [get config_data "source_dir" (YStr ".");
                                       get config_data "output_dir" (YStr "output");
                                       get config_data "text_output" (YStr ".")]
  | _ => True
  end.
Proof.
  destruct doc as [[| | | | |config_data]|]; try done.
  unfold load_config. rewrite !ap_Raises.
  assert (Hset : ∀ v, py_set v = Raises ↔ set_raises v).
  { intros [| | |s|l|d]; simpl; try done.
    - by destruct (ascii_only s).
    - rewrite <- forallb_false. destruct (forallb hashable l); [|done].
      unfold set_of_strs. by destruct (mapM as_str l).
    - unfold set_of_strs. by destruct (mapM as_str d.*1). }
  assert (Hpath : ∀ v, py_path v = Raises ↔ as_str v = None).
  { by intros [| | |s|l|d]. }
  assert (Hw : ∀ v, py_workers v = Raises ↔ False) by (by intros [| | |s|l|d]).
  assert (Hf : ∀ A (a : A), Typed a = Raises ↔ False) by done.
  rewrite !Exists_cons, !Exists_nil, !Hset, !Hpath, !Hf, Hw. tauto.
Qed.

End Loading.

(** ** What a run leaves alone *)

Section Safety.

Lemma generate_combined_output_frame (cfg : FileProcessorConfig) (st : State)
    (p : Path) (c : string) :
  parts p ≠ parts (absolute (text_output cfg) </> "combined.txt") →
  read_text (fs st) p = Ok c →
  read_text (generate_combined_output cfg st).2 p = Ok c.
Proof.
  intros Hne Hp. unfold generate_combined_output.
  destruct (combined_content (fs st) (processed_files st)) as [blocks|]; [|done].
  destruct (mkdir true (fs st) (text_output cfg)) as [fs1|] eqn:Em; [|done].
  assert (Hp1 : read_text fs1 p = Ok c).
  { apply read_text_Ok. apply read_text_Ok in Hp.
    by apply (mkdir_at_resolve_file _ _ _ _ _ _ Em). }
  destruct (write_text fs1 _ _) as [fs2|] eqn:Ew; [|done]. simpl.
  apply read_text_Ok in Hp1. apply read_text_Ok.
  rewrite (write_at_resolve_file _ _ _ _ _ _ Ew Hp1). by rewrite decide_False.
Qed.

(** X24: a run changes no file of its own accord but those below the
    output directory and its two artefacts: every other file that could be
    read before a run that returns can be read after it, with the same
    content. *)
Theorem process_directory_keeps_files (cfg : FileProcessorConfig) (fs0 fs' : node)
    (fuel : nat) (r : ProcessingResults) :
  wf_names fs0 = true → wf_path (output_dir cfg) →
  process_directory fuel cfg fs0 = Some (Ok (r, fs')) →
  ∀ p c,
    ¬ parts (output_dir cfg) `prefix_of` parts p →
    parts p ≠ parts (absolute (text_output cfg) </> "combined.tree.txt") →
    parts p ≠ parts (absolute (text_output cfg) </> "combined.txt") →
    read_text fs0 p = Ok c → read_text fs' p = Ok c.
Proof.
  intros Hwf Hout Hrun p c Hpre Htree Hcomb Hp.
  rewrite process_directory_pool in Hrun by (by eapply process_directory_Ok_pool).
  destruct (clear_output cfg fs0) as [fs1|] eqn:Hclear; [|done].
  destruct (write_all _ _ _ _) as [[st|]|] eqn:Hw; [|done..].
  cbn [mbind option_bind] in Hrun.
  destruct (clear_output_state cfg fs0 fs1 Hwf Hout Hclear) as [Hwf1 _].
  pose proof (clear_output_frame cfg fs0 fs1 p c Hclear Hpre Hp) as Hp1.
  assert (Hp2 : read_text (fs st) p = Ok c).
  { apply read_text_Ok. apply read_text_Ok in Hp1.
    refine (write_all_frame fuel cfg _ p _ _ _ _ Hw Hp1).
    intros d q fs2 Hd Hq Heq. apply list_elem_of_fmap in Hd as (p' & Hd & Hp').
    symmetry in Hd.
    destruct (output_path_below fuel cfg fs1 fs1 fs2 p' q d Hwf1 Hp' Hd Hq)
      as (rest & Hrest & _).
    apply Hpre. rewrite <- Heq, Hrest. by apply prefix_app_r. }
  pose proof (generate_tree_output_frame cfg (fs st) p c Htree Hp2) as Hp3.
  destruct (generate_tree_output cfg (fs st)) as [t fs2]. simpl in Hp3.
  pose proof (generate_combined_output_frame cfg
                {| fs := fs2; processed_files := processed_files st |} p c Hcomb Hp3)
    as Hp4.
  destruct (generate_combined_output cfg _) as [c' fs3]. simpl in Hp4.
  by injection Hrun as <- <-.
Qed.

Lemma process_directory_keeps_files_witness :
  (wf_names fs_nested = true ∧ wf_path (output_dir cfg_nested)
   ∧ process_directory 1 cfg_nested fs_nested = Some (Ok (r_nested, fs_nested_after)))
  ∧ read_text fs_nested_after (parse "src/a.py") = Ok "A".
Proof.
  assert (H : wf_names fs_nested = true ∧ wf_path (output_dir cfg_nested)
   ∧ process_directory 1 cfg_nested fs_nested
     = Some (Ok (r_nested, fs_nested_after))).
  { split_and!; [reflexivity|apply parse_wf|by vm_compute]. }
  split; [exact H|]. destruct H as (H1 & H2 & H3).
  apply (process_directory_keeps_files cfg_nested fs_nested fs_nested_after 1 r_nested
           H1 H2 H3 (parse "src/a.py") "A").
  - intros [k Hk]. vm_compute in Hk. discriminate Hk.
  - by vm_compute.
  - by vm_compute.
  - reflexivity.
Defined.

End Safety.


(** ** Running again *)

(** *** What an operation on the file system depends on, and what it
    changes *)

Section Operations.







(** **** Outside the path of an operation nothing changes *)





(** **** Below a path an operation acts on the node at that path *)





(** **** The same operation keeps two file systems alike

    Where two file systems hold the same at a path, they still do after the
    same operation went through on both. *)






(** **** Removing a directory undoes what was done below it *)



(** **** Making a directory again where it was just made *)





(** **** Files that are there *)




(** **** Valid and distinct names are kept *)


End Operations.

(** *** What each step of a run depends on *)

Section Views.

Context (cfg : FileProcessorConfig).













End Views.

(** *** The writer, step by step *)

Section Steps.

Context (cfg : FileProcessorConfig) (fuel : nat).
Hypothesis Hout : wf_path (output_dir cfg).
Hypothesis Hroot : parts (output_dir cfg) ≠ [].








End Steps.

(** *** Writing a text artefact

    Both generators end in the same way: they make the text-output
    directory, write their text to a file in it, and return the text, or
    the empty text if either step raised. *)

Local Abbreviation emit text_dir file text fs0 :=
  (match mkdir true fs0 text_dir with
   | Raise _ => (EmptyString, fs0)
   | Ok fs1 =>
       match write_text fs1 file text%string with
       | Raise _ => (EmptyString, fs1)
       | Ok fs2 => (text%string, fs2)
       end
   end).

Section Artefacts.

Context (text_dir file : Path) (x : string).
Hypothesis Hfile : parts file = parts text_dir ++ [x].











End Artefacts.

(** *** The generators *)

Local Abbreviation tree_file_of cfg := (absolute (text_output cfg) </> "combined.tree.txt").
Local Abbreviation combined_file_of cfg := (absolute (text_output cfg) </> "combined.txt").

Section Generated.

Context (cfg : FileProcessorConfig).












End Generated.

(** *** A second run *)

Section Rerun.

Context (cfg : FileProcessorConfig).







End Rerun.


(** What the first run of [cfg_in_place] on [fs_notes] returns and leaves,
    and what the second run returns. *)
Example process_directory_in_place :
  process_directory 3 cfg_in_place fs_notes = Some (Ok (r_notes_first, fs_notes_first))
  ∧ ∃ fs2, process_directory 3 cfg_in_place fs_notes_first
           = Some (Ok (r_notes_second, fs2))
           ∧ read_text fs2 (parse "combined.tree.txt") = Ok (tree_output r_notes_second)
           ∧ read_text fs2 (parse "combined.txt") = Ok (combined_output r_notes_second).
Proof. split; [by vm_compute|]. eexists. split_and!; by vm_compute. Qed.

